(** * chanjing-sdk: a shallow embedding of the auth / request / polling layer

    The development follows the Python sources module by module:
    - [Py]             : the Python primitives the code relies on
                         (truthiness, [str.strip], [len], substring test);
    - [Credentials]    : [AuthManager._resolve_credentials]        (auth.py);
    - [Runtime]        : exceptions, HTTP values, the token file, the state
                         of a client and the state-and-exception monad;
    - [Api]            : [RateLimiter], [ApiClient.request],
                         [ApiClient.json_request] (api.py) and the token
                         life cycle of [AuthManager] (auth.py);
    - [UploadProgress] : the read-progress wrapper                  (api.py);
    - [Polling]        : [check_billing_error], [_poll_file_status] (api.py)
                         and the polling loops of the three services;
    - [Upload]         : [ApiClient.upload_file]                   (api.py);
    - [LipSyncService] : [LipSyncService.create]  (services/lip_sync.py);
    - [VoiceCloneCache]: the persisted voice clone cache          (cache.py);
    - [Utils]          : [infer_extension_from_url]               (utils.py);
    - [VoiceClone]     : [VoiceCloneService.clone] and
                         [_validate_voice]      (services/voice_clone.py).
    The properties follow the definitions.

    Conventions.  Python [str] values are modelled by [string], read as
    UTF-8 text (the literals of the source are kept as they are); a
    character is a code point, that is one to four bytes of the text.
    Wall-clock values ([time.time()]) are exact rationals.  The platform is
    a function from the index of an HTTP exchange and the request to a
    reply; a polling loop is run over the list of what its iterations
    observe (clock reading and outcome of the status query), so that a
    finite prefix of a run that never ends is still a value. *)

From Stdlib Require Import Ascii String QArith Lqa.
From Stdlib.Strings Require Byte.
From Stdlib.Floats Require SpecFloat.
From stdpp Require Import base option list strings pretty gmap.

Set Warnings "-register-all".
Local Open Scope string_scope.
Local Open Scope Z_scope.

(* ===================================================================== *)
(** ** Python primitives *)
(* ===================================================================== *)

Module Py.

(** [bool(s)] for a [str]: the empty string is falsy. *)
Definition truthy (s : string) : bool :=
  match s with
  | EmptyString => false
  | String _ _ => true
  end.

(** [bool(x)] for an [Optional[str]]: [None] and [""] are falsy. *)
Definition truthy_opt (o : option string) : bool :=
  match o with
  | None => false
  | Some s => truthy s
  end.

(** The code points [str.isspace] accepts, which are the characters
    [str.strip] removes: CPython's table of whitespace characters
    ([_PyUnicode_IsWhitespace]). *)
Definition space_points : list Z :=
  [ 0x09; 0x0A; 0x0B; 0x0C; 0x0D; 0x1C; 0x1D; 0x1E; 0x1F; 0x20; 0x85; 0xA0;
    0x1680; 0x2000; 0x2001; 0x2002; 0x2003; 0x2004; 0x2005; 0x2006; 0x2007;
    0x2008; 0x2009; 0x200A; 0x2028; 0x2029; 0x202F; 0x205F; 0x3000 ].

(** [c.isspace()] for the character with code point [cp] *)
Definition isspace (cp : Z) : bool := bool_decide (cp ∈ space_points).

(** One byte of a text. *)
Definition byte (n : Z) : ascii := ascii_of_N (Z.to_N n).

(** The UTF-8 encoding of the character with code point [cp]. *)
Definition utf8 (cp : Z) : string :=
  if cp <? 0x80 then String (byte cp) ""
  else if cp <? 0x800 then
    String (byte (0xC0 + cp / 0x40)) (String (byte (0x80 + cp mod 0x40)) "")
  else if cp <? 0x10000 then
    String (byte (0xE0 + cp / 0x1000))
      (String (byte (0x80 + cp / 0x40 mod 0x40))
         (String (byte (0x80 + cp mod 0x40)) ""))
  else
    String (byte (0xF0 + cp / 0x40000))
      (String (byte (0x80 + cp / 0x1000 mod 0x40))
         (String (byte (0x80 + cp / 0x40 mod 0x40))
            (String (byte (0x80 + cp mod 0x40)) ""))).

(** The text made of the characters [cps]. *)
Fixpoint text (cps : list Z) : string :=
  match cps with
  | [] => ""
  | cp :: cps' => utf8 cp ++ text cps'
  end.

(** The whitespace characters, as they occur in a text. *)
Definition whitespace : list string := map utf8 space_points.

(** [s] without the prefix [p], when it starts with it. *)
Fixpoint drop_prefix (p s : string) : option string :=
  match p, s with
  | EmptyString, _ => Some s
  | String a p', String b s' => if Ascii.eqb a b then drop_prefix p' s' else None
  | String _ _, EmptyString => None
  end.

(** [s] without the first of the prefixes [ps] it starts with. *)
Fixpoint drop_any (ps : list string) (s : string) : option string :=
  match ps with
  | [] => None
  | p :: ps' =>
      match drop_prefix p s with
      | Some s' => Some s'
      | None => drop_any ps' s
      end
  end.

(** [s] without its first character, when that is a whitespace character
    (no whitespace character is the beginning of another one). *)
Definition drop_space (s : string) : option string := drop_any whitespace s.

(** Dropping up to [n] leading whitespace characters. *)
Fixpoint lstrip_upto (n : nat) (s : string) : string :=
  match n with
  | O => s
  | S n' =>
      match drop_space s with
      | Some s' => lstrip_upto n' s'
      | None => s
      end
  end.

(** [s.lstrip()]: a text has no more characters than bytes. *)
Definition lstrip (s : string) : string := lstrip_upto (String.length s) s.

(** [s.rstrip()]: the text up to the point from which on it is whitespace
    only. *)
Fixpoint rstrip (s : string) : string :=
  match s with
  | EmptyString => EmptyString
  | String c s' => if truthy (lstrip s) then String c (rstrip s') else EmptyString
  end.

(** [s.strip()] *)
Definition strip (s : string) : string := rstrip (lstrip s).

(** [len(s)]: the number of code points of the UTF-8 text, that is of the
    bytes that are not continuation bytes (0x80..0xBF). *)
Fixpoint len (s : string) : Z :=
  match s with
  | EmptyString => 0
  | String c s' =>
      let n := nat_of_ascii c in
      if ((128 <=? n)%nat && (n <? 192)%nat) then len s' else 1 + len s'
  end.

(** [s.startswith(p)] *)
Fixpoint startswith (p s : string) : bool :=
  match p, s with
  | EmptyString, _ => true
  | String a p', String b s' => if Ascii.eqb a b then startswith p' s' else false
  | String _ _, EmptyString => false
  end.

(** [kw in msg] for two strings *)
Fixpoint contains (kw msg : string) : bool :=
  startswith kw msg ||
  match msg with
  | EmptyString => false
  | String _ msg' => contains kw msg'
  end.

(** [any(kw in msg for kw in kws)] *)
Definition any_in (kws : list string) (msg : string) : bool :=
  existsb (fun kw => contains kw msg) kws.

End Py.

(* ===================================================================== *)
(** ** auth.py: credential resolution *)
(* ===================================================================== *)

Module Credentials.

(** A value stored under a key of the JSON configuration object: the code
    only distinguishes strings (which have [.strip]) from everything
    else (on which [.strip()] raises [AttributeError]). *)
Inductive jvalue :=
| JStr (s : string)
| JOther.

(** What [~/.chanjing/config.json] looks like to the resolver. *)
Inductive config_file :=
| CfgAbsent                          (* os.path.exists(...) is False *)
| CfgBroken                          (* open / json.load raises, or not an object *)
| CfgObject (o : gmap string jvalue).

(** The message of the final [ValueError], line by line. *)
Definition missing_credentials_message : list string :=
  [ "未找到蝉镜 AI 凭证。请通过以下任一方式配置：";
    "  1. CicadaClient(app_id='...', secret_key='...')";
    "  2. 设置环境变量 CHANJING_APP_ID 和 CHANJING_SECRET_KEY";
    "  3. 创建配置文件 ~/.chanjing/config.json";
    "获取凭证: https://www.chanjing.cc/platform/api_keys" ].

Inductive cred_error :=
| ValueError (message : list string).

(** [os.environ.get(k, "").strip()] *)
Definition env_get (environ : gmap string string) (k : string) : string :=
  Py.strip (default "" (environ !! k)).

(** [config.get(k, "").strip()]; [None] stands for the [AttributeError]
    raised when the stored value is not a string. *)
Definition cfg_get (o : gmap string jvalue) (k : string) : option string :=
  match default (JStr "") (o !! k) with
  | JStr s => Some (Py.strip s)
  | JOther => None
  end.

(** The [try] block of step 3: [Some pair] when it returns, [None] when it
    falls through (fields empty) or an exception is swallowed. *)
Definition from_config (cfg : config_file) : option (string * string) :=
  match cfg with
  | CfgAbsent => None
  | CfgBroken => None
  | CfgObject o =>
      match cfg_get o "app_id" with
      | None => None
      | Some file_app_id =>
          match cfg_get o "secret_key" with
          | None => None
          | Some file_secret =>
              if Py.truthy file_app_id && Py.truthy file_secret
              then Some (file_app_id, file_secret)
              else None
          end
      end
  end.

(** Step 1: [if app_id and secret_key: return app_id.strip(), secret_key.strip()] *)
Definition from_args (app_id secret_key : option string)
  : option (string * string) :=
  match app_id, secret_key with
  | Some a, Some s =>
      if Py.truthy a && Py.truthy s then Some (Py.strip a, Py.strip s) else None
  | _, _ => None
  end.

(** Step 2: the two environment variables, stripped, both truthy. *)
Definition from_env (environ : gmap string string) : option (string * string) :=
  let env_app_id := env_get environ "CHANJING_APP_ID" in
  let env_secret := env_get environ "CHANJING_SECRET_KEY" in
  if Py.truthy env_app_id && Py.truthy env_secret
  then Some (env_app_id, env_secret)
  else None.

Definition _resolve_credentials
    (app_id secret_key : option string)
    (environ : gmap string string) (cfg : config_file)
  : cred_error + (string * string) :=
  match from_args app_id secret_key with
  | Some p => inr p
  | None =>
      match from_env environ with
      | Some p => inr p
      | None =>
          match from_config cfg with
          | Some p => inr p
          | None => inl (ValueError missing_credentials_message)
          end
      end
  end.

End Credentials.

(* ===================================================================== *)
(** ** Exceptions, the world and the effect monad *)
(* ===================================================================== *)

Module Runtime.

(** The builtin class an exception is an instance of, as far as the
    [except] clauses of the SDK can tell. *)
Inductive builtin_class :=
| IsTimeoutError
| IsRuntimeError
| IsOtherException.

(** Exceptions that travel through the SDK. *)
Inductive exn :=
(* raised inside [requests.request] / [raise_for_status] / [.json()] *)
| ReqConnectionError (info : string)      (* requests.exceptions.ConnectionError *)
| ReqTimeout (info : string)              (* requests.exceptions.Timeout *)
| ReqHTTPError (status : Z)               (* requests.exceptions.HTTPError *)
| ReqOther (cls : builtin_class) (info : string)  (* any other Exception *)
(* raised by [time.sleep] and by the interpreter *)
| SleepValueError                         (* ValueError: negative length *)
| RecursionError                          (* the stack limit *)
| KeyError (key : string)                 (* d[key] on a missing key *)
(* raised by api.py *)
| RetriesExhausted (max_retries : Z) (last_exception : option exn)
                                          (* builtin ConnectionError, api.py:157 *)
| AuthRejected (code : Z) (msg : string)  (* PermissionError, api.py:204 *)
| ApiFailed (code : option Z) (msg : string)      (* RuntimeError, api.py:210 *)
| BillingError (api_msg : string)         (* RuntimeError, api.py:327 *)
| FileSyncTimeout (elapsed : Q)           (* TimeoutError, api.py:291 *)
| FileUnavailable (status : Z)            (* RuntimeError, api.py:308 *)
| FileNotFoundError (message : string)    (* api.py:227, lip_sync.py:72/74 *)
| UploadFailed (status_code : Z)          (* RuntimeError, api.py:270 *)
(* raised by auth.py *)
| EmptyAccessToken                        (* RuntimeError, auth.py:148 *)
(* raised by the services *)
| TTSTimeout (elapsed : Q)                (* TimeoutError, tts.py:114 *)
| TTSPollFailed (cause : exn)             (* RuntimeError, tts.py:129 *)
| TTSFailed (err_msg : string) (err_reason : string)  (* RuntimeError, tts.py:144 *)
| TTSNoAudioUrl                           (* RuntimeError, tts.py:151 *)
| TTSBadText (reason : string)            (* ValueError, tts.py:69/71 *)
| CloneTimeout (elapsed : Q)              (* TimeoutError, voice_clone.py:163 *)
| ClonePollFailed (cause : exn)           (* RuntimeError, voice_clone.py:178 *)
| CloneFailed (err_msg : string)          (* RuntimeError, voice_clone.py:194 *)
| CloneExpired                            (* RuntimeError, voice_clone.py:196 *)
| CloneDeleted                            (* RuntimeError, voice_clone.py:198 *)
| LipSyncTimeout                          (* TimeoutError, lip_sync.py:158 *)
| LipSyncNoVideoUrl                       (* RuntimeError, lip_sync.py:184 *)
| LipSyncFailed (msg : string).           (* RuntimeError, lip_sync.py:190 *)

Definition class_of (e : exn) : builtin_class :=
  match e with
  | ReqOther cls _ => cls
  | FileSyncTimeout _ | TTSTimeout _ | CloneTimeout _ | LipSyncTimeout =>
      IsTimeoutError
  | ApiFailed _ _ | EmptyAccessToken | RecursionError | BillingError _
  | FileUnavailable _ | UploadFailed _ | TTSPollFailed _ | TTSFailed _ _
  | TTSNoAudioUrl
  | ClonePollFailed _ | CloneFailed _ | CloneExpired | CloneDeleted
  | LipSyncNoVideoUrl | LipSyncFailed _ => IsRuntimeError
  | ReqConnectionError _ | ReqTimeout _ | ReqHTTPError _ | SleepValueError
  | RetriesExhausted _ _ | AuthRejected _ _ | KeyError _ | TTSBadText _
  | FileNotFoundError _ => IsOtherException
  end.

(** ** HTTP *)

(** The keyword arguments the SDK passes down to [requests.request]. *)
Record kwargs := {
  kw_headers : option (gmap string string);
  kw_json    : option (gmap string string);
  kw_params  : option (gmap string string);
  kw_timeout : option Z;
}.

Record http_request := {
  rq_method : string;
  rq_url    : string;
  rq_kwargs : kwargs;
}.

(** The parsed body [{code, msg, data}].  At this layer only the
    string-valued fields of [data] are looked at. *)
Record api_result := {
  code : option Z;
  msg  : option string;
  data : option (gmap string string);
}.

Inductive body :=
| NotJson                       (* response.json() raises *)
| Json (result : api_result).

Record response := {
  status_code : Z;
  content     : body;
}.

Inductive http_outcome :=
| Responds (r : response)
| Throws (e : exn).

Record reply := {
  latency : Q;                  (* time the exchange takes *)
  outcome : http_outcome;
}.

(** ** Disk: the token cache file *)

Inductive cache_file :=
| FileAbsent
| FileBroken                    (* unreadable, not JSON, or not an object *)
| FileData (access_token : option string) (expire_time : Q)
           (config_hash : option string).

(** ** Observable events, most recent first in the trace *)

Inductive level := DEBUG | INFO | WARNING.

Inductive event :=
| Sent (rq : http_request)      (* one call of requests.request *)
| Slept (seconds : Q)           (* one call of time.sleep *)
| Logged (lvl : level) (fmt : string).

(** ** Instance state of [AuthManager] *)
Record auth_state := {
  _app_id : string;
  _secret_key : string;
  _config_hash : string;
  _token : option string;
  _token_expire : Q;
  _token_config_hash : option string;
}.

(** ** Everything a call can read or change *)
Record state := {
  now : Q;                            (* what time.time() returns *)
  token_file : cache_file;            (* <cache_dir>/token.json *)
  disk_writable : bool;               (* does writing token.json succeed? *)
  disk_truncates : bool;              (* when it fails: only after open(..., "w")
                                         has emptied the file? *)
  trace : list event;
  _timestamps : gmap string Q;        (* RateLimiter._timestamps *)
  _auth : auth_state;                 (* ApiClient._auth *)
}.

(** ** The monad: state passing with exceptions *)

Inductive result (A : Type) :=
| Returns (a : A)
| Raises (e : exn).
Arguments Returns {A} a.
Arguments Raises {A} e.

Definition M (A : Type) : Type := state -> result A * state.

Definition ret {A} (a : A) : M A := fun s => (Returns a, s).
Definition raise {A} (e : exn) : M A := fun s => (Raises e, s).
Definition bind {A B} (c : M A) (k : A -> M B) : M B :=
  fun s => match c s with
           | (Returns a, s') => k a s'
           | (Raises e, s') => (Raises e, s')
           end.
(** [try: c except Exception as e: h e] *)
Definition try_except {A} (c : M A) (h : exn -> M A) : M A :=
  fun s => match c s with
           | (Returns a, s') => (Returns a, s')
           | (Raises e, s') => h e s'
           end.
Definition gets {A} (f : state -> A) : M A := fun s => (Returns (f s), s).
Definition modify (f : state -> state) : M unit := fun s => (Returns tt, f s).

End Runtime.

Declare Scope py_scope.
Delimit Scope py_scope with py.
Notation "x <- c ;; k" := (Runtime.bind c (fun x => k))
  (at level 100, c at next level, right associativity) : py_scope.
Notation "c ;; k" := (Runtime.bind c (fun _ => k))
  (at level 100, right associativity) : py_scope.

(* ===================================================================== *)
(** ** api.py and auth.py: rate limiter, HTTP layer, token life cycle *)
(* ===================================================================== *)

Module Api.
Import Runtime.
Local Open Scope py_scope.

(** [a < b] on clock values *)
Definition Qltb (a b : Q) : bool := negb (Qle_bool b a).

Definition BASE_URL : string := "https://open-api.chanjing.cc".

(** *** Field updates of [state] and [auth_state] *)

Definition set_now (t : Q) (s : state) : state :=
  {| now := t; token_file := token_file s; disk_writable := disk_writable s;
     disk_truncates := disk_truncates s;
     trace := trace s; _timestamps := _timestamps s; _auth := _auth s |}.
Definition set_token_file (f : cache_file) (s : state) : state :=
  {| now := now s; token_file := f; disk_writable := disk_writable s;
     disk_truncates := disk_truncates s;
     trace := trace s; _timestamps := _timestamps s; _auth := _auth s |}.
Definition set_trace (tr : list event) (s : state) : state :=
  {| now := now s; token_file := token_file s; disk_writable := disk_writable s;
     disk_truncates := disk_truncates s;
     trace := tr; _timestamps := _timestamps s; _auth := _auth s |}.
Definition set_timestamps (m : gmap string Q) (s : state) : state :=
  {| now := now s; token_file := token_file s; disk_writable := disk_writable s;
     disk_truncates := disk_truncates s;
     trace := trace s; _timestamps := m; _auth := _auth s |}.
Definition set_auth (a : auth_state) (s : state) : state :=
  {| now := now s; token_file := token_file s; disk_writable := disk_writable s;
     disk_truncates := disk_truncates s;
     trace := trace s; _timestamps := _timestamps s; _auth := a |}.

(** [self._token, self._token_expire, self._token_config_hash = t, e, h] *)
Definition with_token (t : option string) (e : Q) (h : option string)
    (a : auth_state) : auth_state :=
  {| _app_id := _app_id a; _secret_key := _secret_key a;
     _config_hash := _config_hash a;
     _token := t; _token_expire := e; _token_config_hash := h |}.

Definition set_headers (h : gmap string string) (kw : kwargs) : kwargs :=
  {| kw_headers := Some h; kw_json := kw_json kw; kw_params := kw_params kw;
     kw_timeout := kw_timeout kw |}.
Definition set_timeout (t : Z) (kw : kwargs) : kwargs :=
  {| kw_headers := kw_headers kw; kw_json := kw_json kw;
     kw_params := kw_params kw; kw_timeout := Some t |}.

Definition is_sent (e : event) : bool :=
  match e with Sent _ => true | _ => false end.
Definition is_slept (e : event) : bool :=
  match e with Slept _ => true | _ => false end.

(** [logger.<lvl>(fmt, ...)] *)
Definition log (lvl : level) (fmt : string) : M unit :=
  modify (fun s => set_trace (Logged lvl fmt :: trace s) s).

(** [time.time()] *)
Definition time_time : M Q := gets now.

Section WithEnvironment.

(** The platform: what the [n]-th HTTP exchange of the run answers. *)
Variable server : nat -> http_request -> reply.
(** By how much the [n]-th [time.sleep] oversleeps. *)
Variable oversleep : nat -> Q.

(** [time.sleep(d)]; a negative argument is a [ValueError]. *)
Definition time_sleep (d : Q) : M unit :=
  fun s =>
    if Qltb d 0 then (Raises SleepValueError, s)
    else
      let n := length (List.filter is_slept (trace s)) in
      (Returns tt,
       set_trace (Slept d :: trace s) (set_now (now s + d + oversleep n) s)).

(** [requests.request(method, url, **kwargs)] *)
Definition requests_request (rq : http_request) : M response :=
  fun s =>
    let n := length (List.filter is_sent (trace s)) in
    let r := server n rq in
    let s' := set_trace (Sent rq :: trace s) (set_now (now s + latency r) s) in
    match outcome r with
    | Responds resp => (Returns resp, s')
    | Throws e => (Raises e, s')
    end.

(** [response.raise_for_status()] *)
Definition raise_for_status (r : response) : M unit :=
  if ((400 <=? status_code r) && (status_code r <? 600))%Z
  then raise (ReqHTTPError (status_code r))
  else ret tt.

(** [response.json()] *)
Definition response_json (r : response) : M api_result :=
  match content r with
  | Json result => ret result
  | NotJson => raise (ReqOther IsOtherException "JSONDecodeError")
  end.

(** *** class RateLimiter *)

Definition INTERVALS : gmap string Q :=
  <["lip_sync" := 6%Q]> (<["voice_clone" := 6%Q]>
    (<["tts" := (1 # 2)%Q]> (<["default" := 1%Q]> ∅))).

(** [self.INTERVALS.get(category, self.INTERVALS["default"])] *)
Definition interval_of (category : string) : Q :=
  default (default 0%Q (INTERVALS !! "default")) (INTERVALS !! category).

Definition wait (category : string) (silent : bool) : M unit :=
  let interval := interval_of category in
  last_time <- gets (fun s => default 0%Q (_timestamps s !! category)) ;;
  t <- time_time ;;
  let elapsed := (t - last_time)%Q in
  (if Qltb elapsed interval then
     let wait_time := (interval - elapsed)%Q in
     (if negb silent then log DEBUG "频率控制(%s)：等待 %.1fs" else ret tt) ;;
     time_sleep wait_time
   else ret tt) ;;
  t' <- time_time ;;
  modify (fun s => set_timestamps (<[category := t']> (_timestamps s)) s).

(** *** ApiClient.request *)

(** One pass through the [try] body of the retry loop. *)
Definition attempt_once (method url : string) (kw : kwargs) : M response :=
  response <- requests_request
    {| rq_method := method; rq_url := url; rq_kwargs := kw |} ;;
  raise_for_status response ;;
  ret response.

(** The [for attempt in range(1, max_retries + 1)] loop followed by the
    final [raise ConnectionError]; [remaining] counts the iterations
    still to run. *)
Fixpoint request_loop (remaining : nat) (attempt : Z)
    (method url : string) (max_retries : Z) (retry_delay : Z)
    (kw : kwargs) (last_exception : option exn) : M response :=
  match remaining with
  | O => raise (RetriesExhausted max_retries last_exception)
  | S remaining' =>
      let kw := match kw_timeout kw with
                | None => set_timeout 30 kw
                | Some _ => kw
                end in
      try_except (attempt_once method url kw)
        (fun e =>
           match e with
           | ReqConnectionError _ =>
               (if (attempt <? max_retries)%Z then
                  log WARNING "网络连接失败，%ds后重试 (%d/%d)" ;;
                  time_sleep (inject_Z retry_delay)
                else ret tt) ;;
               request_loop remaining' (attempt + 1) method url
                 max_retries retry_delay kw (Some e)
           | ReqTimeout _ =>
               (if (attempt <? max_retries)%Z then
                  log WARNING "请求超时，%ds后重试 (%d/%d)" ;;
                  time_sleep (inject_Z retry_delay)
                else ret tt) ;;
               request_loop remaining' (attempt + 1) method url
                 max_retries retry_delay kw (Some e)
           | ReqHTTPError _ => raise e
           | _ => raise e
           end)
  end.

Definition request (method url : string) (max_retries retry_delay : Z)
    (rate_category : string) (silent_rate : bool) (kw : kwargs)
  : M response :=
  wait rate_category silent_rate ;;
  request_loop (Z.to_nat max_retries) 1 method url max_retries retry_delay
    kw None.

(** *** class AuthManager *)

(** [hashlib.md5(...).hexdigest()] is taken as given. *)
Variable md5_hex : string -> string.

Definition _compute_hash (app_id secret_key : string) : string :=
  md5_hex (app_id ++ ":" ++ secret_key).

(** [AuthManager.__init__] once the credentials are resolved. *)
Definition new_auth (app_id secret_key : string) : auth_state :=
  {| _app_id := app_id; _secret_key := secret_key;
     _config_hash := _compute_hash app_id secret_key;
     _token := None; _token_expire := 0; _token_config_hash := None |}.

Definition AuthManager_init (app_id secret_key : option string)
    (environ : gmap string string) (cfg : Credentials.config_file)
  : Credentials.cred_error + auth_state :=
  match Credentials._resolve_credentials app_id secret_key environ cfg with
  | inl err => inl err
  | inr (a, k) => inr (new_auth a k)
  end.

Definition update_auth (f : auth_state -> auth_state) : M unit :=
  modify (fun s => set_auth (f (_auth s)) s).

Definition _load_token_cache : M unit :=
  f <- gets token_file ;;
  match f with
  | FileAbsent => ret tt
  | FileData t e h => update_auth (with_token t e h)
  | FileBroken => update_auth (with_token None 0 None)
  end.

(** The [try] body either writes the whole file, or raises before the
    file is touched ([os.makedirs], [open]), or raises after
    [open(..., "w")] has truncated it, which leaves a text that
    [json.load] rejects. *)
Definition _save_token_cache : M unit :=
  w <- gets disk_writable ;;
  if w then
    modify (fun s =>
      set_token_file
        (FileData (_token (_auth s)) (_token_expire (_auth s))
                  (Some (_config_hash (_auth s)))) s)
  else
    emptied <- gets disk_truncates ;;
    (if emptied then modify (set_token_file FileBroken) else ret tt) ;;
    log WARNING "保存 token 缓存失败: %s".

(** [self._config_hash != self._token_config_hash] *)
Definition config_changed (a : auth_state) : bool :=
  match _token_config_hash a with
  | Some h => negb (String.eqb (_config_hash a) h)
  | None => true
  end.

Definition _config_changed : M bool := gets (fun s => config_changed (_auth s)).

(** The type of [api.json_request] as [AuthManager] sees it:
    method, url, rate_category, silent_rate, _retried_auth, kwargs. *)
Definition json_request_t : Type :=
  string -> string -> string -> bool -> bool -> kwargs -> M api_result.

Definition _refresh_token (api_json_request : json_request_t) : M unit :=
  log INFO "正在获取 AccessToken..." ;;
  a <- gets _auth ;;
  result <- api_json_request "POST" (BASE_URL ++ "/open/v1/access_token")
              "default" false true
              {| kw_headers := None;
                 kw_json := Some (<["app_id" := _app_id a]>
                                    (<["secret_key" := _secret_key a]> ∅));
                 kw_params := None; kw_timeout := None |} ;;
  let data := default ∅ (data result) in
  t <- time_time ;;
  update_auth (fun a => with_token (data !! "access_token")
                          (t + 24 * 3600)%Q (Some (_config_hash a)) a) ;;
  tok <- gets (fun s => _token (_auth s)) ;;
  if negb (Py.truthy_opt tok) then raise EmptyAccessToken
  else
    _save_token_cache ;;
    log INFO "AccessToken 获取成功并已缓存".

(** [self._token and now < self._token_expire - 300] *)
Definition usable (nw : Q) (a : auth_state) : bool :=
  Py.truthy_opt (_token a) && Qltb nw (_token_expire a - 300)%Q.

(** [return self._token] at a point where it is a non-empty [str]. *)
Definition return_token : M string :=
  gets (fun s => default "" (_token (_auth s))).

Definition get_token (api_json_request : json_request_t) : M string :=
  nw <- time_time ;;
  changed <- _config_changed ;;
  (if changed then update_auth (with_token None 0 None) else ret tt) ;;
  a <- gets _auth ;;
  if usable nw a then return_token
  else
    match _token a with
    | None =>
        _load_token_cache ;;
        a <- gets _auth ;;
        if usable nw a && negb (config_changed a) then
          log DEBUG "使用缓存的 AccessToken" ;;
          return_token
        else
          (if config_changed a then update_auth (with_token None 0 None)
           else ret tt) ;;
          _refresh_token api_json_request ;;
          return_token
    | Some _ =>
        _refresh_token api_json_request ;;
        return_token
    end.

Definition reset : M unit := update_auth (with_token None 0 None).

(** *** ApiClient.json_request *)

(** [code in (10400, 10401)] *)
Definition auth_expired (code : option Z) : bool :=
  match code with
  | Some c => (c =? 10400)%Z || (c =? 10401)%Z
  | None => false
  end.

(** The header rewrite before the retry. *)
Definition with_new_token (new_token : string) (kw : kwargs) : kwargs :=
  match kw_headers kw with
  | Some headers =>
      match headers !! "access_token" with
      | Some _ => set_headers (<["access_token" := new_token]> headers) kw
      | None => kw
      end
  | None => kw
  end.

(** [depth] is the number of Python frames still available to the
    recursion; running out of them is Python's [RecursionError]. *)
Fixpoint json_request (depth : nat) (method url : string)
    (rate_category : string) (silent_rate _retried_auth : bool)
    (kw : kwargs) : M api_result :=
  match depth with
  | O => raise RecursionError
  | S depth' =>
      response <- request method url 3 3 rate_category silent_rate kw ;;
      result <- response_json response ;;
      if bool_decide (code result = Some 0) then ret result
      else
        let msg := default "未知错误" (msg result) in
        if auth_expired (code result) && negb _retried_auth then
          log WARNING "AccessToken 已失效 (code=%d)，正在自动刷新..." ;;
          reset ;;
          new_token <- get_token (json_request depth') ;;
          json_request depth' method url rate_category silent_rate true
            (with_new_token new_token kw)
        else if auth_expired (code result) then
          raise (AuthRejected (default 0 (code result)) msg)
        else raise (ApiFailed (code result) msg)
  end.

End WithEnvironment.
End Api.

(* ===================================================================== *)
(** ** api.py: class UploadProgress *)
(* ===================================================================== *)

Module UploadProgress.

(** Python's index normalisation inside a slice of a sequence of
    length [len]. *)
Definition clamp_index (len i : Z) : Z :=
  if i <? 0 then Z.max (i + len) 0 else Z.min i len.

(** [l[lo:hi]] *)
Definition slice {A} (l : list A) (lo hi : Z) : list A :=
  let len := Z.of_nat (length l) in
  let lo' := clamp_index len lo in
  let hi' := clamp_index len hi in
  take (Z.to_nat (hi' - lo')) (drop (Z.to_nat lo') l).

(** [l[lo:]] *)
Definition slice_from {A} (l : list A) (lo : Z) : list A :=
  drop (Z.to_nat (clamp_index (Z.of_nat (length l)) lo)) l.

Record t := {
  _data : list Byte.byte;
  _total : Z;
  _pos : Z;
  _last_pct : Z;
  _on_progress : bool;          (* was a callback given? *)
}.

(** [UploadProgress(data, desc, on_progress)] *)
Definition init (data : list Byte.byte) (on_progress : bool) : t :=
  {| _data := data; _total := Z.of_nat (length data); _pos := 0;
     _last_pct := -20; _on_progress := on_progress |}.

Definition moved_to (pos : Z) (u : t) : t :=
  {| _data := _data u; _total := _total u; _pos := pos;
     _last_pct := _last_pct u; _on_progress := _on_progress u |}.
Definition reported (pct : Z) (u : t) : t :=
  {| _data := _data u; _total := _total u; _pos := _pos u;
     _last_pct := pct; _on_progress := _on_progress u |}.

(** A Python [float] (binary64) holding the integer [n], rounded to
    nearest, ties to even; exact below 2^53. *)
Definition binary64 (n : Z) : SpecFloat.spec_float :=
  SpecFloat.binary_normalize 53 1024 n 0 false.

(** [int(x)] of a finite float: truncation towards zero. *)
Definition int (x : SpecFloat.spec_float) : Z :=
  match x with
  | SpecFloat.S754_finite s m e =>
      let v := if 0 <=? e then Z.pos m * 2 ^ e else Z.pos m / 2 ^ (- e) in
      if s then - v else v
  | _ => 0
  end.

(** [int(pos / total * 100)] as the interpreter computes it for integers
    below 2^53: the quotient and then the product are each rounded to
    binary64. *)
Definition float_percent (pos total : Z) : Z :=
  int (SpecFloat.SFmul 53 1024
         (SpecFloat.SFdiv 53 1024 (binary64 pos) (binary64 total))
         (binary64 100)).

(** The same expression without rounding: truncation of the exact
    quotient towards zero.  It is not what the interpreter computes (it
    gives 29 where [float_percent] gives 28 at 29 of 100); it serves as a
    function with the two properties the theorems on [read] ask of the
    percentage, where a concrete one is needed. *)
Definition exact_percent (pos total : Z) : Z := Z.quot (pos * 100) total.

Section Read.

(** [int(self._pos / self._total * 100)] is a binary64 computation in
    the source; the model takes it as a function of the two integers. *)
Variable percent : Z -> Z -> Z.

(** [read(size)]: the chunk, the new object state, and the percentage
    handed to [on_progress] when this call invokes it.  [None] as
    [size] is Python's [None]. *)
Definition read (size : option Z) (u : t)
  : list Byte.byte * t * option Z :=
  if _total u <=? _pos u then ([], u, None)
  else
    let '(chunk, u1) :=
      match size with
      | None => (slice_from (_data u) (_pos u), moved_to (_total u) u)
      | Some sz =>
          if sz =? -1 then
            (slice_from (_data u) (_pos u), moved_to (_total u) u)
          else
            let end_ := Z.min (_pos u + sz) (_total u) in
            (slice (_data u) (_pos u) end_, moved_to end_ u)
      end in
    if 0 <? _total u1 then
      let pct := percent (_pos u1) (_total u1) in
      if (_last_pct u1 + 20 <=? pct) || (100 <=? pct) then
        (chunk, reported pct u1, if _on_progress u1 then Some pct else None)
      else (chunk, u1, None)
    else (chunk, u1, None).

(** A sequence of [read] calls; the result lists the callback
    invocations in the order they happen. *)
Fixpoint reads (sizes : list (option Z)) (u : t) : t * list Z :=
  match sizes with
  | [] => (u, [])
  | size :: sizes' =>
      let '(_, u', call) := read size u in
      let '(u'', calls) := reads sizes' u' in
      (u'', match call with Some p => p :: calls | None => calls end)
  end.

End Read.
End UploadProgress.

(* ===================================================================== *)
(** ** Polling loops: api.py (file status) and the three services *)
(* ===================================================================== *)

Module Polling.
Import Runtime.

(** *** api.py: billing keywords *)

Definition BILLING_KEYWORDS : list string :=
  [ "扣费失败"; "余额不足"; "蝉豆不足"; "蝉豆余额"; "欠费" ].

(** [check_billing_error(msg)]: [Some e] when it raises [e]. *)
Definition check_billing_error (msg : string) : option exn :=
  if negb (Py.truthy msg) then None
  else if Py.any_in BILLING_KEYWORDS msg then Some (BillingError msg)
  else None.

(** *** What a loop sees and does *)

(** What [self._api.json_request(...)] does in one iteration: it returns
    the parsed body (whose [code] is 0) or raises. *)
Inductive query (D : Type) :=
| Answers (data : D)
| Fails (e : exn).
Arguments Answers {D} data.
Arguments Fails {D} e.

(** One iteration's inputs: the value [time.time()] returns at the top of
    the iteration and the outcome of the status query. *)
Record tick (D : Type) := { clock : Q; answer : query D }.
Arguments clock {D} _.
Arguments answer {D} _.

(** What the loop does to the outside, in order. *)
Inductive effect :=
| Progress (stage : string) (percent : Z) (message : string)
| Sleep (seconds : Z)
| Log (lvl : level) (fmt : string).

(** How a run over the iterations seen so far stands. *)
Inductive run (R St : Type) :=
| Done (r : R)                  (* the loop returned [r] *)
| Raised (e : exn)              (* the loop raised [e] *)
| Polling (st : St).            (* still looping, with local variables [st] *)
Arguments Done {R St} r.
Arguments Raised {R St} e.
Arguments Polling {R St} st.

(** [effs] happen, then the run goes on as [r]. *)
Definition after {R St} (effs : list effect) (r : list effect * run R St)
  : list effect * run R St :=
  ((effs ++ fst r)%list, snd r).

(** The [while True] loop over the iterations listed in [script]: each
    iteration either leaves the loop or goes round with new locals. *)
Fixpoint drive {D R St} (step : tick D -> St -> list effect * run R St)
    (script : list (tick D)) (v : St) : list effect * run R St :=
  match script with
  | [] => ([], Polling v)
  | tk :: script' =>
      match step tk v with
      | (effs, Polling v') => after effs (drive step script' v')
      | stop => stop
      end
  end.

(** [on_progress(stage, pct, msg)] when a callback was given *)
Definition callback (on_progress : bool) (stage : string) (pct : Z)
    (message : string) : list effect :=
  if on_progress then [Progress stage pct message] else [].

(** [elapsed > max_wait] *)
Definition overdue (start clk : Q) (max_wait : Z) : bool :=
  Api.Qltb (inject_Z max_wait) (clk - start).

(** *** services/tts.py: TTSService._poll *)
Module TTS.

(** [result["data"]] of the task-state endpoint. *)
Record data := {
  status : option Z;            (* data["status"] *)
  errMsg : option string;
  errReason : option string;
  full_url : option string;     (* data["full"]["url"] *)
  full_duration : option Q;     (* data["full"]["duration"] *)
}.

Record vars := { poll_count : Z; consecutive_errors : Z }.

Definition estimate (poll_count : Z) : Z :=
  if poll_count <=? 6 then Z.min 90 (poll_count * 15)
  else Z.min 95 (90 + (poll_count - 6)).

(** The part of an iteration after a successful query. *)
Definition on_answer (on_progress : bool) (result : option data)
    (poll_count : Z)
  : list effect * run (string * Q) vars :=
  match result with
  | None => ([], Raised (KeyError "data"))
  | Some d =>
      match status d with
      | None => ([], Raised (KeyError "status"))
      | Some st =>
          if st =? 9 then
            let err_msg := default "" (errMsg d) in
            if Py.truthy err_msg then
              match check_billing_error err_msg with
              | Some e => ([], Raised e)
              | None =>
                  ([], Raised (TTSFailed err_msg (default "" (errReason d))))
              end
            else
              let audio_url := default "" (full_url d) in
              let duration := default 0%Q (full_duration d) in
              if negb (Py.truthy audio_url) then ([], Raised TTSNoAudioUrl)
              else ([Log INFO "语音合成完成！时长: %.1f秒"],
                    Done (audio_url, duration))
          else if st =? 1 then
            let poll_count := poll_count + 1 in
            let sleep_time := if poll_count <=? 10 then 3 else 5 in
            ((callback on_progress "语音合成" (estimate poll_count)
                "语音合成中..." ++ [Sleep sleep_time])%list,
             Polling {| poll_count := poll_count; consecutive_errors := 0 |})
          else
            ([Log WARNING "语音合成返回未知状态: %d"; Sleep 5],
             Polling {| poll_count := poll_count + 1;
                        consecutive_errors := 0 |})
      end
  end.

(** One iteration of the [while True] loop. *)
Definition step (start : Q) (max_wait : Z) (on_progress : bool)
    (tk : tick (option data)) (v : vars)
  : list effect * run (string * Q) vars :=
  if overdue start (clock tk) max_wait
  then ([], Raised (TTSTimeout (clock tk - start)%Q))
  else
    match answer tk with
    | Fails e =>
        let consecutive_errors := consecutive_errors v + 1 in
        if 5 <=? consecutive_errors then ([], Raised (TTSPollFailed e))
        else ([Sleep 5],
              Polling {| poll_count := poll_count v;
                         consecutive_errors := consecutive_errors |})
    | Answers result => on_answer on_progress result (poll_count v)
    end.

(** [_poll(task_id, access_token, on_progress, max_wait)] *)
Definition _poll (start : Q) (max_wait : Z) (on_progress : bool)
    (script : list (tick (option data)))
  : list effect * run (string * Q) vars :=
  after [Log INFO "等待语音合成完成..."]
    (drive (step start max_wait on_progress) script
       {| poll_count := 0; consecutive_errors := 0 |}).

(** [TTSResult] *)
Record TTSResult := { audio_url : string; task_id : string; duration : Q }.

(** [synthesize(voice_id, text, access_token, on_progress=...)];
    [create] is what the task-creation [json_request] does, giving
    [result["data"]["task_id"]] when both keys are there. *)
Definition synthesize (text : string) (on_progress : bool)
    (create : query (option (option string)))
    (start : Q) (script : list (tick (option data)))
  : list effect * run TTSResult vars :=
  if negb (Py.truthy text) || negb (Py.truthy (Py.strip text))
  then ([], Raised (TTSBadText "合成文案不能为空"))
  else if 4000 <? Py.len text
  then ([], Raised (TTSBadText "文案长度超过限制: %d/4000字"))
  else
    after (callback on_progress "语音合成" 0 "创建合成任务...")
      match create with
      | Fails e => ([], Raised e)
      | Answers None => ([], Raised (KeyError "data"))
      | Answers (Some None) => ([], Raised (KeyError "task_id"))
      | Answers (Some (Some id)) =>
          after [Log INFO "语音合成任务创建成功，task_id=%s"]
            match _poll start 600 on_progress script with
            | (effs, Done (url, dur)) =>
                ((effs ++ callback on_progress "语音合成" 100 "语音合成完成")%list,
                 Done {| audio_url := url; task_id := id; duration := dur |})
            | (effs, Raised e) => (effs, Raised e)
            | (effs, Polling v) => (effs, Polling v)
            end
      end.

End TTS.


(** *** services/voice_clone.py: VoiceCloneService._poll_clone *)
Module Clone.

Record data := {
  status : option Z;            (* data["status"] *)
  progress : option Z;          (* data.get("progress", 0) *)
  err_msg : option string;      (* data.get("err_msg", "未知错误") *)
}.

Record vars := { last_status : Z; last_pct : Z; consecutive_errors : Z }.

Definition on_answer (on_progress : bool) (result : option data) (v : vars)
  : list effect * run unit vars :=
  match result with
  | None => ([], Raised (KeyError "data"))
  | Some d =>
      match status d with
      | None => ([], Raised (KeyError "status"))
      | Some st =>
          let api_progress := default 0 (progress d) in
          if st =? 2 then
            ((callback on_progress "声音克隆" 100 "声音克隆完成"
                ++ [Log INFO "声音克隆完成！"])%list, Done tt)
          else if st =? 4 then
            let err_msg := default "未知错误" (err_msg d) in
            match check_billing_error err_msg with
            | Some e => ([], Raised e)
            | None => ([], Raised (CloneFailed err_msg))
            end
          else if st =? 3 then ([], Raised CloneExpired)
          else if st =? 99 then ([], Raised CloneDeleted)
          else if negb (st =? last_status v)
                  || negb (api_progress =? last_pct v) then
            let status_text := if st =? 0 then "等待制作" else "制作中" in
            (([Log INFO "声音克隆: %d%% - %s"]
               ++ callback on_progress "声音克隆" api_progress status_text
               ++ [Sleep 5])%list,
             Polling {| last_status := st; last_pct := api_progress;
                        consecutive_errors := 0 |})
          else
            ([Sleep 5],
             Polling {| last_status := last_status v;
                        last_pct := last_pct v; consecutive_errors := 0 |})
      end
  end.

Definition step (start : Q) (max_wait : Z) (on_progress : bool)
    (tk : tick (option data)) (v : vars)
  : list effect * run unit vars :=
  if overdue start (clock tk) max_wait
  then ([], Raised (CloneTimeout (clock tk - start)%Q))
  else
    match answer tk with
    | Fails e =>
        let consecutive_errors := consecutive_errors v + 1 in
        if 5 <=? consecutive_errors then ([], Raised (ClonePollFailed e))
        else ([Sleep 5],
              Polling {| last_status := last_status v;
                         last_pct := last_pct v;
                         consecutive_errors := consecutive_errors |})
    | Answers result => on_answer on_progress result v
    end.

(** [_poll_clone(voice_id, access_token, on_progress, max_wait)] *)
Definition _poll_clone (start : Q) (max_wait : Z) (on_progress : bool)
    (script : list (tick (option data)))
  : list effect * run unit vars :=
  after [Log INFO "等待声音克隆完成..."]
    (drive (step start max_wait on_progress) script
       {| last_status := -1; last_pct := -1; consecutive_errors := 0 |}).

End Clone.


(** *** services/lip_sync.py: LipSyncService._poll *)
Module LipSync.

(** [result.get("data", {})] of the detail endpoint. *)
Record data := {
  status : option Z;            (* data.get("status") *)
  progress : option Z;          (* data.get("progress", 0) *)
  msg : option string;          (* data.get("msg", "") *)
  video_url : option string;    (* data.get("video_url", "") *)
  duration : option Z;          (* data.get("duration", 0) *)
}.

Definition no_data : data :=
  {| status := None; progress := None; msg := None; video_url := None;
     duration := None |}.

Record vars := { last_progress : Z; last_status : option Z }.

(** [{0: ..., 10: ..., 20: ..., 30: ...}.get(status, f"未知({status})")] *)
Definition status_text (st : option Z) : string :=
  match st with
  | Some 0 => "排队中"
  | Some 10 => "生成中"
  | Some 20 => "成功"
  | Some 30 => "失败"
  | Some n => "未知(" ++ pretty n ++ ")"
  | None => "未知(None)"
  end.

Definition step (start : Q) (max_wait : Z) (on_progress : bool)
    (tk : tick (option data)) (v : vars)
  : list effect * run (string * Z) vars :=
  if overdue start (clock tk) max_wait then ([], Raised LipSyncTimeout)
  else
    match answer tk with
    | Fails e => ([], Raised e)           (* no [try] around the query *)
    | Answers result =>
        let d := default no_data result in
        let st := status d in
        let api_progress := default 0 (progress d) in
        let msg := default "" (msg d) in
        let changed :=
          negb (bool_decide (st = last_status v))
          || negb (api_progress =? last_progress v) in
        let report :=
          if changed then
            (Log INFO "视频合成: %d%% - %s"
               :: callback on_progress "视频合成" api_progress (status_text st))
          else [] in
        let v' :=
          if changed
          then {| last_progress := api_progress; last_status := st |}
          else v in
        if bool_decide (st = Some 20) then
          let video_url := default "" (video_url d) in
          if negb (Py.truthy video_url) then (report, Raised LipSyncNoVideoUrl)
          else
            ((report ++ [Log INFO "视频合成完成！时长: %.1f秒"])%list,
             Done (video_url, default 0 (duration d)))
        else if bool_decide (st = Some 30) then
          match check_billing_error msg with
          | Some e => (report, Raised e)
          | None => (report, Raised (LipSyncFailed msg))
          end
        else ((report ++ [Sleep 5])%list, Polling v')
    end.

(** [_poll(task_id, access_token, on_progress, max_wait)] *)
Definition _poll (start : Q) (max_wait : Z) (on_progress : bool)
    (script : list (tick (option data)))
  : list effect * run (string * Z) vars :=
  after [Log INFO "等待视频合成..."]
    (drive (step start max_wait on_progress) script
       {| last_progress := -1; last_status := Some (-1) |}).

End LipSync.

(** *** api.py: ApiClient._poll_file_status *)
Module FileStatus.

(** [detail.get("data", {}).get("status", 0)], [None] when absent. *)
Definition data := option Z.

Definition step (start : Q) (poll_interval max_wait : Z)
    (tk : tick data) (v : unit)
  : list effect * run unit unit :=
  if overdue start (clock tk) max_wait
  then ([], Raised (FileSyncTimeout (clock tk - start)%Q))
  else
    after [Sleep poll_interval]
      match answer tk with
      | Answers d =>
          let status := default 0 d in
          if status =? 1 then ([Log INFO "文件同步完成（耗时 %ds）"], Done tt)
          else if (status =? 98) || (status =? 99) || (status =? 100)
          then ([], Raised (FileUnavailable status))
          else ([], Polling tt)
      | Fails e =>
          match class_of e with
          | IsTimeoutError => ([], Raised e)      (* except TimeoutError: raise *)
          | IsRuntimeError => ([], Raised e)      (* except RuntimeError: raise *)
          | IsOtherException =>
              ([Log WARNING "查询文件状态失败: %s，继续等待..."], Polling tt)
          end
      end.

(** [_poll_file_status(file_id, access_token, poll_interval, max_wait)] *)
Definition _poll_file_status (start : Q) (poll_interval max_wait : Z)
    (script : list (tick data)) : list effect * run unit unit :=
  drive (step start poll_interval max_wait) script tt.

End FileStatus.
End Polling.

(* ===================================================================== *)
(** ** api.py: ApiClient.upload_file *)
(* ===================================================================== *)

Module Upload.
Import Runtime Polling.

(** [result.get("data", {})] of the upload-address request, by the keys
    the code reads; an absent key and a JSON null both read [None]. *)
Record ticket := {
  sign_url : option string;
  file_id : option string;
  full_path : option string;
  mime_type : option string;
}.

(** What one call of [upload_file] finds around it. *)
Record world := {
  file_exists : bool;                  (* os.path.exists(file_path) *)
  address : query ticket;              (* the create_upload_url request *)
  file_data : exn + list Byte.byte;    (* open(file_path, "rb").read() *)
  body_reads : list (option Z);        (* the [read(size)] calls made on
                                          the body while the PUT runs, over
                                          all its attempts *)
  put : exn + Z;                       (* the PUT raises, or answers with
                                          this status code *)
  sync_start : Q;                      (* time.time() in _poll_file_status *)
  sync : list (tick FileStatus.data);  (* what that loop observes *)
}.

(** The dictionary [upload_file] returns. *)
Record uploaded := { uploaded_file_id : option string; url : string }.

Section UploadFile.

(** [int(pos / total * 100)] as [UploadProgress.read] computes it. *)
Variable percent : Z -> Z -> Z.

(** The percentages [UploadProgress.read] reports while the body is
    read; each is logged, and handed to [on_progress] when there is one. *)
Definition reports (w : world) (data : list Byte.byte) : list Z :=
  (UploadProgress.reads percent (body_reads w)
     (UploadProgress.init data true)).2.

(** [upload_file(file_path, service, access_token, on_progress)];
    [on_progress] is given by what a call of it does. *)
Definition upload_file (w : world) (service : string)
    (on_progress : option (Z -> string -> list effect))
  : list effect * run uploaded unit :=
  if negb (file_exists w)
  then ([], Raised (FileNotFoundError "文件不存在: %s"))
  else
    let file_label := if Py.contains "video" service then "视频" else "音频" in
    after [Log INFO "开始上传%s: %s (%s)"]
      match address w with
      | Fails e => ([], Raised e)
      | Answers upload_data =>
          let file_url := default "" (full_path upload_data) in
          match file_data w with
          | inl e => ([], Raised e)
          | inr data =>
              let desc := "上传" ++ file_label in
              let report pct :=
                let msg := desc ++ ": " ++ pretty pct ++ "%" in
                Log INFO "%s (%s/%s)"
                  :: match on_progress with
                     | Some f => f pct msg
                     | None => []
                     end in
              after (flat_map report (reports w data))
                match put w with
                | inl e => ([], Raised e)
                | inr status_code =>
                    if negb (status_code =? 200)
                    then ([], Raised (UploadFailed status_code))
                    else
                      after [Log INFO "%s上传成功，file_id=%s"]
                        match FileStatus._poll_file_status (sync_start w) 3 90
                                (sync w) with
                        | (effs, Done _) =>
                            (effs,
                             Done {| uploaded_file_id := file_id upload_data;
                                     url := file_url |})
                        | (effs, Raised e) => (effs, Raised e)
                        | (effs, Polling _) => (effs, Polling tt)
                        end
                end
          end
      end.

End UploadFile.
End Upload.

(* ===================================================================== *)
(** ** services/lip_sync.py: LipSyncService.create *)
(* ===================================================================== *)

Module LipSyncService.
Import Runtime Polling.

(** The JSON body of the task creation. *)
Record task := {
  video_file_id : option string;
  audio_file_id : option string;
  model : Z;
  screen_width : Z;
  screen_height : Z;
  backway : Z;
  drive_mode : string;
}.

(** What [create] finds around it: the local files, the interpreter's
    [int(pos / total * 100)], and what the calls it makes on the
    [ApiClient] do. *)
Record env := {
  path_exists : string -> bool;                       (* os.path.exists *)
  get_video_dimensions : string -> option Z * option Z;
  percent : Z -> Z -> Z;
  upload : string -> string -> Upload.world;
                  (* what the upload of (path, service) finds *)
  create_task : task -> query (option string);
                  (* the task creation: result.get("data") *)
  start : Q;                                  (* time.time() in _poll *)
  script : list (tick (option LipSync.data)); (* what _poll observes *)
}.

(** [LipSyncResult] *)
Record LipSyncResult := {
  video_url : string;
  task_id : option string;
  duration_ms : Z;
}.

(** Where a call that has not ended yet stands. *)
Inductive pending :=
| UploadingVideo                 (* in the file-status loop of the video *)
| UploadingAudio                 (* in the file-status loop of the audio *)
| Synthesizing (v : LipSync.vars).

(** [not w] for a dimension *)
Definition no_dimension (x : option Z) : bool :=
  match x with
  | Some n => n =? 0
  | None => true
  end.

(** [create(video_path, audio_path, access_token, model=..., backway=...,
    drive_mode=..., on_progress=...)] *)
Definition create (E : env) (video_path audio_path model backway
    drive_mode : string) (on_progress : bool)
  : list effect * run LipSyncResult pending :=
  if negb (path_exists E video_path)
  then ([], Raised (FileNotFoundError "视频文件不存在: %s"))
  else if negb (path_exists E audio_path)
  then ([], Raised (FileNotFoundError "音频文件不存在: %s"))
  else
    let _progress := callback on_progress in
    let '(w0, h0) := get_video_dimensions E video_path in
    let undetected := no_dimension w0 || no_dimension h0 in
    let w := if undetected then 1080 else default 0 w0 in
    let h := if undetected then 1920 else default 0 h0 in
    let backway_value := if String.eqb backway "reverse" then 2 else 1 in
    let drive_mode_value :=
      if String.eqb drive_mode "random" then "random" else "" in
    let model_value := if String.eqb model "pro" then 1 else 0 in
    after (_progress "准备" 0 "检测视频参数..."
           ++ [Log INFO (if undetected
                         then "无法检测视频尺寸，使用默认值 %dx%d"
                         else "视频尺寸: %dx%d")]
           ++ _progress "上传视频" 0 "上传视频中...")%list
      match Upload.upload_file (percent E) (upload E video_path "lip_sync_video")
              "lip_sync_video" (Some (_progress "上传视频")) with
      | (effs, Raised e) => (effs, Raised e)
      | (effs, Polling _) => (effs, Polling UploadingVideo)
      | (effs, Done video_result) =>
          after (effs ++ _progress "上传音频" 0 "上传音频中...")%list
            match Upload.upload_file (percent E)
                    (upload E audio_path "lip_sync_audio")
                    "lip_sync_audio" (Some (_progress "上传音频")) with
            | (effs, Raised e) => (effs, Raised e)
            | (effs, Polling _) => (effs, Polling UploadingAudio)
            | (effs, Done audio_result) =>
                after (effs ++ _progress "视频合成" 0 "创建任务...")%list
                  match create_task E
                          {| video_file_id :=
                               Upload.uploaded_file_id video_result;
                             audio_file_id :=
                               Upload.uploaded_file_id audio_result;
                             model := model_value;
                             screen_width := w;
                             screen_height := h;
                             backway := backway_value;
                             drive_mode := drive_mode_value |} with
                  | Fails e => ([], Raised e)
                  | Answers task_id =>
                      after [Log INFO "对口型任务创建成功，task_id=%s"]
                        match LipSync._poll (start E) 1800 on_progress
                                (script E) with
                        | (effs, Raised e) => (effs, Raised e)
                        | (effs, Polling v) => (effs, Polling (Synthesizing v))
                        | (effs, Done (video_url, duration_ms)) =>
                            ((effs ++ _progress "完成" 100 "对口型任务完成")%list,
                             Done {| video_url := video_url;
                                     task_id := task_id;
                                     duration_ms := duration_ms |})
                        end
                  end
            end
      end.

End LipSyncService.

(* ===================================================================== *)
(** ** cache.py: class VoiceCloneCache *)
(* ===================================================================== *)

Module VoiceCloneCache.

(** A JSON value as the cache code can tell them apart.  [Null] is
    Python's [None]; of a value that is neither a string, a number nor
    null only the truth value is ever looked at. *)
Inductive value :=
| Null
| Str (s : string)
| Num (q : Q)
| Other (truthy : bool).          (* booleans, arrays, nested objects *)

(** What is stored under a cache key: a JSON object, or something else. *)
Inductive entry :=
| Obj (members : gmap string value)
| NotObj (v : value).

(** What [<cache_dir>/voice_clone.json] looks like to [_load].  A file
    whose JSON text is an array, a string, a number or a boolean is outside
    the model. *)
Inductive file :=
| Absent                          (* os.path.exists(...) is False *)
| Unreadable                      (* open or json.load raises *)
| HoldsNull                       (* the JSON text is null *)
| Holds (m : gmap string entry).  (* a JSON object *)

Inductive error :=
| AssertionError                  (* assert self._cache is not None *)
| AttributeError.                 (* entry.get on something that has no get *)

(** The instance together with the file it persists to. *)
Record t := {
  on_disk : file;                 (* contents of self._cache_file *)
  writable : bool;                (* does (re)writing the file succeed? *)
  truncates : bool;               (* when it fails: only after open(..., "w")
                                     has emptied the file? *)
  _cache : option (gmap string entry);   (* self._cache *)
  warnings : list string;         (* logger.warning calls, latest first *)
}.

(** [VoiceCloneCache(cache_dir)] over the file as it is found. *)
Definition init (f : file) (w tr : bool) : t :=
  {| on_disk := f; writable := w; truncates := tr; _cache := None;
     warnings := [] |}.

Definition set_cache (m : option (gmap string entry)) (c : t) : t :=
  {| on_disk := on_disk c; writable := writable c; truncates := truncates c;
     _cache := m; warnings := warnings c |}.
Definition set_disk (f : file) (c : t) : t :=
  {| on_disk := f; writable := writable c; truncates := truncates c;
     _cache := _cache c; warnings := warnings c |}.
Definition warn (fmt : string) (c : t) : t :=
  {| on_disk := on_disk c; writable := writable c; truncates := truncates c;
     _cache := _cache c; warnings := fmt :: warnings c |}.

(** [bool(v)] *)
Definition truthy_value (v : value) : bool :=
  match v with
  | Null => false
  | Str s => Py.truthy s
  | Num q => negb (Qeq_bool q 0)
  | Other b => b
  end.

(** [bool(entry)]: an empty [dict] is falsy. *)
Definition truthy_entry (e : entry) : bool :=
  match e with
  | Obj members => negb (bool_decide (members = ∅))
  | NotObj v => truthy_value v
  end.

Definition _load (c : t) : t :=
  match _cache c with
  | Some _ => c
  | None =>
      match on_disk c with
      | Holds m => set_cache (Some m) c
      | HoldsNull => set_cache None c          (* json.load gives None *)
      | Absent => set_cache (Some ∅) c
      | Unreadable => set_cache (Some ∅) c     (* except Exception *)
      end
  end.

(** [json.dump(self._cache, f)]: what the file holds afterwards. *)
Definition dumped (m : option (gmap string entry)) : file :=
  match m with
  | Some m => Holds m
  | None => HoldsNull
  end.

(** The [try] body either writes the whole file, or raises before the
    file is touched ([os.makedirs], [open]), or raises after
    [open(..., "w")] has truncated it, which leaves a text that
    [json.load] rejects. *)
Definition _save (c : t) : t :=
  if writable c then set_disk (dumped (_cache c)) c
  else
    warn "保存声音克隆缓存失败: %s"
      (if truncates c then set_disk Unreadable c else c).

Definition _make_key (file_hash model_type : string) : string :=
  file_hash ++ "_" ++ model_type.

(** [get(file_hash, model_type)]; the value returned is [Null] for
    Python's [None]. *)
Definition get (file_hash model_type : string) (c : t) : (error + value) * t :=
  let c := _load c in
  match _cache c with
  | None => (inl AssertionError, c)
  | Some m =>
      let key := _make_key file_hash model_type in
      match m !! key with
      | None => (inr Null, c)
      | Some e =>
          if truthy_entry e then
            match e with
            | Obj members => (inr (default Null (members !! "voice_id")), c)
            | NotObj _ => (inl AttributeError, c)
            end
          else (inr Null, c)
      end
  end.

(** The entry written by [put]; [created_at] is [time.time()]. *)
Definition new_entry (model_type voice_id : string) (created_at : Q) : entry :=
  Obj (<["voice_id" := Str voice_id]>
         (<["model_type" := Str model_type]>
            (<["created_at" := Num created_at]> ∅))).

Definition put (file_hash model_type voice_id : string) (created_at : Q)
    (c : t) : (error + unit) * t :=
  let c := _load c in
  match _cache c with
  | None => (inl AssertionError, c)
  | Some m =>
      let key := _make_key file_hash model_type in
      (inr tt,
       _save (set_cache (Some (<[key := new_entry model_type voice_id
                                          created_at]> m)) c))
  end.

Definition remove (file_hash model_type : string) (c : t)
  : (error + unit) * t :=
  let c := _load c in
  match _cache c with
  | None => (inl AssertionError, c)
  | Some m =>
      let key := _make_key file_hash model_type in
      if bool_decide (is_Some (m !! key))
      then (inr tt, _save (set_cache (Some (delete key m)) c))
      else (inr tt, c)
  end.

End VoiceCloneCache.

(* ===================================================================== *)
(** ** utils.py: infer_extension_from_url *)
(* ===================================================================== *)

Module Utils.

(** [url.split("?")[0]]: the text before the first question mark. *)
Fixpoint before_query (url : string) : string :=
  match url with
  | EmptyString => EmptyString
  | String c url' =>
      if Ascii.eqb c "?" then EmptyString else String c (before_query url')
  end.

(** [str.lower()] on one character of the ASCII range.  Outside ASCII the
    text is left as it is: the only characters whose lower case contains
    an ASCII letter are U+212A (k) and U+0130 (i), and neither letter
    occurs in the extensions tested below, so the tests come out as in
    Python. *)
Definition lower_char (c : ascii) : ascii :=
  let n := nat_of_ascii c in
  if ((65 <=? n)%nat && (n <=? 90)%nat) then ascii_of_nat (n + 32) else c.

Fixpoint lower (s : string) : string :=
  match s with
  | EmptyString => EmptyString
  | String c s' => String (lower_char c) (lower s')
  end.

(** [s.endswith(suffix)] *)
Fixpoint endswith (suffix s : string) : bool :=
  String.eqb suffix s ||
  match s with
  | EmptyString => false
  | String _ s' => endswith suffix s'
  end.

Definition EXTENSIONS : list string :=
  [ ".mp3"; ".wav"; ".m4a"; ".ogg"; ".flac"; ".mp4" ].

(** The [for ext in (...)] loop with its [return]. *)
Fixpoint first_match (url_path : string) (exts : list string)
  : option string :=
  match exts with
  | [] => None
  | ext :: exts' =>
      if endswith ext (lower url_path) then Some ext
      else first_match url_path exts'
  end.

Definition infer_extension_from_url (url default : string) : string :=
  let url_path := before_query url in
  match first_match url_path EXTENSIONS with
  | Some ext => ext
  | None => default
  end.

End Utils.

(* ===================================================================== *)
(** ** services/voice_clone.py: VoiceCloneService.clone *)
(* ===================================================================== *)

Module VoiceClone.
Import Runtime Polling.

(** What [clone] finds around it: the local files, as the helpers of
    utils.py see them, the interpreter's [int(pos / total * 100)], and
    what the calls it makes on the [ApiClient] do. *)
Record env := {
  path_exists : string -> bool;               (* os.path.exists *)
  get_audio_duration : string -> option Q;
  trim_audio : string -> option string;       (* trim_audio(path, 299) *)
  file_content_hash : string -> string;
  validate : VoiceCloneCache.value -> query (option (option Z));
                  (* the json_request of _validate_voice: data.status *)
  percent : Z -> Z -> Z;
  upload : string -> Upload.world;            (* what the upload of a path finds *)
  create : string -> string -> query (option string);
                  (* the task creation for (url, model): result["data"] *)
  start : Q;                                  (* time.time() in _poll_clone *)
  script : list (tick (option Clone.data));   (* what _poll_clone observes *)
  put_time : Q;                               (* time.time() in cache.put *)
}.

Inductive error :=
| FileNotFound                    (* FileNotFoundError, voice_clone.py:51 *)
| TooShort (duration : Q)         (* ValueError, voice_clone.py:62 *)
| TooLong (duration : Q)          (* ValueError, voice_clone.py:73 *)
| NoPublicUrl                     (* RuntimeError, voice_clone.py:104 *)
| CacheFailed (e : VoiceCloneCache.error)     (* raised inside the cache *)
| ApiRaised (e : exn).            (* raised by the ApiClient or the poll *)

Inductive outcome :=
| Returned (voice_id : VoiceCloneCache.value)
| Failed (e : error)
| Syncing                         (* the upload's file-status loop has not
                                    ended yet *)
| Waiting (v : Clone.vars).       (* the poll has not ended yet *)

(** [self._api.upload_file(audio_path, "prompt_audio", access_token,
    on_progress=_on_upload)] *)
Definition upload_file (E : env) (audio_path : string) (on_progress : bool)
  : list effect * run Upload.uploaded unit :=
  Upload.upload_file (percent E) (upload E audio_path) "prompt_audio"
    (Some (callback on_progress "上传音频")).

(** [_validate_voice]: the status query answered with status 2; any
    exception, and any answer without that status, gives [False]. *)
Definition _validate_voice (E : env) (voice_id : VoiceCloneCache.value)
  : bool :=
  match validate E voice_id with
  | Answers (Some (Some st)) => st =? 2
  | _ => false
  end.

(** The duration check: the log lines, and the path to go on with or the
    error. *)
Definition check_duration (E : env) (audio_path : string)
  : list effect * (error + string) :=
  match get_audio_duration E audio_path with
  | None => ([], inr audio_path)
  | Some duration =>
      let l1 := [Log INFO "参考音频时长: %s"] in
      if Api.Qltb duration 15 then (l1, inl (TooShort duration))
      else if Api.Qltb 300 duration then
        let l2 := (l1 ++ [Log INFO "音频时长超过5分钟，尝试自动裁剪..."])%list in
        match trim_audio E audio_path with
        | Some trimmed =>
            if Py.truthy trimmed
            then ((l2 ++ [Log INFO "已自动裁剪到 4:59"])%list, inr trimmed)
            else (l2, inl (TooLong duration))
        | None => (l2, inl (TooLong duration))
        end
      else (l1, inr audio_path)
  end.

(** From the upload on: upload, task creation, poll, cache write. *)
Definition clone_fresh (E : env) (audio_path audio_hash model : string)
    (use_cache on_progress : bool) (cache : VoiceCloneCache.t)
  : list effect * outcome * VoiceCloneCache.t :=
  let e0 := callback on_progress "上传音频" 0 "上传参考音频..." in
  match upload_file E audio_path on_progress with
  | (effs, Raised e) => ((e0 ++ effs)%list, Failed (ApiRaised e), cache)
  | (effs, Polling _) => ((e0 ++ effs)%list, Syncing, cache)
  | (effs, Done upload_result) =>
      let e1 := (e0 ++ effs)%list in
      let audio_public_url := Upload.url upload_result in
      if negb (Py.truthy audio_public_url) then (e1, Failed NoPublicUrl, cache)
      else
        let e2 := (e1 ++ callback on_progress "声音克隆" 0 "创建克隆任务...")%list in
        match create E audio_public_url model with
        | Fails e => (e2, Failed (ApiRaised e), cache)
        | Answers None => (e2, Failed (ApiRaised (KeyError "data")), cache)
        | Answers (Some voice_id) =>
            let e3 := (e2 ++ [Log INFO "声音克隆任务创建成功，voice_id=%s"])%list in
            match Clone._poll_clone (start E) 600 on_progress (script E) with
            | (effs, Raised e) => ((e3 ++ effs)%list, Failed (ApiRaised e), cache)
            | (effs, Polling v) => ((e3 ++ effs)%list, Waiting v, cache)
            | (effs, Done _) =>
                let e4 := (e3 ++ effs)%list in
                if use_cache then
                  match VoiceCloneCache.put audio_hash model voice_id
                          (put_time E) cache with
                  | (inl e, cache') => (e4, Failed (CacheFailed e), cache')
                  | (inr _, cache') =>
                      ((e4 ++ [Log INFO "声音克隆结果已缓存"])%list,
                       Returned (VoiceCloneCache.Str voice_id), cache')
                  end
                else (e4, Returned (VoiceCloneCache.Str voice_id), cache)
            end
        end
  end.

(** [clone(audio_path, access_token, model=..., use_cache=...,
    on_progress=...)] on the cache instance [cache]. *)
Definition clone (E : env) (audio_path model : string)
    (use_cache on_progress : bool) (cache : VoiceCloneCache.t)
  : list effect * outcome * VoiceCloneCache.t :=
  if negb (path_exists E audio_path) then ([], Failed FileNotFound, cache)
  else
    match check_duration E audio_path with
    | (l, inl err) => (l, Failed err, cache)
    | (l, inr audio_path) =>
        let audio_hash := file_content_hash E audio_path in
        let fresh cache :=
          let '(effs, r, cache') :=
            clone_fresh E audio_path audio_hash model use_cache on_progress
              cache in
          ((l ++ effs)%list, r, cache') in
        if use_cache then
          match VoiceCloneCache.get audio_hash model cache with
          | (inl e, cache1) => (l, Failed (CacheFailed e), cache1)
          | (inr cached_id, cache1) =>
              if VoiceCloneCache.truthy_value cached_id then
                let l1 := (l ++ [Log INFO "命中声音克隆缓存，voice_id=%s"])%list in
                if _validate_voice E cached_id then
                  ((l1 ++ callback on_progress "声音克隆" 100 "缓存命中")%list,
                   Returned cached_id, cache1)
                else
                  let l2 := (l1 ++ [Log INFO "缓存的声音已失效，重新克隆"])%list in
                  match VoiceCloneCache.remove audio_hash model cache1 with
                  | (inl e, cache2) => (l2, Failed (CacheFailed e), cache2)
                  | (inr _, cache2) =>
                      let '(effs, r, cache') :=
                        clone_fresh E audio_path audio_hash model use_cache
                          on_progress cache2 in
                      ((l2 ++ effs)%list, r, cache')
                  end
              else fresh cache1
          end
        else fresh cache
    end.

End VoiceClone.

(* ===================================================================== *)
(** * Properties *)
(* ===================================================================== *)

(** ** Python primitives *)

Lemma truthy_nonempty (s : string) : Py.truthy s = true <-> s <> "".
Proof. destruct s; simpl; split; congruence. Qed.

Lemma truthy_false_empty (s : string) : Py.truthy s = false <-> s = "".
Proof. destruct s; simpl; split; congruence. Qed.

(** *** Whitespace and [strip] *)

Lemma append_nil_l (s : string) : ("" ++ s)%string = s.
Proof. reflexivity. Qed.

Lemma append_cons (a : ascii) (s t : string) :
  (String a s ++ t)%string = String a (s ++ t)%string.
Proof. reflexivity. Qed.

Lemma append_assoc (a b c : string) :
  ((a ++ b) ++ c)%string = (a ++ (b ++ c))%string.
Proof.
  induction a as [|x a IH]; [reflexivity|].
  rewrite !append_cons. now rewrite IH.
Qed.

Lemma length_append (a b : string) :
  String.length (a ++ b) = (String.length a + String.length b)%nat.
Proof.
  induction a as [|x a IH]; [reflexivity|].
  rewrite append_cons. simpl. now rewrite IH.
Qed.

Lemma drop_prefix_app p s : Py.drop_prefix p (p ++ s) = Some s.
Proof.
  induction p as [|c p IH]; [reflexivity|].
  rewrite append_cons. simpl. now rewrite Ascii.eqb_refl.
Qed.

Lemma drop_prefix_some p : forall s r, Py.drop_prefix p s = Some r -> s = p ++ r.
Proof.
  induction p as [|c p IH]; intros s r H.
  - now injection H as ->.
  - destruct s as [|d s]; [discriminate|]. simpl in H.
    destruct (Ascii.eqb_spec c d) as [->|]; [|discriminate].
    rewrite append_cons. now rewrite (IH s r H).
Qed.

Lemma drop_any_some ps s r :
  Py.drop_any ps s = Some r -> exists p, In p ps /\ s = p ++ r.
Proof.
  induction ps as [|p ps IH]; [discriminate|]. simpl.
  destruct (Py.drop_prefix p s) as [r'|] eqn:E.
  - intros [= <-]. exists p. split; [now left|now apply drop_prefix_some].
  - intros H. destruct (IH H) as (q & Hq & ->). exists q. split; [now right|reflexivity].
Qed.

Lemma drop_any_none ps s :
  Py.drop_any ps s = None -> forall p r, In p ps -> s <> p ++ r.
Proof.
  induction ps as [|q ps IH]; [intros _ p r []|]. simpl.
  destruct (Py.drop_prefix q s) as [r'|] eqn:E; [discriminate|].
  intros H p r [<-|Hin] ->.
  - rewrite drop_prefix_app in E. discriminate E.
  - exact (IH H p r Hin eq_refl).
Qed.

Lemma isspace_whitespace (cp : Z) :
  Py.isspace cp = true -> In (Py.utf8 cp) Py.whitespace.
Proof.
  unfold Py.isspace. intros H%bool_decide_eq_true_1.
  apply list_elem_of_In in H. unfold Py.whitespace. now apply in_map.
Qed.

Lemma whitespace_isspace (w : string) :
  In w Py.whitespace -> exists cp, Py.isspace cp = true /\ w = Py.utf8 cp.
Proof.
  unfold Py.whitespace. intros (cp & <- & Hin)%in_map_iff.
  exists cp. split; [|reflexivity].
  apply bool_decide_eq_true_2. now apply list_elem_of_In.
Qed.

(** No whitespace character is empty, and none starts another one: a text
    that starts with one starts with that one only. *)
Lemma drop_space_utf8 (cp : Z) (s : string) :
  Py.isspace cp = true -> Py.drop_space (Py.utf8 cp ++ s) = Some s.
Proof.
  unfold Py.isspace. intros H%bool_decide_eq_true_1.
  apply list_elem_of_In in H. unfold Py.space_points in H.
  repeat (destruct H as [<-|H]; [vm_compute; reflexivity|]).
  destruct H.
Qed.

Lemma drop_space_empty : Py.drop_space "" = None.
Proof. vm_compute. reflexivity. Qed.

Lemma whitespace_nonempty w : In w Py.whitespace -> w <> "".
Proof.
  intros Hin ->. revert Hin. vm_compute.
  intros H. repeat (destruct H as [H|H]; [discriminate H|]). exact H.
Qed.

Lemma drop_space_shorter s r :
  Py.drop_space s = Some r -> (String.length r < String.length s)%nat.
Proof.
  intros H. destruct (drop_any_some _ _ _ H) as (w & Hw & ->).
  rewrite length_append. pose proof (whitespace_nonempty w Hw) as Hne.
  destruct w; [congruence|simpl; lia].
Qed.

(** More fuel than the length of the text changes nothing. *)
Lemma lstrip_upto_enough n : forall m s,
  (String.length s <= n)%nat -> (String.length s <= m)%nat ->
  Py.lstrip_upto n s = Py.lstrip_upto m s.
Proof.
  induction n as [|n IH]; intros m s Hn Hm.
  - destruct s; [|simpl in Hn; lia].
    destruct m; [reflexivity|]. cbn [Py.lstrip_upto]. now rewrite drop_space_empty.
  - destruct m as [|m].
    + destruct s; [|simpl in Hm; lia]. cbn [Py.lstrip_upto]. now rewrite drop_space_empty.
    + cbn [Py.lstrip_upto]. destruct (Py.drop_space s) as [r|] eqn:E; [|reflexivity].
      apply drop_space_shorter in E. apply IH; lia.
Qed.

Lemma lstrip_step s :
  Py.lstrip s = match Py.drop_space s with
                | Some r => Py.lstrip r
                | None => s
                end.
Proof.
  unfold Py.lstrip. destruct s as [|c s].
  - now rewrite drop_space_empty.
  - cbn [String.length Py.lstrip_upto].
    destruct (Py.drop_space (String c s)) as [r|] eqn:E; [|reflexivity].
    apply drop_space_shorter in E. simpl in E.
    apply lstrip_upto_enough; lia.
Qed.

Lemma lstrip_space cp s :
  Py.isspace cp = true -> Py.lstrip (Py.utf8 cp ++ s) = Py.lstrip s.
Proof. intros H. now rewrite lstrip_step, (drop_space_utf8 cp s H). Qed.

Lemma lstrip_no_space s : Py.drop_space s = None -> Py.lstrip s = s.
Proof. intros H. now rewrite lstrip_step, H. Qed.

(** What [lstrip] returns does not start with a whitespace character. *)
Lemma drop_space_lstrip s : Py.drop_space (Py.lstrip s) = None.
Proof.
  remember (String.length s) as n eqn:Hn.
  revert s Hn. induction n as [n IH] using lt_wf_ind. intros s ->.
  rewrite lstrip_step. destruct (Py.drop_space s) as [r|] eqn:E; [|exact E].
  apply (IH (String.length r)); [now apply drop_space_shorter|reflexivity].
Qed.

(** [s] consists of whitespace characters only (it may be empty). *)
Definition whitespace_only (s : string) : Prop :=
  exists cps, Forall (fun cp => Py.isspace cp = true) cps /\ s = Py.text cps.

Lemma lstrip_text_spaces cps :
  Forall (fun cp => Py.isspace cp = true) cps -> Py.lstrip (Py.text cps) = "".
Proof.
  induction 1 as [|cp cps Hcp _ IH]; [reflexivity|].
  cbn [Py.text]. now rewrite lstrip_space.
Qed.

Lemma lstrip_empty_inv s : Py.lstrip s = "" -> whitespace_only s.
Proof.
  remember (String.length s) as n eqn:Hn.
  revert s Hn. induction n as [n IH] using lt_wf_ind. intros s -> H.
  rewrite lstrip_step in H.
  destruct (Py.drop_space s) as [r|] eqn:E.
  - destruct (IH (String.length r) (drop_space_shorter _ _ E) r eq_refl H)
      as (cps & Hall & ->).
    destruct (drop_any_some _ _ _ E) as (w & Hw & ->).
    destruct (whitespace_isspace w Hw) as (cp & Hcp & ->).
    exists (cp :: cps). split; [now constructor|reflexivity].
  - subst s. exists []. split; [constructor|reflexivity].
Qed.

Lemma lstrip_empty_iff s : Py.lstrip s = "" <-> whitespace_only s.
Proof.
  split; [apply lstrip_empty_inv|].
  intros (cps & Hall & ->). now apply lstrip_text_spaces.
Qed.

Lemma rstrip_empty_iff s : Py.rstrip s = "" <-> Py.lstrip s = "".
Proof.
  destruct s as [|c s]; [split; reflexivity|]. cbn [Py.rstrip].
  destruct (Py.truthy (Py.lstrip (String c s))) eqn:E.
  - apply truthy_nonempty in E. split; [discriminate|contradiction].
  - apply truthy_false_empty in E. split; auto.
Qed.

Lemma lstrip_idempotent s : Py.lstrip (Py.lstrip s) = Py.lstrip s.
Proof. apply lstrip_no_space, drop_space_lstrip. Qed.

(** [strip] gives the empty text exactly on the texts that consist of
    whitespace only. *)
Lemma strip_empty_iff s : Py.strip s = "" <-> whitespace_only s.
Proof.
  unfold Py.strip.
  now rewrite rstrip_empty_iff, lstrip_idempotent, lstrip_empty_iff.
Qed.

(** [rstrip] cuts a text in two: what it returns, and whitespace. *)
Lemma rstrip_split s : exists t, s = Py.rstrip s ++ t /\ Py.lstrip t = "".
Proof.
  induction s as [|c s (t & Hs & Ht)]; [now exists ""|].
  cbn [Py.rstrip].
  destruct (Py.truthy (Py.lstrip (String c s))) eqn:E.
  - exists t. split; [|exact Ht]. rewrite append_cons. now rewrite <- Hs.
  - apply truthy_false_empty in E. now exists (String c s).
Qed.

(** What [rstrip] returns does not end with a whitespace character. *)
Lemma rstrip_no_space_suffix s cp r :
  Py.isspace cp = true -> Py.rstrip s <> r ++ Py.utf8 cp.
Proof.
  intros Hcp. revert r. induction s as [|c s IH]; intros r.
  - simpl. intros H. symmetry in H.
    assert (Hlen : String.length (r ++ Py.utf8 cp) = 0%nat) by now rewrite H.
    rewrite length_append in Hlen.
    pose proof (whitespace_nonempty _ (isspace_whitespace cp Hcp)) as Hne.
    destruct (Py.utf8 cp); [congruence|simpl in Hlen; lia].
  - cbn [Py.rstrip].
    destruct (Py.truthy (Py.lstrip (String c s))) eqn:E.
    + destruct r as [|d r].
      * rewrite append_nil_l. intros H.
        destruct (rstrip_split s) as (t & Hs & Ht).
        assert (Hall : String c s = Py.utf8 cp ++ t).
        { rewrite <- H, append_cons. now rewrite <- Hs. }
        rewrite Hall, lstrip_space, Ht in E by exact Hcp. discriminate E.
      * rewrite append_cons. intros [= -> H]. exact (IH r H).
    + intros H. symmetry in H.
      assert (Hlen : String.length (r ++ Py.utf8 cp) = 0%nat) by now rewrite H.
      rewrite length_append in Hlen.
      pose proof (whitespace_nonempty _ (isspace_whitespace cp Hcp)) as Hne.
      destruct (Py.utf8 cp); [congruence|simpl in Hlen; lia].
Qed.

(** [s] neither starts nor ends with a whitespace character. *)
Definition trimmed (s : string) : Prop :=
  forall cp r, Py.isspace cp = true ->
    s <> Py.utf8 cp ++ r /\ s <> r ++ Py.utf8 cp.

Lemma strip_trimmed s : trimmed (Py.strip s).
Proof.
  intros cp r Hcp. unfold Py.strip. split.
  - intros H. destruct (rstrip_split (Py.lstrip s)) as (t & Hs & _).
    rewrite H, append_assoc in Hs.
    pose proof (drop_space_lstrip s) as Hnone. rewrite Hs in Hnone.
    now rewrite (drop_space_utf8 cp _ Hcp) in Hnone.
  - now apply rstrip_no_space_suffix.
Qed.

(** ** Credential resolution (auth.py) *)

Section CredentialResolution.
Import Credentials.

Variables (app_id secret_key : option string).
Variable environ : gmap string string.
Variable cfg : config_file.

(** Both constructor arguments are given and non-empty. *)
Definition explicit_given : Prop :=
  exists a k, app_id = Some a /\ secret_key = Some k /\ a <> "" /\ k <> "".

(** The two environment variables, trimmed (unset counts as empty). *)
Definition env_app_id : string :=
  Py.strip (default "" (environ !! "CHANJING_APP_ID")).
Definition env_secret : string :=
  Py.strip (default "" (environ !! "CHANJING_SECRET_KEY")).

Definition env_given : Prop := env_app_id <> "" /\ env_secret <> "".

(** The configuration file is a JSON object whose two fields are strings
    that are non-empty after trimming. *)
Definition config_given (fa fk : string) : Prop :=
  exists o, cfg = CfgObject o
    /\ o !! "app_id" = Some (JStr fa) /\ o !! "secret_key" = Some (JStr fk)
    /\ Py.strip fa <> "" /\ Py.strip fk <> "".

Lemma from_args_given a k :
  app_id = Some a -> secret_key = Some k -> a <> "" -> k <> "" ->
  from_args app_id secret_key = Some (Py.strip a, Py.strip k).
Proof.
  intros -> -> Ha Hk. unfold from_args.
  apply truthy_nonempty in Ha, Hk. now rewrite Ha, Hk.
Qed.

Lemma from_args_not_given :
  ~ explicit_given -> from_args app_id secret_key = None.
Proof.
  intros Hn. unfold from_args.
  destruct app_id as [a|] eqn:Ea, secret_key as [k|] eqn:Ek; try reflexivity.
  destruct (Py.truthy a) eqn:Ha, (Py.truthy k) eqn:Hk; try reflexivity.
  exfalso. apply Hn. exists a, k.
  repeat split; try assumption; now apply truthy_nonempty.
Qed.

Lemma from_env_given :
  env_given -> from_env environ = Some (env_app_id, env_secret).
Proof.
  intros [Ha Hk]. unfold from_env, env_get.
  apply truthy_nonempty in Ha, Hk.
  unfold env_app_id, env_secret in Ha, Hk. now rewrite Ha, Hk.
Qed.

Lemma from_env_not_given : ~ env_given -> from_env environ = None.
Proof.
  intros Hn. unfold from_env, env_get.
  destruct (Py.truthy _) eqn:Ha; [|reflexivity].
  destruct (Py.truthy (Py.strip (default "" (environ !! "CHANJING_SECRET_KEY"))))
    eqn:Hk; [|reflexivity].
  exfalso. apply Hn. split; now apply truthy_nonempty.
Qed.

Lemma from_config_given fa fk :
  config_given fa fk -> from_config cfg = Some (Py.strip fa, Py.strip fk).
Proof.
  intros (o & -> & Ha & Hk & Hfa & Hfk). unfold from_config, cfg_get.
  rewrite Ha, Hk. simpl.
  apply truthy_nonempty in Hfa, Hfk. now rewrite Hfa, Hfk.
Qed.

Lemma from_config_not_given :
  (forall fa fk, ~ config_given fa fk) -> from_config cfg = None.
Proof.
  intros Hn. unfold from_config, cfg_get.
  destruct cfg as [| |o] eqn:Ec; try reflexivity.
  destruct (o !! "app_id") as [[fa|]|] eqn:Ha; simpl; try reflexivity;
    destruct (o !! "secret_key") as [[fk|]|] eqn:Hk; simpl; try reflexivity.
  - destruct (Py.truthy (Py.strip fa)) eqn:Hfa,
             (Py.truthy (Py.strip fk)) eqn:Hfk; try reflexivity.
    exfalso. apply (Hn fa fk). exists o.
    repeat split; try assumption; now apply truthy_nonempty.
  - now rewrite andb_false_r.
Qed.

End CredentialResolution.

(** The error message names the three ways to configure credentials:
    the constructor, the environment variables and the config file. *)
Definition lists_three_options (message : list string) : Prop :=
  (exists l, In l message /\ Py.contains "CicadaClient(app_id=" l = true)
  /\ (exists l, In l message
        /\ Py.contains "CHANJING_APP_ID" l = true
        /\ Py.contains "CHANJING_SECRET_KEY" l = true)
  /\ (exists l, In l message /\ Py.contains "~/.chanjing/config.json" l = true).

(** C4: credential resolution returns the trimmed explicit arguments
    whenever both are non-empty; otherwise the trimmed environment pair
    whenever both are non-empty after trimming; otherwise the trimmed
    config-file pair whenever both fields are non-empty after trimming;
    otherwise it fails with the configuration error, whose message lists
    all three options. *)
Theorem resolve_credentials_priority
    (app_id secret_key : option string) (environ : gmap string string)
    (cfg : Credentials.config_file) :
  let r := Credentials._resolve_credentials app_id secret_key environ cfg in
  (forall a k, app_id = Some a -> secret_key = Some k -> a <> "" -> k <> "" ->
     r = inr (Py.strip a, Py.strip k))
  /\ (~ explicit_given app_id secret_key -> env_given environ ->
      r = inr (env_app_id environ, env_secret environ))
  /\ (~ explicit_given app_id secret_key -> ~ env_given environ ->
      forall fa fk, config_given cfg fa fk ->
      r = inr (Py.strip fa, Py.strip fk))
  /\ (~ explicit_given app_id secret_key -> ~ env_given environ ->
      (forall fa fk, ~ config_given cfg fa fk) ->
      r = inl (Credentials.ValueError Credentials.missing_credentials_message))
  /\ lists_three_options Credentials.missing_credentials_message.
Proof.
  cbv zeta. unfold Credentials._resolve_credentials.
  split; [|split; [|split; [|split]]].
  - intros a k Ha Hk Hna Hnk.
    now rewrite (from_args_given _ _ a k Ha Hk Hna Hnk).
  - intros Hx He.
    now rewrite from_args_not_given, (from_env_given _ He).
  - intros Hx He fa fk Hc.
    now rewrite from_args_not_given, from_env_not_given,
      (from_config_given _ _ _ Hc).
  - intros Hx He Hc.
    now rewrite from_args_not_given, from_env_not_given,
      from_config_not_given.
  - unfold lists_three_options, Credentials.missing_credentials_message.
    split; [|split].
    + eexists. split; [right; left; reflexivity|reflexivity].
    + eexists. split; [right; right; left; reflexivity|split; reflexivity].
    + eexists. split; [right; right; right; left; reflexivity|reflexivity].
Qed.

Definition sample_environ : gmap string string :=
  <["CHANJING_APP_ID" := " env-id "]> (<["CHANJING_SECRET_KEY" := "env-key"]> ∅).

Definition sample_config : Credentials.config_file :=
  Credentials.CfgObject
    (<["app_id" := Credentials.JStr "file-id"]>
       (<["secret_key" := Credentials.JStr " file-key"]> ∅)).

Lemma no_explicit_args : ~ explicit_given None None.
Proof. intros (a & k & H & _). discriminate H. Qed.

Lemma empty_environ_not_given : ~ env_given ∅.
Proof. intros [H _]. now apply H. Qed.

Lemma resolve_credentials_priority_witness :
  Credentials._resolve_credentials (Some " id ") (Some "key") sample_environ
    sample_config = inr ("id", "key")
  /\ Credentials._resolve_credentials None None sample_environ sample_config
     = inr ("env-id", "env-key")
  /\ Credentials._resolve_credentials None None ∅ sample_config
     = inr ("file-id", "file-key")
  /\ Credentials._resolve_credentials None None ∅ Credentials.CfgAbsent
     = inl (Credentials.ValueError Credentials.missing_credentials_message).
Proof.
  split; [|split; [|split]].
  - apply (proj1 (resolve_credentials_priority
                    (Some " id ") (Some "key") sample_environ sample_config)
             " id " "key"); [reflexivity|reflexivity|discriminate|discriminate].
  - apply (proj1 (proj2 (resolve_credentials_priority
                           None None sample_environ sample_config))).
    + exact no_explicit_args.
    + split; vm_compute; discriminate.
  - apply (proj1 (proj2 (proj2 (resolve_credentials_priority
                                  None None ∅ sample_config)))
             no_explicit_args empty_environ_not_given "file-id" " file-key").
    exists (<["app_id" := Credentials.JStr "file-id"]>
              (<["secret_key" := Credentials.JStr " file-key"]> ∅)).
    repeat split; try reflexivity; vm_compute; discriminate.
  - apply (proj1 (proj2 (proj2 (proj2 (resolve_credentials_priority
                                         None None ∅ Credentials.CfgAbsent))))
             no_explicit_args empty_environ_not_given).
    intros fa fk (o & H & _). discriminate H.
Defined.

(** C10: explicit [app_id] and [secret_key] that are non-empty but consist
    only of whitespace characters (any of the characters [str.strip]
    removes, ASCII or not) are accepted: resolution returns the pair of
    empty strings, whatever the environment and the config file hold, and
    does not raise. *)
Theorem whitespace_only_args_resolve_to_empty
    (a k : string) (environ : gmap string string)
    (cfg : Credentials.config_file) :
  a <> "" -> k <> "" -> whitespace_only a -> whitespace_only k ->
  Credentials._resolve_credentials (Some a) (Some k) environ cfg
  = inr ("", "").
Proof.
  intros Ha Hk Hsa Hsk. unfold Credentials._resolve_credentials.
  rewrite (from_args_given _ _ a k eq_refl eq_refl Ha Hk).
  apply strip_empty_iff in Hsa, Hsk. now rewrite Hsa, Hsk.
Qed.

(** An ideographic space (U+3000) followed by a space, and a no-break
    space (U+00A0) followed by a tab. *)
Definition wide_blank : string := Py.text [0x3000; 0x20].
Definition narrow_blank : string := Py.text [0xA0; 0x09].

Lemma whitespace_only_args_witness :
  Credentials._resolve_credentials (Some wide_blank) (Some narrow_blank)
    sample_environ sample_config = inr ("", "").
Proof.
  apply (whitespace_only_args_resolve_to_empty wide_blank narrow_blank
           sample_environ sample_config).
  - intros H. vm_compute in H. discriminate H.
  - intros H. vm_compute in H. discriminate H.
  - exists [0x3000; 0x20]. split; [repeat constructor|reflexivity].
  - exists [0xA0; 0x09]. split; [repeat constructor|reflexivity].
Defined.

Example strip_examples :
  Py.strip ("　id" ++ narrow_blank) = "id"
  /\ Py.strip " 蝉 镜 " = "蝉 镜"
  /\ Py.strip wide_blank = ""
  /\ Py.strip (Py.text [0x200B]) = Py.text [0x200B].
Proof. repeat split; vm_compute; reflexivity. Qed.

(** ** Upload progress (api.py) *)

Section UploadProgressCallbacks.
Import UploadProgress.

(** What the binary64 evaluation of [int(pos / total * 100)] guarantees
    for a position inside a non-empty buffer: at most 100, and exactly
    100 at the end. *)
Variable percent : Z -> Z -> Z.
Hypothesis percent_le_100 :
  forall pos total, 0 < total -> pos <= total -> percent pos total <= 100.
Hypothesis percent_full :
  forall total, 0 < total -> percent total total = 100.

(** Successive callback percentages, starting after [prev]. *)
Fixpoint spaced (prev : Z) (calls : list Z) : Prop :=
  match calls with
  | [] => True
  | q :: calls' => (prev <= q /\ (prev + 20 <= q \/ q = 100)) /\ spaced q calls'
  end.

Definition inv (u : t) : Prop := _pos u <= _total u /\ _last_pct u <= 100.

Lemma read_inv size u :
  inv u -> inv (read percent size u).1.2.
Proof.
  intros [Hpos Hlast]. unfold read.
  destruct (_total u <=? _pos u) eqn:Hend; [now split|].
  apply Z.leb_gt in Hend.
  assert (Hcase : exists chunk p, p <= _total u /\
            (match size with
             | None => (slice_from (_data u) (_pos u), moved_to (_total u) u)
             | Some sz =>
                 if sz =? -1
                 then (slice_from (_data u) (_pos u), moved_to (_total u) u)
                 else (slice (_data u) (_pos u) (Z.min (_pos u + sz) (_total u)),
                       moved_to (Z.min (_pos u + sz) (_total u)) u)
             end) = (chunk, moved_to p u)).
  { destruct size as [sz|]; [destruct (sz =? -1)|]; eexists _, _;
      (split; [|reflexivity]); lia. }
  destruct Hcase as (chunk & p & Hp & ->). simpl.
  destruct (0 <? _total u) eqn:Htot; [|now split].
  apply Z.ltb_lt in Htot.
  pose proof (percent_le_100 p (_total u) Htot Hp) as Hle.
  destruct (_ || _); unfold inv; simpl; split; lia.
Qed.

(** A call made by [read] is at or above the last reported value, and
    either 20 points above it or exactly 100. *)
Lemma read_call size u q :
  inv u -> (read percent size u).2 = Some q ->
  _last_pct (read percent size u).1.2 = q
  /\ _last_pct u <= q /\ (_last_pct u + 20 <= q \/ q = 100).
Proof.
  intros [Hpos Hlast]. unfold read.
  destruct (_total u <=? _pos u) eqn:Hend; [discriminate|].
  assert (Hcase : exists chunk p, p <= _total u /\
            (match size with
             | None => (slice_from (_data u) (_pos u), moved_to (_total u) u)
             | Some sz =>
                 if sz =? -1
                 then (slice_from (_data u) (_pos u), moved_to (_total u) u)
                 else (slice (_data u) (_pos u) (Z.min (_pos u + sz) (_total u)),
                       moved_to (Z.min (_pos u + sz) (_total u)) u)
             end) = (chunk, moved_to p u)).
  { destruct size as [sz|]; [destruct (sz =? -1)|]; eexists _, _;
      (split; [|reflexivity]); lia. }
  destruct Hcase as (chunk & p & Hp & ->). simpl.
  destruct (0 <? _total u) eqn:Htot; [|discriminate].
  apply Z.ltb_lt in Htot.
  pose proof (percent_le_100 p (_total u) Htot Hp) as Hle.
  destruct (_last_pct u + 20 <=? percent p (_total u)) eqn:H20; simpl.
  - apply Z.leb_le in H20.
    destruct (_on_progress u); [|discriminate].
    intros [= <-]. repeat split; lia.
  - apply Z.leb_gt in H20.
    destruct (100 <=? percent p (_total u)) eqn:H100; simpl; [|discriminate].
    apply Z.leb_le in H100.
    destruct (_on_progress u); [|discriminate].
    intros [= <-]. repeat split; lia.
Qed.

(** Without a call, [read] leaves the last reported value alone when a
    callback is installed. *)
Lemma read_no_call size u :
  _on_progress u = true -> (read percent size u).2 = None ->
  _last_pct (read percent size u).1.2 = _last_pct u.
Proof.
  intros Hcb. unfold read.
  destruct (_total u <=? _pos u); [reflexivity|].
  destruct size as [sz|]; [destruct (sz =? -1)|]; simpl;
    destruct (0 <? _total u); try reflexivity;
    destruct (_ || _); simpl; try reflexivity; rewrite Hcb; discriminate.
Qed.

Lemma read_on_progress size u :
  _on_progress (read percent size u).1.2 = _on_progress u.
Proof.
  unfold read.
  destruct (_total u <=? _pos u); [reflexivity|].
  destruct size as [sz|]; [destruct (sz =? -1)|]; simpl;
    destruct (0 <? _total u); try reflexivity;
    destruct (_ || _); reflexivity.
Qed.

Lemma read_total size u : _total (read percent size u).1.2 = _total u.
Proof.
  unfold read.
  destruct (_total u <=? _pos u); [reflexivity|].
  destruct size as [sz|]; [destruct (sz =? -1)|]; simpl;
    destruct (0 <? _total u); try reflexivity;
    destruct (_ || _); reflexivity.
Qed.

(** The read that reaches the end of a non-empty buffer reports 100. *)
Lemma read_reaches_end size u :
  _on_progress u = true -> 0 < _total u -> _pos u < _total u ->
  _pos (read percent size u).1.2 = _total u ->
  (read percent size u).2 = Some 100.
Proof.
  intros Hcb Htot Hpos. unfold read.
  destruct (_total u <=? _pos u) eqn:Hend; [apply Z.leb_le in Hend; lia|].
  assert (H100 : forall chunk p,
    _pos (let '(chunk, u1) := (chunk, moved_to p u) in
          if 0 <? _total u1 then
            let pct := percent (_pos u1) (_total u1) in
            if (_last_pct u1 + 20 <=? pct) || (100 <=? pct)
            then (chunk, reported pct u1,
                  if _on_progress u1 then Some pct else None)
            else (chunk, u1, None)
          else (chunk, u1, None)).1.2 = _total u ->
    (let '(chunk, u1) := (chunk : list Byte.byte, moved_to p u) in
     if 0 <? _total u1 then
       let pct := percent (_pos u1) (_total u1) in
       if (_last_pct u1 + 20 <=? pct) || (100 <=? pct)
       then (chunk, reported pct u1,
             if _on_progress u1 then Some pct else None)
       else (chunk, u1, None)
     else (chunk, u1, None)).2 = Some 100).
  { intros chunk p. simpl.
    destruct (0 <? _total u) eqn:H0; [|apply Z.ltb_ge in H0; lia].
    destruct (_ || _) eqn:Hc; simpl; intros ->;
      rewrite (percent_full _ Htot) in *.
    - now rewrite Hcb.
    - rewrite orb_false_iff in Hc. destruct Hc as [_ Hc].
      apply Z.leb_gt in Hc. lia. }
  destruct size as [sz|]; [destruct (sz =? -1)|]; apply H100.
Qed.

Lemma reads_at_end sizes u :
  _total u <= _pos u -> reads percent sizes u = (u, []).
Proof.
  intros Hend. induction sizes as [|size sizes IH]; [reflexivity|].
  simpl. unfold read. apply Z.leb_le in Hend. rewrite Hend.
  now rewrite IH.
Qed.

Lemma reads_cons size sizes u :
  reads percent (size :: sizes) u =
  ((reads percent sizes (read percent size u).1.2).1,
   match (read percent size u).2 with
   | Some p => p :: (reads percent sizes (read percent size u).1.2).2
   | None => (reads percent sizes (read percent size u).1.2).2
   end).
Proof.
  simpl. destruct (read percent size u) as [[chunk u'] call]. simpl.
  now destruct (reads percent sizes u').
Qed.

Lemma reads_spaced sizes : forall u,
  _on_progress u = true -> inv u ->
  spaced (_last_pct u) (reads percent sizes u).2.
Proof.
  induction sizes as [|size sizes IH]; intros u Hcb Hinv; [exact I|].
  rewrite reads_cons. simpl.
  pose proof (read_inv size u Hinv) as Hinv'.
  pose proof (read_on_progress size u) as Hcb'. rewrite Hcb in Hcb'.
  destruct (read percent size u).2 as [q|] eqn:Hcall.
  - destruct (read_call size u q Hinv Hcall) as (Hq & Hle & Hstep).
    split; [tauto|]. rewrite <- Hq. now apply IH.
  - rewrite <- (read_no_call size u Hcb Hcall). now apply IH.
Qed.

Lemma reads_without_callback sizes : forall u,
  _on_progress u = false -> (reads percent sizes u).2 = [].
Proof.
  induction sizes as [|size sizes IH]; intros u Hcb; [reflexivity|].
  rewrite reads_cons. simpl.
  pose proof (read_on_progress size u) as Hcb'. rewrite Hcb in Hcb'.
  rewrite (IH _ Hcb').
  assert (Hnone : (read percent size u).2 = None).
  { unfold read.
    destruct (_total u <=? _pos u); [reflexivity|].
    destruct size as [sz|]; [destruct (sz =? -1)|]; simpl;
      destruct (0 <? _total u); try reflexivity;
      destruct (_ || _); simpl; try reflexivity; now rewrite Hcb. }
  now rewrite Hnone.
Qed.

Lemma spaced_adjacent calls : forall prev i p q,
  spaced prev calls -> calls !! i = Some p -> calls !! S i = Some q ->
  p <= q /\ (p + 20 <= q \/ q = 100).
Proof.
  induction calls as [|c calls IH]; intros prev i p q Hs Hp Hq;
    [discriminate|].
  destruct Hs as [_ Hs]. destruct i as [|i].
  - simpl in Hp. injection Hp as ->.
    destruct calls as [|c' calls]; [discriminate|].
    simpl in Hq. injection Hq as ->. exact (proj1 Hs).
  - exact (IH c i p q Hs Hp Hq).
Qed.

(** Once the position has reached the end, the last call was at 100. *)
Lemma reads_full sizes : forall u,
  _on_progress u = true -> 0 < _total u -> _pos u < _total u ->
  _pos (reads percent sizes u).1 = _total u ->
  last (reads percent sizes u).2 = Some 100.
Proof.
  induction sizes as [|size sizes IH]; intros u Hcb Htot Hpos Hfin.
  - simpl in Hfin. lia.
  - rewrite reads_cons in *. simpl in *.
    pose proof (read_on_progress size u) as Hcb'. rewrite Hcb in Hcb'.
    pose proof (read_total size u) as Htot'.
    destruct (Z_lt_le_dec (_pos (read percent size u).1.2) (_total u))
      as [Hlt|Hge].
    + assert (Hlast : last (reads percent sizes (read percent size u).1.2).2
                      = Some 100).
      { apply IH; rewrite ?Htot'; auto. }
      destruct (read percent size u).2; [|exact Hlast].
      destruct (reads percent sizes (read percent size u).1.2).2;
        [discriminate|exact Hlast].
    + rewrite reads_at_end in * by (rewrite Htot'; exact Hge). simpl in *.
      rewrite (read_reaches_end size u Hcb Htot Hpos); [reflexivity|].
      congruence.
Qed.

End UploadProgressCallbacks.

Lemma reads_total percent sizes : forall u,
  UploadProgress._total (UploadProgress.reads percent sizes u).1
  = UploadProgress._total u.
Proof.
  induction sizes as [|size sizes IH]; intros u; [reflexivity|].
  rewrite reads_cons. simpl. now rewrite IH, read_total.
Qed.

Lemma exact_percent_le_100 pos total :
  0 < total -> pos <= total -> UploadProgress.exact_percent pos total <= 100.
Proof.
  intros Ht Hp. unfold UploadProgress.exact_percent.
  apply Z.le_trans with (Z.quot (100 * total) total).
  - apply Z.quot_le_mono; lia.
  - rewrite Z.quot_mul; lia.
Qed.

Lemma exact_percent_full total :
  0 < total -> UploadProgress.exact_percent total total = 100.
Proof.
  intros Ht. unfold UploadProgress.exact_percent.
  rewrite Z.mul_comm. apply Z.quot_mul. lia.
Qed.

Definition ten_bytes : list Byte.byte := repeat Byte.x00 10.

Example upload_in_chunks_of_three :
  (UploadProgress.reads UploadProgress.exact_percent
     [Some 3; Some 3; Some 3; Some 3; Some 3]
     (UploadProgress.init ten_bytes true)).2 = [30; 60; 90; 100].
Proof. reflexivity. Qed.

Example upload_in_chunks_of_one :
  (UploadProgress.reads UploadProgress.exact_percent (repeat (Some 1) 10)
     (UploadProgress.init ten_bytes true)).2 = [10; 30; 50; 70; 90; 100].
Proof. reflexivity. Qed.

Definition hundred_bytes : list Byte.byte := repeat Byte.x00 100.

(** Rounding can put the computed percentage one below the exact one;
    the callbacks are then spaced by what was computed. *)
Example float_percent_rounds_down :
  UploadProgress.float_percent 29 100 = 28
  /\ UploadProgress.exact_percent 29 100 = 29
  /\ UploadProgress.float_percent 100 100 = 100
  /\ UploadProgress.float_percent 1 3 = 33
  /\ UploadProgress.float_percent 0 7 = 0.
Proof. repeat split; vm_compute; reflexivity. Qed.

Example upload_in_chunks_of_three_float :
  (UploadProgress.reads UploadProgress.float_percent
     [Some 3; Some 3; Some 3; Some 3; Some 3]
     (UploadProgress.init ten_bytes true)).2 = [30; 60; 90; 100].
Proof. vm_compute. reflexivity. Qed.

Example upload_in_chunks_of_29_float :
  (UploadProgress.reads UploadProgress.float_percent
     [Some 29; Some 29; Some 29; Some 29]
     (UploadProgress.init hundred_bytes true)).2 = [28; 57; 87; 100]
  /\ (UploadProgress.reads UploadProgress.exact_percent
        [Some 29; Some 29; Some 29; Some 29]
        (UploadProgress.init hundred_bytes true)).2 = [29; 58; 87; 100].
Proof. split; vm_compute; reflexivity. Qed.

Example upload_read_all :
  (UploadProgress.reads UploadProgress.exact_percent [None; Some 4]
     (UploadProgress.init ten_bytes true)).2 = [100].
Proof. reflexivity. Qed.

(** C6: whatever the buffer and the sequence of [read(size)] calls, two
    successive invocations of the progress callback report non-decreasing
    percentages, the later one at least 20 points above the earlier one
    unless it is at 100; and once a non-empty buffer has been read to its
    end, the last invocation reported exactly 100. *)
Theorem upload_progress_callbacks
    (percent : Z -> Z -> Z)
    (percent_le_100 :
       forall pos total, 0 < total -> pos <= total -> percent pos total <= 100)
    (percent_full : forall total, 0 < total -> percent total total = 100)
    (data : list Byte.byte) (on_progress : bool) (sizes : list (option Z)) :
  let final :=
    (UploadProgress.reads percent sizes (UploadProgress.init data on_progress)).1 in
  let calls :=
    (UploadProgress.reads percent sizes (UploadProgress.init data on_progress)).2 in
  (forall i p q, calls !! i = Some p -> calls !! S i = Some q ->
     p <= q /\ (p + 20 <= q \/ q = 100))
  /\ (on_progress = true -> data <> [] ->
      UploadProgress._pos final = UploadProgress._total final ->
      last calls = Some 100).
Proof.
  cbv zeta. split.
  - destruct on_progress.
    + intros i p q. apply (spaced_adjacent _ (-20)).
      apply (reads_spaced percent percent_le_100 sizes
               (UploadProgress.init data true)); [reflexivity|].
      unfold inv, UploadProgress.init.
      cbn [UploadProgress._pos UploadProgress._total UploadProgress._last_pct].
      lia.
    + rewrite reads_without_callback by reflexivity. intros i p q H.
      discriminate H.
  - intros -> Hdata Hfin. rewrite reads_total in Hfin.
    assert (Hlen : 0 < Z.of_nat (length data)).
    { destruct data; [congruence|simpl; lia]. }
    apply (reads_full percent percent_full); simpl; auto.
Qed.

Lemma upload_progress_callbacks_witness :
  let calls :=
    (UploadProgress.reads UploadProgress.exact_percent
       [Some 3; Some 3; Some 3; Some 3]
       (UploadProgress.init ten_bytes true)).2 in
  (forall i p q, calls !! i = Some p -> calls !! S i = Some q ->
     p <= q /\ (p + 20 <= q \/ q = 100))
  /\ last calls = Some 100.
Proof.
  pose proof (upload_progress_callbacks UploadProgress.exact_percent
                exact_percent_le_100 exact_percent_full ten_bytes true
                [Some 3; Some 3; Some 3; Some 3]) as [Hstep Hlast].
  split; [exact Hstep|].
  apply Hlast; [reflexivity|discriminate|reflexivity].
Defined.

(** ** Rate limiter (api.py) *)

Lemma Qltb_lt (a b : Q) : Api.Qltb a b = true <-> (a < b)%Q.
Proof.
  unfold Api.Qltb. rewrite negb_true_iff, <- not_true_iff_false, Qle_bool_iff.
  split; [apply Qnot_le_lt|apply Qlt_not_le].
Qed.

Lemma Qltb_ge (a b : Q) : Api.Qltb a b = false <-> (b <= a)%Q.
Proof.
  unfold Api.Qltb. now rewrite negb_false_iff, Qle_bool_iff.
Qed.

(** The configured table of minimum intervals. *)
Lemma interval_table :
  Api.interval_of "lip_sync" = 6%Q /\ Api.interval_of "voice_clone" = 6%Q
  /\ Api.interval_of "tts" = (1 # 2)%Q /\ Api.interval_of "default" = 1%Q
  /\ (forall c, c <> "lip_sync" -> c <> "voice_clone" -> c <> "tts" ->
      Api.interval_of c = 1%Q).
Proof.
  repeat split; try reflexivity.
  intros c H1 H2 H3. unfold Api.interval_of, Api.INTERVALS.
  destruct (decide (c = "default")) as [->|H4]; [reflexivity|].
  assert (Hc : (<["lip_sync":=6%Q]> (<["voice_clone":=6%Q]>
                  (<["tts":=(1 # 2)%Q]> (<["default":=1%Q]> ∅)))
                : gmap string Q) !! c = None).
  { rewrite !lookup_insert_ne by congruence. apply lookup_empty. }
  now rewrite Hc.
Qed.

Section RateLimiterWait.
Import Runtime.

Variable oversleep : nat -> Q.
Hypothesis oversleep_nonneg : forall n, (0 <= oversleep n)%Q.

(** The time the caller has to wait on entry to [wait]. *)
Definition required_wait (category : string) (s : state) : Q :=
  (Api.interval_of category
     - (now s - default 0%Q (_timestamps s !! category)))%Q.

(** What one call of [wait] does. *)
Lemma wait_spec category silent s :
  exists s',
    Api.wait oversleep category silent s = (Returns tt, s')
    /\ _timestamps s' = <[category := now s']> (_timestamps s)
    /\ (default 0%Q (_timestamps s !! category) + Api.interval_of category
          <= now s')%Q
    /\ ((0 < required_wait category s)%Q ->
        exists logged,
          trace s' = (Slept (required_wait category s) :: logged ++ trace s)%list
          /\ (now s + required_wait category s <= now s')%Q)
    /\ ((required_wait category s <= 0)%Q ->
        trace s' = trace s /\ now s' = now s).
Proof.
  unfold required_wait.
  set (last_time := default 0%Q (_timestamps s !! category)).
  set (interval := Api.interval_of category).
  destruct (Api.Qltb (now s - last_time) interval) eqn:Hb.
  - pose proof (proj1 (Qltb_lt _ _) Hb) as Hlt.
    assert (Hpos : Api.Qltb (interval - (now s - last_time)) 0 = false).
    { apply Qltb_ge. lra. }
    destruct silent;
      unfold Api.wait, bind, gets, Api.time_time, modify, Api.time_sleep,
        Api.log, modify;
      fold last_time; fold interval; cbn; rewrite Hb; cbn; rewrite Hpos; cbn;
      (eexists; split; [reflexivity|]); cbn;
      (split; [reflexivity|]);
      match goal with
      | |- context [oversleep ?n] => pose proof (oversleep_nonneg n) as H0
      end.
    + split; [lra|]. split.
      * intros _. exists []. split; [reflexivity|lra].
      * intros Hle. lra.
    + split; [lra|]. split.
      * intros _.
        exists [Logged DEBUG "频率控制(%s)：等待 %.1fs"].
        split; [reflexivity|lra].
      * intros Hle. lra.
  - pose proof (proj1 (Qltb_ge _ _) Hb) as Hge.
    unfold Api.wait, bind, gets, Api.time_time, modify.
    fold last_time; fold interval; cbn; rewrite Hb; cbn.
    eexists; split; [reflexivity|]. cbn.
    split; [reflexivity|]. split; [lra|]. split.
    + intros Hgt. lra.
    + intros _. split; reflexivity.
Qed.

End RateLimiterWait.

(** C8: after a call of [wait] in a category has recorded its timestamp,
    the next call in that category records one that is at least the
    category's interval later (6 s for lip-sync and voice-clone, 0.5 s for
    TTS, 1 s for any other category), provided [time.sleep] never returns
    early; the recorded timestamp is the clock read after any required
    sleep. *)
Theorem rate_limiter_spacing
    (oversleep : nat -> Q) (category : string) (silent1 silent2 : bool)
    (s1 s2 s3 s4 : Runtime.state) :
  (forall n, (0 <= oversleep n)%Q) ->
  Api.wait oversleep category silent1 s1 = (Runtime.Returns tt, s2) ->
  Runtime._timestamps s3 !! category = Runtime._timestamps s2 !! category ->
  Api.wait oversleep category silent2 s3 = (Runtime.Returns tt, s4) ->
  exists t1 t2,
    Runtime._timestamps s2 !! category = Some t1
    /\ Runtime._timestamps s4 !! category = Some t2
    /\ (t1 + Api.interval_of category <= t2)%Q
    /\ t2 = Runtime.now s4
    /\ ((0 < required_wait category s3)%Q ->
        exists logged,
          Runtime.trace s4
          = (Runtime.Slept (required_wait category s3)
               :: logged ++ Runtime.trace s3)%list
          /\ (Runtime.now s3 + required_wait category s3 <= t2)%Q)
    /\ (Api.interval_of "lip_sync" = 6%Q /\ Api.interval_of "voice_clone" = 6%Q
        /\ Api.interval_of "tts" = (1 # 2)%Q /\ Api.interval_of "default" = 1%Q
        /\ (forall c, c <> "lip_sync" -> c <> "voice_clone" -> c <> "tts" ->
            Api.interval_of c = 1%Q)).
Proof.
  intros Hover H12 H23 H34.
  destruct (wait_spec oversleep Hover category silent1 s1)
    as (s2' & E2 & Hts2 & _).
  rewrite H12 in E2. injection E2 as <-.
  destruct (wait_spec oversleep Hover category silent2 s3)
    as (s4' & E4 & Hts4 & Hgap & Hslept & _).
  rewrite H34 in E4. injection E4 as <-.
  exists (Runtime.now s2), (Runtime.now s4).
  rewrite Hts2, Hts4, !lookup_insert_eq.
  rewrite H23, Hts2, lookup_insert_eq in Hgap. simpl in Hgap.
  repeat split; auto using interval_table; try apply interval_table.
Qed.

(** A client that has just been constructed, at clock value 1000. *)
Definition fresh_client : Runtime.state :=
  {| Runtime.now := 1000%Q; Runtime.token_file := Runtime.FileAbsent;
     Runtime.disk_writable := true; Runtime.disk_truncates := false;
     Runtime.trace := [];
     Runtime._timestamps := ∅;
     Runtime._auth := Api.new_auth (fun s => s) "id" "key" |}.

Definition punctual : nat -> Q := fun _ => 0%Q.

Definition after_first_wait : Runtime.state :=
  (Api.wait punctual "tts" false fresh_client).2.
Definition after_second_wait : Runtime.state :=
  (Api.wait punctual "tts" false after_first_wait).2.

Example back_to_back_tts_waits :
  Runtime._timestamps after_first_wait !! "tts" = Some 1000%Q
  /\ Runtime.trace after_second_wait
     = [Runtime.Slept (1 # 2)%Q;
        Runtime.Logged Runtime.DEBUG "频率控制(%s)：等待 %.1fs"]
  /\ Qeq (Runtime.now after_second_wait) (1000 + (1 # 2))%Q.
Proof. repeat split; vm_compute; reflexivity. Qed.

Lemma rate_limiter_spacing_witness :
  exists t1 t2,
    Runtime._timestamps after_first_wait !! "tts" = Some t1
    /\ Runtime._timestamps after_second_wait !! "tts" = Some t2
    /\ (t1 + Api.interval_of "tts" <= t2)%Q.
Proof.
  destruct (rate_limiter_spacing punctual "tts" false false
              fresh_client after_first_wait after_first_wait after_second_wait)
    as (t1 & t2 & H1 & H2 & H3 & _).
  - intros n. apply Qle_refl.
  - reflexivity.
  - reflexivity.
  - reflexivity.
  - exists t1, t2. auto.
Defined.

(** ** HTTP request layer (api.py) *)

(** Number of HTTP exchanges made so far. *)
Definition sent (s : Runtime.state) : nat :=
  length (List.filter Api.is_sent (Runtime.trace s)).

(** The exchanges and sleeps of a trace, logging left out. *)
Definition io (s : Runtime.state) : list Runtime.event :=
  List.filter (fun e => Api.is_sent e || Api.is_slept e) (Runtime.trace s).

(** Caught by one of the two retrying [except] clauses. *)
Definition is_transient (e : Runtime.exn) : bool :=
  match e with
  | Runtime.ReqConnectionError _ | Runtime.ReqTimeout _ => true
  | _ => false
  end.

(** What the [try] body makes of a reply: the response, or the exception
    of the transport or of [raise_for_status]. *)
Definition attempt_result (r : Runtime.reply) : Runtime.result Runtime.response :=
  match Runtime.outcome r with
  | Runtime.Responds resp =>
      if (400 <=? Runtime.status_code resp) && (Runtime.status_code resp <? 600)
      then Runtime.Raises (Runtime.ReqHTTPError (Runtime.status_code resp))
      else Runtime.Returns resp
  | Runtime.Throws e => Runtime.Raises e
  end.

(** [k] failed attempts, each followed by a sleep of [d] seconds, on top
    of the trace [tr] (most recent event first). *)
Fixpoint retried (rq : Runtime.http_request) (d : Q) (k : nat)
    (tr : list Runtime.event) : list Runtime.event :=
  match k with
  | O => tr
  | S k' => Runtime.Slept d :: Runtime.Sent rq :: retried rq d k' tr
  end.

Section RequestRetry.
Import Runtime.

Variable server : nat -> http_request -> reply.
Variable oversleep : nat -> Q.
Variables (method url : string) (max_retries retry_delay : Z).
Variable kw : kwargs.
Hypothesis delay_nonneg : 0 <= retry_delay.
Hypothesis timeout_set : kw_timeout kw <> None.

Let rq : http_request :=
  {| rq_method := method; rq_url := url; rq_kwargs := kw |}.

(** The result of the attempt made as the [i]-th exchange of the run. *)
Definition attempt_at (i : nat) : result response :=
  attempt_result (server i rq).


Lemma attempt_once_spec s :
  exists s',
    Api.attempt_once server method url kw s = (attempt_at (sent s), s')
    /\ trace s' = Sent rq :: trace s.
Proof.
  unfold Api.attempt_once, bind, Api.requests_request, attempt_at,
    attempt_result, Api.raise_for_status, sent.
  fold rq. destruct (outcome (server _ rq)) as [resp|e]; cbn.
  - destruct ((400 <=? status_code resp) && (status_code resp <? 600));
      cbn; eexists; split; reflexivity.
  - eexists; split; reflexivity.
Qed.

Lemma normal_kwargs :
  match kw_timeout kw with None => Api.set_timeout 30 kw | Some _ => kw end = kw.
Proof. destruct (kw_timeout kw); [reflexivity|contradiction]. Qed.








End RequestRetry.

Lemma wait_returns oversleep category silent s :
  exists s', Api.wait oversleep category silent s = (Runtime.Returns tt, s').
Proof.
  set (last_time := default 0%Q (Runtime._timestamps s !! category)).
  set (interval := Api.interval_of category).
  destruct (Api.Qltb (Runtime.now s - last_time) interval) eqn:Hb.
  - assert (Hpos : Api.Qltb (interval - (Runtime.now s - last_time)) 0 = false).
    { apply Qltb_ge. apply Qltb_lt in Hb. lra. }
    destruct silent;
      unfold Api.wait, Runtime.bind, Runtime.gets, Api.time_time,
        Runtime.modify, Api.time_sleep, Api.log, Runtime.modify;
      fold last_time; fold interval; cbn; rewrite Hb; cbn; rewrite Hpos; cbn;
      eexists; reflexivity.
  - unfold Api.wait, Runtime.bind, Runtime.gets, Api.time_time, Runtime.modify.
    fold last_time; fold interval; cbn; rewrite Hb; cbn.
    eexists; reflexivity.
Qed.

(** [if "timeout" not in kwargs: kwargs["timeout"] = 30] *)
Definition with_default_timeout (kw : Runtime.kwargs) : Runtime.kwargs :=
  match Runtime.kw_timeout kw with
  | None => Api.set_timeout 30 kw
  | Some _ => kw
  end.

Lemma with_default_timeout_set kw :
  Runtime.kw_timeout (with_default_timeout kw) <> None.
Proof.
  unfold with_default_timeout.
  destruct (Runtime.kw_timeout kw) eqn:E; [now rewrite E|discriminate].
Qed.

Lemma loop_default_timeout server oversleep n a method url max_retries
    retry_delay kw last :
  Api.request_loop server oversleep n a method url max_retries retry_delay
    kw last
  = Api.request_loop server oversleep n a method url max_retries retry_delay
      (with_default_timeout kw) last.
Proof.
  destruct n as [|n]; [reflexivity|]. simpl.
  fold (with_default_timeout kw).
  fold (with_default_timeout (with_default_timeout kw)).
  replace (with_default_timeout (with_default_timeout kw))
    with (with_default_timeout kw); [reflexivity|].
  unfold with_default_timeout at 2.
  destruct (Runtime.kw_timeout (with_default_timeout kw)) eqn:E;
    [reflexivity|]. now apply with_default_timeout_set in E.
Qed.



Definition no_kwargs : Runtime.kwargs :=
  {| Runtime.kw_headers := None; Runtime.kw_json := None;
     Runtime.kw_params := None; Runtime.kw_timeout := None |}.

Definition ok_response : Runtime.response :=
  {| Runtime.status_code := 200;
     Runtime.content :=
       Runtime.Json {| Runtime.code := Some 0; Runtime.msg := None;
                       Runtime.data := None |} |}.

(** Refuses the first two connections, then answers. *)
Definition flaky_server : nat -> Runtime.http_request -> Runtime.reply :=
  fun n _ =>
    {| Runtime.latency := (1 # 10)%Q;
       Runtime.outcome :=
         if (n <? 2)%nat then Runtime.Throws (Runtime.ReqConnectionError "refused")
         else Runtime.Responds ok_response |}.

(** Never answers in time. *)
Definition dead_server : nat -> Runtime.http_request -> Runtime.reply :=
  fun _ _ =>
    {| Runtime.latency := 30%Q;
       Runtime.outcome := Runtime.Throws (Runtime.ReqTimeout "read timed out") |}.

(** Answers 503 at once. *)
Definition failing_server : nat -> Runtime.http_request -> Runtime.reply :=
  fun _ _ =>
    {| Runtime.latency := (1 # 10)%Q;
       Runtime.outcome :=
         Runtime.Responds {| Runtime.status_code := 503;
                             Runtime.content := Runtime.NotJson |} |}.

Definition get_u : Runtime.http_request :=
  {| Runtime.rq_method := "GET"; Runtime.rq_url := "u";
     Runtime.rq_kwargs := Api.set_timeout 30 no_kwargs |}.

Example request_on_flaky_server :
  let r := Api.request flaky_server punctual "GET" "u" 3 3 "default" true
             no_kwargs fresh_client in
  r.1 = Runtime.Returns ok_response
  /\ io r.2 = [Runtime.Sent get_u; Runtime.Slept 3%Q; Runtime.Sent get_u;
               Runtime.Slept 3%Q; Runtime.Sent get_u].
Proof. split; vm_compute; reflexivity. Qed.

Example request_on_failing_server :
  let r := Api.request failing_server punctual "GET" "u" 3 3 "default" true
             no_kwargs fresh_client in
  r.1 = Runtime.Raises (Runtime.ReqHTTPError 503)
  /\ io r.2 = [Runtime.Sent get_u].
Proof. split; vm_compute; reflexivity. Qed.

Example request_on_dead_server :
  let r := Api.request dead_server punctual "GET" "u" 3 3 "default" true
             no_kwargs fresh_client in
  r.1 = Runtime.Raises
          (Runtime.RetriesExhausted 3
             (Some (Runtime.ReqTimeout "read timed out")))
  /\ io r.2 = [Runtime.Sent get_u; Runtime.Slept 3%Q; Runtime.Sent get_u;
               Runtime.Slept 3%Q; Runtime.Sent get_u].
Proof. split; vm_compute; reflexivity. Qed.

(** C3 (counterexample): with [retry_delay = -1] the first attempt of
    three times out, and the call ends there with the [ValueError] of
    [time.sleep]: nothing is slept, no other attempt is made, and the
    connectivity error is not raised. *)
Lemma request_stops_on_negative_delay :
  let r := Api.request dead_server punctual "GET" "u" 3 (-1) "default" true
             no_kwargs fresh_client in
  attempt_at dead_server "GET" "u" (with_default_timeout no_kwargs) 0
  = Runtime.Raises (Runtime.ReqTimeout "read timed out")
  /\ r.1 = Runtime.Raises Runtime.SleepValueError
  /\ io r.2 = [Runtime.Sent get_u]
  /\ r.1 <> Runtime.Raises
              (Runtime.RetriesExhausted 3
                 (Some (Runtime.ReqTimeout "read timed out"))).
Proof.
  cbv zeta. split; [reflexivity|]. split; [reflexivity|].
  split; [reflexivity|]. discriminate.
Qed.


(** ** Token life cycle (auth.py) *)

(** The log line that opens [_refresh_token]. *)
Definition is_refresh (e : Runtime.event) : bool :=
  match e with
  | Runtime.Logged Runtime.INFO fmt => String.eqb fmt "正在获取 AccessToken..."
  | _ => false
  end.

(** How many times [_refresh_token] has been entered so far. *)
Definition refreshes (s : Runtime.state) : nat :=
  length (List.filter is_refresh (Runtime.trace s)).

(** A step that leaves alone the auth state, the token file and the
    number of refreshes. *)
Definition quiet (s s' : Runtime.state) : Prop :=
  refreshes s' = refreshes s
  /\ Runtime._auth s' = Runtime._auth s
  /\ Runtime.token_file s' = Runtime.token_file s
  /\ Runtime.disk_writable s' = Runtime.disk_writable s.

Definition quiet_action {A} (c : Runtime.M A) : Prop :=
  forall s, quiet s (c s).2.

Lemma quiet_refl s : quiet s s.
Proof. repeat split. Qed.

Lemma quiet_trans s1 s2 s3 : quiet s1 s2 -> quiet s2 s3 -> quiet s1 s3.
Proof.
  intros (A1 & B1 & C1 & D1) (A2 & B2 & C2 & D2).
  repeat split; congruence.
Qed.

Lemma quiet_ret {A} (a : A) : quiet_action (Runtime.ret a).
Proof. intros s. apply quiet_refl. Qed.

Lemma quiet_raise {A} e : quiet_action (@Runtime.raise A e).
Proof. intros s. apply quiet_refl. Qed.

Lemma quiet_bind {A B} (c : Runtime.M A) (k : A -> Runtime.M B) :
  quiet_action c -> (forall a, quiet_action (k a)) ->
  quiet_action (Runtime.bind c k).
Proof.
  intros Hc Hk s. unfold Runtime.bind.
  specialize (Hc s). destruct (c s) as [[a|e] s1]; simpl in *.
  - apply (quiet_trans _ _ _ Hc), Hk.
  - exact Hc.
Qed.

Lemma quiet_try_except {A} (c : Runtime.M A) (h : Runtime.exn -> Runtime.M A) :
  quiet_action c -> (forall e, quiet_action (h e)) ->
  quiet_action (Runtime.try_except c h).
Proof.
  intros Hc Hh s. unfold Runtime.try_except.
  specialize (Hc s). destruct (c s) as [[a|e] s1]; simpl in *.
  - exact Hc.
  - apply (quiet_trans _ _ _ Hc), Hh.
Qed.

Lemma quiet_log lvl fmt :
  is_refresh (Runtime.Logged lvl fmt) = false -> quiet_action (Api.log lvl fmt).
Proof.
  intros H s. unfold Api.log, Runtime.modify, quiet, refreshes.
  cbn -[is_refresh]. rewrite H. repeat split.
Qed.

Lemma quiet_sleep oversleep d : quiet_action (Api.time_sleep oversleep d).
Proof.
  intros s. unfold Api.time_sleep.
  destruct (Api.Qltb d 0); simpl; repeat split.
Qed.

Lemma quiet_requests_request server rq :
  quiet_action (Api.requests_request server rq).
Proof.
  intros s. unfold Api.requests_request.
  destruct (Runtime.outcome _); simpl; repeat split.
Qed.

Lemma quiet_wait oversleep category silent :
  quiet_action (Api.wait oversleep category silent).
Proof.
  unfold Api.wait.
  apply quiet_bind; [intros s; apply quiet_refl|intros last_time].
  apply quiet_bind; [intros s; apply quiet_refl|intros t].
  apply quiet_bind.
  - destruct (Api.Qltb _ _); [|apply quiet_ret].
    apply quiet_bind; [|intros _; apply quiet_sleep].
    destruct silent; [apply quiet_ret|now apply quiet_log].
  - intros _. apply quiet_bind; [intros s; apply quiet_refl|intros t'].
    intros s. repeat split.
Qed.

Lemma quiet_request_loop server oversleep n : forall a method url max_retries
    retry_delay kw last,
  quiet_action (Api.request_loop server oversleep n a method url max_retries
                  retry_delay kw last).
Proof.
  induction n as [|n IH]; intros; simpl; [apply quiet_raise|].
  apply quiet_try_except.
  - unfold Api.attempt_once.
    apply quiet_bind; [apply quiet_requests_request|intros resp].
    apply quiet_bind; [|intros _; apply quiet_ret].
    unfold Api.raise_for_status.
    destruct (_ && _); [apply quiet_raise|apply quiet_ret].
  - intros e.
    destruct e; try apply quiet_raise;
      (apply quiet_bind; [|intros _; apply IH]);
      (destruct (a <? max_retries); [|apply quiet_ret]);
      (apply quiet_bind; [now apply quiet_log|intros _; apply quiet_sleep]).
Qed.

Lemma quiet_request server oversleep method url max_retries retry_delay
    category silent kw :
  quiet_action (Api.request server oversleep method url max_retries
                  retry_delay category silent kw).
Proof.
  unfold Api.request.
  apply quiet_bind; [apply quiet_wait|intros _; apply quiet_request_loop].
Qed.

(** With [_retried_auth=True], [json_request] never touches the auth
    state: the refresh branch is closed. *)
Lemma quiet_json_request_retried server oversleep depth method url category
    silent kw :
  quiet_action (Api.json_request server oversleep depth method url category
                  silent true kw).
Proof.
  destruct depth as [|depth]; simpl; [apply quiet_raise|].
  apply quiet_bind; [apply quiet_request|intros resp].
  apply quiet_bind.
  - unfold Api.response_json.
    destruct (Runtime.content resp); [apply quiet_raise|apply quiet_ret].
  - intros result. destruct (bool_decide _); [apply quiet_ret|].
    rewrite andb_false_r.
    destruct (Api.auth_expired _); apply quiet_raise.
Qed.

(** An [api] whose [json_request(..., _retried_auth=True)] is quiet. *)
Definition quiet_api (api : Api.json_request_t) : Prop :=
  forall method url category silent kw,
    quiet_action (api method url category silent true kw).

(** The in-memory token is usable: non-empty, more than 300 s before its
    expiry, issued for the current credentials. *)
Definition memory_valid (s : Runtime.state) (t : string) : Prop :=
  Runtime._token (Runtime._auth s) = Some t
  /\ t <> ""
  /\ (Runtime.now s < Runtime._token_expire (Runtime._auth s) - 300)%Q
  /\ Runtime._token_config_hash (Runtime._auth s)
     = Some (Runtime._config_hash (Runtime._auth s)).

(** After the fingerprint check there is no in-memory token, so the disk
    cache is read. *)
Definition disk_consulted (s : Runtime.state) : Prop :=
  Runtime._token (Runtime._auth s) = None
  \/ Runtime._token_config_hash (Runtime._auth s)
     <> Some (Runtime._config_hash (Runtime._auth s)).

(** The token file holds a usable token. *)
Definition disk_valid (s : Runtime.state) (t : string) : Prop :=
  exists e,
    Runtime.token_file s
    = Runtime.FileData (Some t) e (Some (Runtime._config_hash (Runtime._auth s)))
    /\ t <> "" /\ (Runtime.now s < e - 300)%Q.

(** What a successful refresh leaves behind, seen from the state [s]
    before it and the state [s'] after it. *)
Definition freshly_issued (s s' : Runtime.state) (t : string) : Prop :=
  t <> ""
  /\ Runtime._token (Runtime._auth s') = Some t
  /\ Runtime._token_expire (Runtime._auth s') = (Runtime.now s' + 24 * 3600)%Q
  /\ Runtime._token_config_hash (Runtime._auth s')
     = Some (Runtime._config_hash (Runtime._auth s))
  /\ (Runtime.disk_writable s = true ->
      Runtime.token_file s'
      = Runtime.FileData (Some t) (Runtime.now s' + 24 * 3600)%Q
          (Some (Runtime._config_hash (Runtime._auth s)))).

Lemma refresh_then_return api s :
  quiet_api api ->
  let r := Runtime.bind (Api._refresh_token api) (fun _ => Api.return_token) s in
  refreshes r.2 = S (refreshes s)
  /\ forall t, r.1 = Runtime.Returns t -> freshly_issued s r.2 t.
Proof.
  intros Hq.
  cbv beta iota zeta delta
    [Runtime.bind Api._refresh_token Api.log Runtime.modify Runtime.gets
     Api.time_time Api.update_auth Api.return_token Api._save_token_cache
     Runtime.raise Runtime.ret].
  match goal with
  | |- context [api ?m ?u ?c ?sl true ?kw ?s1] =>
      pose proof (Hq m u c sl kw s1) as Hquiet;
      destruct (api m u c sl true kw s1) as [[result|e] s2]
  end; cbn [snd] in Hquiet;
    destruct Hquiet as (Href & Hauth & Hfile & Hwr);
    unfold refreshes in Href; cbn in Href, Hauth, Hfile, Hwr; cbn [fst snd].
  2:{ split; [exact Href|discriminate]. }
  cbn.
  destruct (default ∅ (Runtime.data result) !! "access_token") as [t|] eqn:Ht;
    cbn; [|split; [exact Href|discriminate]].
  destruct (Py.truthy t) eqn:Htruthy; cbn;
    [|split; [exact Href|discriminate]].
  rewrite Hwr.
  destruct (Runtime.disk_writable s) eqn:Hw; cbn.
  - split; [exact Href|]. intros t' [= <-]. unfold freshly_issued. cbn.
    rewrite Hauth.
    repeat split; try reflexivity. now apply truthy_nonempty.
  - destruct (Runtime.disk_truncates s2); cbn;
      (split; [exact Href|]); intros t' [= <-]; unfold freshly_issued; cbn;
      rewrite Hauth;
      (repeat split; try reflexivity; [now apply truthy_nonempty|congruence]).
Qed.

Lemma bind_gets {A B} (f : Runtime.state -> A) (k : A -> Runtime.M B) s :
  Runtime.bind (Runtime.gets f) k s = k (f s) s.
Proof. reflexivity. Qed.

Lemma bind_ret {A B} (a : A) (k : A -> Runtime.M B) s :
  Runtime.bind (Runtime.ret a) k s = k a s.
Proof. reflexivity. Qed.

Lemma bind_modify {B} (f : Runtime.state -> Runtime.state)
    (k : unit -> Runtime.M B) s :
  Runtime.bind (Runtime.modify f) k s = k tt (f s).
Proof. reflexivity. Qed.

Lemma bind_assoc {A B C} (c : Runtime.M A) (k1 : A -> Runtime.M B)
    (k2 : B -> Runtime.M C) s :
  Runtime.bind (Runtime.bind c k1) k2 s
  = Runtime.bind c (fun a => Runtime.bind (k1 a) k2) s.
Proof. unfold Runtime.bind. now destruct (c s) as [[a|e] s']. Qed.

Ltac step :=
  repeat first
    [ rewrite bind_assoc | rewrite bind_gets | rewrite bind_ret
    | rewrite bind_modify ];
  cbn beta.

Lemma freshly_issued_from s0 s s' t :
  Runtime._config_hash (Runtime._auth s0) = Runtime._config_hash (Runtime._auth s) ->
  Runtime.disk_writable s0 = Runtime.disk_writable s ->
  freshly_issued s0 s' t -> freshly_issued s s' t.
Proof.
  intros Hh Hw (H1 & H2 & H3 & H4 & H5).
  unfold freshly_issued. rewrite <- Hh, <- Hw. auto.
Qed.

(** Entering [_refresh_token] from a state [s0] prepared out of [s]. *)
Lemma refresh_branch api s0 s :
  quiet_api api ->
  Runtime._config_hash (Runtime._auth s0) = Runtime._config_hash (Runtime._auth s) ->
  Runtime.disk_writable s0 = Runtime.disk_writable s ->
  refreshes s0 = refreshes s ->
  let r := Runtime.bind (Api._refresh_token api) (fun _ => Api.return_token) s0 in
  refreshes r.2 = S (refreshes s)
  /\ forall t, r.1 = Runtime.Returns t -> freshly_issued s r.2 t.
Proof.
  intros Hq Hh Hw Hr r.
  destruct (refresh_then_return api s0 Hq) as [H1 H2]. fold r in H1, H2.
  split; [congruence|].
  intros t Ht. eapply freshly_issued_from; eauto.
Qed.

Lemma config_changed_false a :
  Runtime._token_config_hash a = Some (Runtime._config_hash a) ->
  Api.config_changed a = false.
Proof.
  intros H. unfold Api.config_changed. rewrite H.
  now rewrite String.eqb_refl.
Qed.

Lemma config_changed_true a :
  Runtime._token_config_hash a <> Some (Runtime._config_hash a) ->
  Api.config_changed a = true.
Proof.
  intros H. unfold Api.config_changed.
  destruct (Runtime._token_config_hash a) as [h|]; [|reflexivity].
  destruct (String.eqb_spec (Runtime._config_hash a) h) as [E|Hne];
    [congruence|reflexivity].
Qed.

Lemma config_changed_spec a :
  Api.config_changed a = false
  <-> Runtime._token_config_hash a = Some (Runtime._config_hash a).
Proof.
  split; [|apply config_changed_false].
  intros H.
  destruct (decide (Runtime._token_config_hash a
                    = Some (Runtime._config_hash a))) as [E|E]; [exact E|].
  apply config_changed_true in E. congruence.
Qed.

Lemma usable_spec nw a :
  Api.usable nw a = true
  <-> exists t, Runtime._token a = Some t /\ t <> ""
                /\ (nw < Runtime._token_expire a - 300)%Q.
Proof.
  unfold Api.usable. rewrite andb_true_iff, Qltb_lt. split.
  - intros [Ht Hlt]. destruct (Runtime._token a) as [t|]; [|discriminate].
    exists t. repeat split; auto. now apply truthy_nonempty.
  - intros (t & -> & Hne & Hlt). split; [now apply truthy_nonempty|exact Hlt].
Qed.

(** A valid in-memory token is returned as it is. *)
Lemma get_token_memory api s t :
  memory_valid s t -> Api.get_token api s = (Runtime.Returns t, s).
Proof.
  intros (Ht & Hne & Hlt & Hh).
  pose proof (config_changed_false _ Hh) as Hc.
  assert (Hu : Api.usable (Runtime.now s) (Runtime._auth s) = true).
  { apply usable_spec. eauto. }
  unfold Api.get_token, Api.time_time, Api._config_changed. step.
  rewrite Hc. step. rewrite Hu.
  unfold Api.return_token, Runtime.gets. now rewrite Ht.
Qed.

Ltac run_auth :=
  unfold Api.update_auth, Api.log, Api._load_token_cache, Api.return_token,
    Api.reset;
  step.

(** The state in which the disk cache is read: no in-memory token. *)
Lemma usable_no_token nw e h a :
  Api.usable nw (Api.with_token None e h a) = false.
Proof. reflexivity. Qed.

Lemma usable_loaded nw t e h a :
  t <> "" -> (nw < e - 300)%Q ->
  Api.usable nw (Api.with_token (Some t) e h a) = true.
Proof.
  intros Hne Hlt. apply usable_spec. exists t. cbn. auto.
Qed.

Lemma config_unchanged_loaded t e a :
  Api.config_changed
    (Api.with_token t e (Some (Runtime._config_hash a)) a) = false.
Proof. now apply config_changed_false. Qed.

Ltac proj :=
  cbn [Runtime._auth Runtime.token_file Runtime.now Runtime.trace
       Runtime.disk_writable Runtime.disk_truncates Runtime._timestamps
       Api.set_auth Api.set_trace Api.set_token_file Api.set_now].

Lemma loaded_valid nw t0 e0 h a :
  Api.usable nw (Api.with_token t0 e0 h a)
  && negb (Api.config_changed (Api.with_token t0 e0 h a)) = true ->
  exists t, t0 = Some t /\ t <> "" /\ (nw < e0 - 300)%Q
            /\ h = Some (Runtime._config_hash a).
Proof.
  rewrite andb_true_iff, negb_true_iff, usable_spec, config_changed_spec.
  cbn. intros [(t & Ht & Hne & Hlt) Hh]. eauto.
Qed.

Lemma memory_valid_dec s :
  (exists t, memory_valid s t) \/ (forall t, ~ memory_valid s t).
Proof.
  destruct (Api.usable (Runtime.now s) (Runtime._auth s)) eqn:Hu.
  - destruct (Api.config_changed (Runtime._auth s)) eqn:Hc.
    + right. intros t (_ & _ & _ & Hh).
      apply config_changed_false in Hh. congruence.
    + left. apply usable_spec in Hu. destruct Hu as (t & Ht & Hne & Hlt).
      exists t. repeat split; auto. now apply config_changed_spec.
  - right. intros t (Ht & Hne & Hlt & _).
    assert (Api.usable (Runtime.now s) (Runtime._auth s) = true);
      [apply usable_spec; eauto|congruence].
Qed.

Lemma disk_valid_dec s :
  (disk_consulted s /\ exists t, disk_valid s t)
  \/ ~ (disk_consulted s /\ exists t, disk_valid s t).
Proof.
  destruct (Runtime.token_file s) as [| |t0 e0 h] eqn:Hfile;
    try (right; intros [_ (t & e & H & _)]; congruence).
  destruct (Api.usable (Runtime.now s)
              (Api.with_token t0 e0 h (Runtime._auth s))
            && negb (Api.config_changed
                       (Api.with_token t0 e0 h (Runtime._auth s)))) eqn:Hv.
  - destruct (loaded_valid _ _ _ _ _ Hv) as (t & -> & Hne & Hlt & ->).
    destruct (decide (Runtime._token (Runtime._auth s) = None)) as [Hn|Hn].
    { left. split; [now left|]. exists t, e0. auto. }
    destruct (decide (Runtime._token_config_hash (Runtime._auth s)
                      = Some (Runtime._config_hash (Runtime._auth s))))
      as [Hh|Hh].
    + right. intros [[H|H] _]; contradiction.
    + left. split; [now right|]. exists t, e0. auto.
  - right. intros [_ (t & e & H & Hne & Hlt)].
    rewrite Hfile in H. injection H as -> -> ->.
    rewrite (usable_loaded _ t e _ _ Hne Hlt), config_unchanged_loaded in Hv.
    discriminate Hv.
Qed.

(** A valid token on disk, once loaded, is a valid token in memory; the
    file and the clock are as before. *)
Lemma get_token_disk_state api s t :
  disk_consulted s -> disk_valid s t ->
  exists s',
    Api.get_token api s = (Runtime.Returns t, s')
    /\ memory_valid s' t
    /\ Runtime.token_file s' = Runtime.token_file s
    /\ refreshes s' = refreshes s
    /\ Runtime.trace s'
       = Runtime.Logged Runtime.DEBUG "使用缓存的 AccessToken"
           :: Runtime.trace s.
Proof.
  intros Hcons (e & Hfile & Hne & Hlt).
  unfold Api.get_token, Api.time_time, Api._config_changed. step.
  destruct (Api.config_changed (Runtime._auth s)) eqn:Hc.
  - run_auth. proj. rewrite usable_no_token.
    cbn [Api.with_token Runtime._token].
    run_auth. proj. rewrite Hfile. run_auth. proj.
    rewrite (usable_loaded _ t e _ _ Hne Hlt).
    change (Runtime._config_hash (Runtime._auth s))
      with (Runtime._config_hash
              (Api.with_token None 0 None (Runtime._auth s))) at 1.
    rewrite config_unchanged_loaded. cbn [andb negb].
    run_auth. eexists. split; [reflexivity|].
    unfold memory_valid. proj. cbn. rewrite Hfile. repeat split; auto.
  - apply config_changed_spec in Hc.
    destruct Hcons as [Htok|Hne']; [|contradiction].
    step.
    assert (Hu : Api.usable (Runtime.now s) (Runtime._auth s) = false).
    { unfold Api.usable. now rewrite Htok. }
    rewrite Hu, Htok. run_auth. rewrite Hfile. run_auth. proj.
    rewrite (usable_loaded _ t e _ _ Hne Hlt), config_unchanged_loaded.
    cbn [andb negb]. run_auth. eexists. split; [reflexivity|].
    unfold memory_valid. proj. cbn. rewrite Hfile. repeat split; auto.
Qed.

(** What a refresh leaves: a token that is valid in memory when it
    returns, the token file as it was when it raises. *)
Lemma refresh_outcome api s :
  quiet_api api ->
  let r := Runtime.bind (Api._refresh_token api) (fun _ => Api.return_token) s in
  (forall t, r.1 = Runtime.Returns t -> memory_valid r.2 t)
  /\ (forall e, r.1 = Runtime.Raises e ->
      Runtime.token_file r.2 = Runtime.token_file s).
Proof.
  intros Hq.
  cbv beta iota zeta delta
    [Runtime.bind Api._refresh_token Api.log Runtime.modify Runtime.gets
     Api.time_time Api.update_auth Api.return_token Api._save_token_cache
     Runtime.raise Runtime.ret].
  match goal with
  | |- context [api ?m ?u ?c ?sl true ?kw ?s1] =>
      pose proof (Hq m u c sl kw s1) as Hquiet;
      destruct (api m u c sl true kw s1) as [[result|e] s2]
  end; cbn [snd] in Hquiet;
    destruct Hquiet as (Href & Hauth & Hfile & Hwr);
    cbn in Hauth, Hfile, Hwr; cbn [fst snd].
  2:{ split; [discriminate|]. intros _ _. exact Hfile. }
  cbn.
  destruct (default ∅ (Runtime.data result) !! "access_token") as [t|] eqn:Ht;
    cbn; [|split; [discriminate|intros _ _; exact Hfile]].
  destruct (Py.truthy t) eqn:Htruthy; cbn;
    [|split; [discriminate|intros _ _; exact Hfile]].
  destruct (Runtime.disk_writable s2) eqn:Hw; cbn;
    [|destruct (Runtime.disk_truncates s2); cbn];
    (split; [|discriminate]); intros t' [= <-];
    unfold memory_valid; cbn;
    (repeat split; [now apply truthy_nonempty|lra]).
Qed.

(** Two states of the same world that differ in the cached token only. *)
Definition same_but_token (s s0 : Runtime.state) : Prop :=
  Runtime.now s0 = Runtime.now s
  /\ Runtime.token_file s0 = Runtime.token_file s
  /\ Runtime.disk_writable s0 = Runtime.disk_writable s
  /\ Runtime.trace s0 = Runtime.trace s
  /\ Runtime._timestamps s0 = Runtime._timestamps s
  /\ Runtime._config_hash (Runtime._auth s0)
     = Runtime._config_hash (Runtime._auth s)
  /\ Runtime._app_id (Runtime._auth s0) = Runtime._app_id (Runtime._auth s)
  /\ Runtime._secret_key (Runtime._auth s0)
     = Runtime._secret_key (Runtime._auth s).

Lemma load_then_refresh_from api s a0 :
  Runtime._config_hash a0 = Runtime._config_hash (Runtime._auth s) ->
  Runtime._app_id a0 = Runtime._app_id (Runtime._auth s) ->
  Runtime._secret_key a0 = Runtime._secret_key (Runtime._auth s) ->
  Runtime._token a0 = None ->
  ~ (exists t, disk_valid s t) ->
  exists s0,
    Runtime.bind Api._load_token_cache
      (fun _ =>
         Runtime.bind (Runtime.gets Runtime._auth)
           (fun a =>
              if Api.usable (Runtime.now s) a && negb (Api.config_changed a)
              then Runtime.bind (Api.log Runtime.DEBUG "使用缓存的 AccessToken")
                     (fun _ => Api.return_token)
              else Runtime.bind
                     (if Api.config_changed a
                      then Api.update_auth (Api.with_token None 0 None)
                      else Runtime.ret tt)
                     (fun _ => Runtime.bind (Api._refresh_token api)
                                 (fun _ => Api.return_token))))
      (Api.set_auth a0 s)
    = Runtime.bind (Api._refresh_token api) (fun _ => Api.return_token) s0
    /\ same_but_token s s0.
Proof.
  intros Hh Hid Hkey Htok Hdisk.
  assert (Hu0 : Api.usable (Runtime.now s) a0 = false).
  { unfold Api.usable. now rewrite Htok. }
  unfold Api._load_token_cache. step. proj.
  destruct (Runtime.token_file s) as [| |t0 e0 h] eqn:Hfile.
  - step. proj. rewrite Hu0. cbn [andb].
    destruct (Api.config_changed a0); unfold Api.update_auth; step;
      eexists; (split; [reflexivity|]); repeat split; proj; cbn; auto.
  - unfold Api.update_auth. step. proj. rewrite usable_no_token. cbn [andb].
    destruct (Api.config_changed _); step;
      eexists; (split; [reflexivity|]); repeat split; proj; cbn; auto.
  - unfold Api.update_auth. step. proj.
    destruct (Api.usable _ _ && negb _) eqn:Hv.
    + exfalso. apply Hdisk.
      destruct (loaded_valid _ _ _ _ _ Hv) as (t & -> & Hne & Hlt & ->).
      exists t, e0. rewrite Hfile, Hh. auto.
    + destruct (Api.config_changed _); step;
        eexists; (split; [reflexivity|]); repeat split; proj; cbn; auto.
Qed.

(** Without a valid cached token, the refresh starts in the world
    [get_token] was called in. *)
Lemma get_token_refresh_from api s :
  (forall t, ~ memory_valid s t) ->
  ~ (disk_consulted s /\ exists t, disk_valid s t) ->
  exists s0,
    Api.get_token api s
    = Runtime.bind (Api._refresh_token api) (fun _ => Api.return_token) s0
    /\ same_but_token s s0.
Proof.
  intros Hmem Hdisk.
  unfold Api.get_token, Api.time_time, Api._config_changed. step.
  destruct (Api.config_changed (Runtime._auth s)) eqn:Hc.
  - unfold Api.update_auth at 1. step. proj. rewrite usable_no_token.
    cbn [Api.with_token Runtime._token].
    apply (load_then_refresh_from api s
             (Api.with_token None 0 None (Runtime._auth s)));
      [reflexivity|reflexivity|reflexivity|reflexivity|].
    intros Hd. apply Hdisk. split; [right|exact Hd].
    intros E. apply config_changed_false in E. congruence.
  - step.
    destruct (Api.usable (Runtime.now s) (Runtime._auth s)) eqn:Hu.
    + exfalso. apply usable_spec in Hu. destruct Hu as (t & Ht & Hne & Hlt).
      apply (Hmem t). repeat split; auto. now apply config_changed_spec.
    + destruct (Runtime._token (Runtime._auth s)) as [t|] eqn:Htok.
      * exists s. split; [reflexivity|]. repeat split.
      * destruct (load_then_refresh_from api s (Runtime._auth s))
          as (s0 & E & Hp);
          [reflexivity|reflexivity|reflexivity|exact Htok| |].
        { intros Hd. apply Hdisk. split; [now left|exact Hd]. }
        exists s0. split; [|exact Hp]. rewrite <- E.
        now destruct s.
Qed.

Lemma json_request_quiet_api server oversleep depth :
  quiet_api (Api.json_request server oversleep depth).
Proof. intros method url category silent kw. apply quiet_json_request_retried. Qed.

(** Every way [get_token] can end, by the three cases of its policy. *)
Lemma get_token_cases api s :
  quiet_api api ->
  (exists t, memory_valid s t /\ Api.get_token api s = (Runtime.Returns t, s))
  \/ (exists t s',
        (forall t', ~ memory_valid s t')
        /\ disk_valid s t
        /\ Api.get_token api s = (Runtime.Returns t, s')
        /\ memory_valid s' t
        /\ Runtime.token_file s' = Runtime.token_file s
        /\ refreshes s' = refreshes s)
  \/ (exists s0,
        (forall t', ~ memory_valid s t')
        /\ ~ (disk_consulted s /\ exists t, disk_valid s t)
        /\ same_but_token s s0
        /\ Api.get_token api s
           = Runtime.bind (Api._refresh_token api)
               (fun _ => Api.return_token) s0).
Proof.
  intros Hq.
  destruct (memory_valid_dec s) as [(t & Hv)|Hm].
  { left. exists t. split; [exact Hv|now apply get_token_memory]. }
  right.
  destruct (disk_valid_dec s) as [[Hc (t & Hv)]|Hd].
  - left. destruct (get_token_disk_state api s t Hc Hv)
      as (s' & E & Hv' & Hf & Hr & _).
    exists t, s'. auto 10.
  - right. destruct (get_token_refresh_from api s Hm Hd) as (s0 & E & Hs).
    exists s0. auto.
Qed.

(** *** The exchanges of a refresh *)

(** The requests of a trace, most recent first. *)
Definition requests (tr : list Runtime.event) : list Runtime.http_request :=
  omap (fun e => match e with Runtime.Sent rq => Some rq | _ => None end) tr.

Lemma sent_requests s : sent s = length (requests (Runtime.trace s)).
Proof.
  unfold sent, requests. induction (Runtime.trace s) as [|e tr IH];
    [reflexivity|].
  destruct e; simpl; now rewrite ?IH.
Qed.

(** A step that makes no HTTP exchange. *)
Definition silent_action {A} (c : Runtime.M A) : Prop :=
  forall s, requests (Runtime.trace (c s).2) = requests (Runtime.trace s).

Lemma silent_ret {A} (a : A) : silent_action (Runtime.ret a).
Proof. intros s. reflexivity. Qed.

Lemma silent_raise {A} e : silent_action (@Runtime.raise A e).
Proof. intros s. reflexivity. Qed.

Lemma silent_gets {A} (f : Runtime.state -> A) : silent_action (Runtime.gets f).
Proof. intros s. reflexivity. Qed.

Lemma silent_bind {A B} (c : Runtime.M A) (k : A -> Runtime.M B) :
  silent_action c -> (forall a, silent_action (k a)) ->
  silent_action (Runtime.bind c k).
Proof.
  intros Hc Hk s. unfold Runtime.bind.
  specialize (Hc s). destruct (c s) as [[a|e] s1]; simpl in *.
  - now rewrite Hk.
  - exact Hc.
Qed.

Lemma silent_log lvl fmt : silent_action (Api.log lvl fmt).
Proof. intros s. reflexivity. Qed.

Lemma silent_sleep oversleep d : silent_action (Api.time_sleep oversleep d).
Proof. intros s. unfold Api.time_sleep. now destruct (Api.Qltb d 0). Qed.

Lemma silent_update_auth f : silent_action (Api.update_auth f).
Proof. intros s. reflexivity. Qed.

Lemma silent_wait oversleep category silent :
  silent_action (Api.wait oversleep category silent).
Proof.
  unfold Api.wait.
  apply silent_bind; [apply silent_gets|intros last_time].
  apply silent_bind; [apply silent_gets|intros t].
  apply silent_bind.
  - destruct (Api.Qltb _ _); [|apply silent_ret].
    apply silent_bind; [|intros _; apply silent_sleep].
    destruct silent; [apply silent_ret|apply silent_log].
  - intros _. apply silent_bind; [apply silent_gets|intros t'].
    intros s. reflexivity.
Qed.

Lemma silent_save_token_cache : silent_action Api._save_token_cache.
Proof.
  unfold Api._save_token_cache.
  apply silent_bind; [apply silent_gets|intros w].
  destruct w; [intros s; reflexivity|].
  apply silent_bind; [apply silent_gets|intros emptied].
  apply silent_bind; [|intros _; apply silent_log].
  destruct emptied; [intros s; reflexivity|apply silent_ret].
Qed.

Lemma repeat_snoc {A} (x : A) k l :
  (repeat x k ++ x :: l = repeat x (S k) ++ l)%list.
Proof. induction k as [|k IH]; [reflexivity|]. simpl. now rewrite IH. Qed.

(** The exchanges of the retry loop: at most [n], at least one when
    [n > 0], all of them the same request; a response it returns is the
    answer to the last of them. *)
Lemma request_loop_exchanges server oversleep method url max_retries
    retry_delay kw :
  Runtime.kw_timeout kw <> None ->
  forall n a last s,
    let rq := {| Runtime.rq_method := method; Runtime.rq_url := url;
                 Runtime.rq_kwargs := kw |} in
    let r := Api.request_loop server oversleep n a method url max_retries
               retry_delay kw last s in
    exists k,
      (k <= n)%nat /\ ((0 < n)%nat -> (0 < k)%nat)
      /\ requests (Runtime.trace r.2) = (repeat rq k ++ requests (Runtime.trace s))%list
      /\ forall resp, r.1 = Runtime.Returns resp ->
           (0 < k)%nat
           /\ attempt_result (server (sent s + k - 1)%nat rq)
              = Runtime.Returns resp.
Proof.
  intros Hto. induction n as [|n IH]; intros a last s; cbv zeta.
  - exists 0%nat. split; [lia|]. split; [lia|]. split; [reflexivity|].
    intros resp H. discriminate H.
  - cbn [Api.request_loop]. rewrite (normal_kwargs kw Hto).
    unfold Runtime.try_except.
    destruct (attempt_once_spec server method url kw s) as (s1 & E & Htr).
    rewrite E. unfold attempt_at.
    set (rq := {| Runtime.rq_method := method; Runtime.rq_url := url;
                  Runtime.rq_kwargs := kw |}) in *.
    assert (Hreq1 : requests (Runtime.trace s1) = rq :: requests (Runtime.trace s)).
    { now rewrite Htr. }
    assert (Hsent1 : sent s1 = S (sent s)).
    { rewrite !sent_requests, Hreq1. reflexivity. }
    destruct (attempt_result (server (sent s) rq)) as [resp|e] eqn:Hat.
    + exists 1%nat. cbn [fst snd].
      split; [lia|]. split; [lia|]. split; [exact Hreq1|].
      intros resp' [= <-]. split; [lia|].
      now replace (sent s + 1 - 1)%nat with (sent s) by lia.
    + assert (Hstop : forall e',
                exists k, (k <= S n)%nat /\ ((0 < S n)%nat -> (0 < k)%nat)
                  /\ requests (Runtime.trace (@Runtime.raise Runtime.response e' s1).2)
                     = (repeat rq k ++ requests (Runtime.trace s))%list
                  /\ forall resp,
                       (@Runtime.raise Runtime.response e' s1).1
                       = Runtime.Returns resp ->
                       (0 < k)%nat
                       /\ attempt_result (server (sent s + k - 1)%nat rq)
                          = Runtime.Returns resp).
      { intros e'. exists 1%nat. cbn [Runtime.raise fst snd].
        split; [lia|]. split; [lia|]. split; [exact Hreq1|].
        intros resp H. discriminate H. }
      assert (Hgo : forall (pre : Runtime.M unit) e',
                silent_action pre ->
                exists k, (k <= S n)%nat /\ ((0 < S n)%nat -> (0 < k)%nat)
                  /\ requests
                       (Runtime.trace
                          (Runtime.bind pre
                             (fun _ => Api.request_loop server oversleep n
                                         (a + 1) method url max_retries
                                         retry_delay kw (Some e')) s1).2)
                     = (repeat rq k ++ requests (Runtime.trace s))%list
                  /\ forall resp,
                       (Runtime.bind pre
                          (fun _ => Api.request_loop server oversleep n
                                      (a + 1) method url max_retries
                                      retry_delay kw (Some e')) s1).1
                       = Runtime.Returns resp ->
                       (0 < k)%nat
                       /\ attempt_result (server (sent s + k - 1)%nat rq)
                          = Runtime.Returns resp).
      { intros pre e' Hpre. unfold Runtime.bind.
        specialize (Hpre s1). destruct (pre s1) as [[[]|e2] s2]; cbn [snd] in Hpre.
        - destruct (IH (a + 1) (Some e') s2) as (k & Hk & _ & Hreq & Hres).
          cbv zeta in Hreq, Hres. fold rq in Hreq, Hres.
          exists (S k). split; [lia|]. split; [lia|]. split.
          + rewrite Hreq, Hpre, Hreq1. apply repeat_snoc.
          + intros resp Hr. destruct (Hres resp Hr) as [Hpos Hans].
            split; [lia|].
            assert (Hs2 : sent s2 = S (sent s)).
            { rewrite sent_requests, Hpre, <- sent_requests. exact Hsent1. }
            rewrite Hs2 in Hans.
            now replace (sent s + S k - 1)%nat with (S (sent s) + k - 1)%nat
              by lia.
        - exists 1%nat. cbn [fst snd].
          split; [lia|]. split; [lia|]. split; [now rewrite Hpre, Hreq1|].
          intros resp H. discriminate H. }
      destruct e; try apply Hstop; apply Hgo;
        (destruct (a <? max_retries); [|apply silent_ret]);
        (apply silent_bind; [apply silent_log|intros _; apply silent_sleep]).
Qed.

(** The exchanges of [json_request(..., _retried_auth=True)]: at most
    three, all of them the request it was called for; a body it returns
    is the parsed answer to the last of them, and has code 0. *)
Lemma json_request_retried_exchanges server oversleep depth method url
    category silent kw s :
  let rq := {| Runtime.rq_method := method; Runtime.rq_url := url;
               Runtime.rq_kwargs := with_default_timeout kw |} in
  let r := Api.json_request server oversleep depth method url category silent
             true kw s in
  exists k,
    (k <= 3)%nat /\ ((0 < depth)%nat -> (0 < k)%nat)
    /\ requests (Runtime.trace r.2) = (repeat rq k ++ requests (Runtime.trace s))%list
    /\ forall result, r.1 = Runtime.Returns result ->
         (0 < k)%nat
         /\ exists resp,
              attempt_result (server (sent s + k - 1)%nat rq)
              = Runtime.Returns resp
              /\ Runtime.content resp = Runtime.Json result
              /\ Runtime.code result = Some 0.
Proof.
  cbv zeta. destruct depth as [|depth].
  { exists 0%nat. cbn [Api.json_request Runtime.raise fst snd].
    split; [lia|]. split; [lia|]. split; [reflexivity|].
    intros result H. discriminate H. }
  cbn [Api.json_request]. unfold Api.request, Runtime.bind.
  pose proof (silent_wait oversleep category silent s) as Hw.
  destruct (wait_returns oversleep category silent s) as (s0 & E0).
  rewrite E0 in Hw |- *. cbn [snd] in Hw.
  rewrite loop_default_timeout.
  destruct (request_loop_exchanges server oversleep method url 3 3
              (with_default_timeout kw) (with_default_timeout_set kw)
              (Z.to_nat 3) 1 None s0) as (k & Hk & Hpos & Hreq & Hres).
  cbv zeta in Hreq, Hres.
  assert (Hs0 : sent s0 = sent s) by now rewrite !sent_requests, Hw.
  rewrite Hs0 in Hres. rewrite Hw in Hreq.
  exists k. split; [exact Hk|]. split; [intros _; apply Hpos; cbn; lia|].
  destruct (Api.request_loop _ _ _ _ _ _ _ _ _ _ s0) as [[resp|e] s1];
    cbn [fst snd] in *.
  2:{ split; [exact Hreq|discriminate]. }
  destruct (Hres resp eq_refl) as [Hk1 Hans].
  unfold Api.response_json.
  destruct (Runtime.content resp) as [|result] eqn:Hc; cbn.
  { split; [exact Hreq|discriminate]. }
  destruct (bool_decide (Runtime.code result = Some 0)) eqn:Hcode; cbn.
  - apply bool_decide_eq_true in Hcode. split; [exact Hreq|].
    intros result' [= <-]. split; [exact Hk1|]. exists resp. auto.
  - rewrite andb_false_r.
    destruct (Api.auth_expired _); cbn; (split; [exact Hreq|discriminate]).
Qed.

(** The request [_refresh_token] makes, as [requests.request] receives it:
    the credentials, posted to the token endpoint. *)
Definition token_request (a : Runtime.auth_state) : Runtime.http_request :=
  {| Runtime.rq_method := "POST";
     Runtime.rq_url := Api.BASE_URL ++ "/open/v1/access_token";
     Runtime.rq_kwargs :=
       {| Runtime.kw_headers := None;
          Runtime.kw_json :=
            Some (<["app_id" := Runtime._app_id a]>
                    (<["secret_key" := Runtime._secret_key a]> ∅));
          Runtime.kw_params := None;
          Runtime.kw_timeout := Some 30 |} |}.

(** As the [n]-th exchange of the run, the platform answers [rq] with a
    body of code 0 whose [data.access_token] is [t]. *)
Definition issues (server : nat -> Runtime.http_request -> Runtime.reply)
    (n : nat) (rq : Runtime.http_request) (t : string) : Prop :=
  exists resp result,
    attempt_result (server n rq) = Runtime.Returns resp
    /\ Runtime.content resp = Runtime.Json result
    /\ Runtime.code result = Some 0
    /\ default ∅ (Runtime.data result) !! "access_token" = Some t.

(** The keyword arguments [_refresh_token] passes to [json_request]. *)
Definition token_kwargs (a : Runtime.auth_state) : Runtime.kwargs :=
  {| Runtime.kw_headers := None;
     Runtime.kw_json :=
       Some (<["app_id" := Runtime._app_id a]>
               (<["secret_key" := Runtime._secret_key a]> ∅));
     Runtime.kw_params := None; Runtime.kw_timeout := None |}.

Lemma save_token_cache_returns s :
  exists s', Api._save_token_cache s = (Runtime.Returns tt, s')
             /\ Runtime._auth s' = Runtime._auth s
             /\ requests (Runtime.trace s') = requests (Runtime.trace s).
Proof.
  unfold Api._save_token_cache, Runtime.bind, Runtime.gets, Runtime.modify,
    Api.log, Runtime.ret, Runtime.modify.
  destruct (Runtime.disk_writable s); [eexists; repeat split|].
  destruct (Runtime.disk_truncates s); eexists; repeat split.
Qed.

(** [_refresh_token] followed by [return self._token], step by step. *)
Lemma refresh_unfold api s :
  let s1 := Api.set_trace
              (Runtime.Logged Runtime.INFO "正在获取 AccessToken..."
                 :: Runtime.trace s) s in
  exists tail : Runtime.api_result -> Runtime.state
                -> Runtime.result string * Runtime.state,
    Runtime.bind (Api._refresh_token api) (fun _ => Api.return_token) s
    = match api "POST" (Api.BASE_URL ++ "/open/v1/access_token") "default"
              false true (token_kwargs (Runtime._auth s)) s1 with
      | (Runtime.Returns result, s2) => tail result s2
      | (Runtime.Raises e, s2) => (Runtime.Raises e, s2)
      end
    /\ forall result s2,
         requests (Runtime.trace (tail result s2).2)
         = requests (Runtime.trace s2)
         /\ forall t, (tail result s2).1 = Runtime.Returns t ->
              default ∅ (Runtime.data result) !! "access_token" = Some t.
Proof.
  cbv zeta.
  exists (fun result s2 =>
            Runtime.bind
              (Runtime.bind Api.time_time
                 (fun t =>
                    Runtime.bind
                      (Api.update_auth
                         (fun a =>
                            Api.with_token
                              (default ∅ (Runtime.data result) !! "access_token")
                              (t + 24 * 3600)%Q
                              (Some (Runtime._config_hash a)) a))
                      (fun _ =>
                         Runtime.bind
                           (Runtime.gets
                              (fun s => Runtime._token (Runtime._auth s)))
                           (fun tok =>
                              if negb (Py.truthy_opt tok)
                              then Runtime.raise Runtime.EmptyAccessToken
                              else Runtime.bind Api._save_token_cache
                                     (fun _ =>
                                        Api.log Runtime.INFO
                                          "AccessToken 获取成功并已缓存")))))
              (fun _ => Api.return_token) s2).
  split.
  - unfold Api._refresh_token, Api.log. step. unfold Runtime.bind at 1.
    cbn [Runtime._auth Api.set_trace].
    change (Api.json_request_t) with
      (string -> string -> string -> bool -> bool -> Runtime.kwargs
       -> Runtime.M Runtime.api_result) in api.
    fold (token_kwargs (Runtime._auth s)).
    destruct (api _ _ _ _ _ _ _) as [[result|e] s2]; [|reflexivity].
    now rewrite !bind_assoc.
  - intros result s2. unfold Api.time_time, Api.update_auth. step.
    cbn [Runtime._auth Api.set_auth Api.with_token Runtime._token].
    destruct (default ∅ (Runtime.data result) !! "access_token") as [t|];
      [|split; [reflexivity|discriminate]].
    cbn [Py.truthy_opt]. destruct (Py.truthy t) eqn:Ht; cbn [negb];
      [|split; [reflexivity|discriminate]].
    step. unfold Runtime.bind at 1 3.
    match goal with
    | |- context [Api._save_token_cache ?s3] =>
        destruct (save_token_cache_returns s3) as (s4 & -> & Hauth & Hreq)
    end.
    unfold Api.log. step. unfold Api.return_token, Runtime.gets. cbn [fst snd].
    cbn [Runtime._auth Api.set_trace Runtime.trace].
    split; [exact Hreq|].
    rewrite Hauth. cbn. now intros t' [= <-].
Qed.

(** A refresh makes between one and three exchanges, all of them the
    token request for the credentials of the client, and the token it
    returns is the one the platform issued in the last of them. *)
Lemma refresh_exchanges server oversleep depth s :
  let r := Runtime.bind
             (Api._refresh_token (Api.json_request server oversleep depth))
             (fun _ => Api.return_token) s in
  let rq := token_request (Runtime._auth s) in
  exists k,
    (k <= 3)%nat /\ ((0 < depth)%nat -> (0 < k)%nat)
    /\ requests (Runtime.trace r.2) = (repeat rq k ++ requests (Runtime.trace s))%list
    /\ forall t, r.1 = Runtime.Returns t ->
         (0 < k)%nat /\ issues server (sent s + k - 1)%nat rq t.
Proof.
  cbv zeta.
  destruct (refresh_unfold (Api.json_request server oversleep depth) s)
    as (tail & -> & Htail).
  set (s1 := Api.set_trace
               (Runtime.Logged Runtime.INFO "正在获取 AccessToken..."
                  :: Runtime.trace s) s).
  destruct (json_request_retried_exchanges server oversleep depth "POST"
              (Api.BASE_URL ++ "/open/v1/access_token") "default" false
              (token_kwargs (Runtime._auth s)) s1)
    as (k & Hk & Hpos & Hreq & Hres).
  cbv zeta in Hreq, Hres.
  change (requests (Runtime.trace s1)) with (requests (Runtime.trace s)) in Hreq.
  change (sent s1) with (sent s) in Hres.
  change {| Runtime.rq_method := "POST";
            Runtime.rq_url := Api.BASE_URL ++ "/open/v1/access_token";
            Runtime.rq_kwargs :=
              with_default_timeout (token_kwargs (Runtime._auth s)) |}
    with (token_request (Runtime._auth s)) in Hreq, Hres.
  exists k. split; [exact Hk|]. split; [exact Hpos|].
  destruct (Api.json_request _ _ _ _ _ _ _ _ _ s1) as [[result|e] s2];
    cbn [fst snd] in Hreq, Hres |- *.
  2:{ split; [exact Hreq|discriminate]. }
  destruct (Htail result s2) as [Hsilent Htok].
  destruct (Hres result eq_refl) as (Hk1 & resp & Hans & Hc & Hcode).
  split; [now rewrite Hsilent|].
  intros t Ht. split; [exact Hk1|].
  exists resp, result. auto using Htok.
Qed.

(** C1: [get_token] returns the cached token, with no refresh and no
    HTTP exchange, when the in-memory token is non-empty, more than 300 s
    before its expiry and carries the fingerprint of the current
    credentials, or when no in-memory token survives the fingerprint check
    and the token file holds such a token; it returns a cached token only
    in these two cases.  In every other case [_refresh_token] is entered
    exactly once: the client posts its credentials to the token endpoint
    (one to three times, the retries of the request layer, and nothing
    else is sent), and a token the call returns is the [data.access_token]
    of the platform's answer to the last of these exchanges, stored in
    memory, and on disk when the file can be written, with the expiry
    "clock at issuance + 24 h" and the current fingerprint. *)
Theorem get_token_cache_policy
    (server : nat -> Runtime.http_request -> Runtime.reply)
    (oversleep : nat -> Q) (depth : nat) (s : Runtime.state) :
  let api := Api.json_request server oversleep depth in
  let res := (Api.get_token api s).1 in
  let s' := (Api.get_token api s).2 in
  let rq := token_request (Runtime._auth s) in
  (forall t, memory_valid s t -> res = Runtime.Returns t /\ s' = s)
  /\ (forall t, disk_consulted s -> disk_valid s t ->
      res = Runtime.Returns t /\ refreshes s' = refreshes s
      /\ requests (Runtime.trace s') = requests (Runtime.trace s)
      /\ Runtime._token (Runtime._auth s') = Some t)
  /\ ((forall t, ~ memory_valid s t) ->
      ~ (disk_consulted s /\ exists t, disk_valid s t) ->
      refreshes s' = S (refreshes s)
      /\ (exists k,
            (k <= 3)%nat /\ ((0 < depth)%nat -> (0 < k)%nat)
            /\ requests (Runtime.trace s')
               = (repeat rq k ++ requests (Runtime.trace s))%list
            /\ forall t, res = Runtime.Returns t ->
                 (0 < k)%nat /\ issues server (sent s + k - 1)%nat rq t)
      /\ forall t, res = Runtime.Returns t -> freshly_issued s s' t)
  /\ (refreshes s' = refreshes s ->
      exists t, res = Runtime.Returns t
                /\ (memory_valid s t \/ (disk_consulted s /\ disk_valid s t))).
Proof.
  cbv zeta. set (api := Api.json_request server oversleep depth).
  assert (Hq : quiet_api api) by apply json_request_quiet_api.
  assert (Hmem : forall t, memory_valid s t ->
            (Api.get_token api s).1 = Runtime.Returns t
            /\ (Api.get_token api s).2 = s).
  { intros t Hv. now rewrite (get_token_memory api s t Hv). }
  assert (Hdisk : forall t, disk_consulted s -> disk_valid s t ->
            (Api.get_token api s).1 = Runtime.Returns t
            /\ refreshes (Api.get_token api s).2 = refreshes s
            /\ requests (Runtime.trace (Api.get_token api s).2)
               = requests (Runtime.trace s)
            /\ Runtime._token (Runtime._auth (Api.get_token api s).2) = Some t).
  { intros t Hc Hv.
    destruct (get_token_disk_state api s t Hc Hv)
      as (s' & -> & Hv' & _ & Hr & Htr).
    cbn [fst snd]. split; [reflexivity|]. split; [exact Hr|].
    split; [now rewrite Htr|apply Hv']. }
  assert (Hnew : (forall t, ~ memory_valid s t) ->
            ~ (disk_consulted s /\ exists t, disk_valid s t) ->
            refreshes (Api.get_token api s).2 = S (refreshes s)
            /\ (exists k,
                  (k <= 3)%nat /\ ((0 < depth)%nat -> (0 < k)%nat)
                  /\ requests (Runtime.trace (Api.get_token api s).2)
                     = (repeat (token_request (Runtime._auth s)) k
                          ++ requests (Runtime.trace s))%list
                  /\ forall t, (Api.get_token api s).1 = Runtime.Returns t ->
                       (0 < k)%nat
                       /\ issues server (sent s + k - 1)%nat
                            (token_request (Runtime._auth s)) t)
            /\ forall t, (Api.get_token api s).1 = Runtime.Returns t ->
                 freshly_issued s (Api.get_token api s).2 t).
  { intros Hm Hd.
    destruct (get_token_refresh_from api s Hm Hd)
      as (s0 & -> & _ & _ & Hw & Htr & _ & Hh & Hid & Hkey).
    assert (Hr : refreshes s0 = refreshes s) by (unfold refreshes; now rewrite Htr).
    destruct (refresh_branch api s0 s Hq Hh Hw Hr) as [Hone Hfresh].
    cbv zeta in Hone, Hfresh.
    split; [exact Hone|]. split; [|exact Hfresh].
    destruct (refresh_exchanges server oversleep depth s0)
      as (k & Hk & Hpos & Hreq & Hres).
    cbv zeta in Hreq, Hres. fold api in Hreq, Hres.
    assert (Hrq : token_request (Runtime._auth s0)
                  = token_request (Runtime._auth s)).
    { unfold token_request. now rewrite Hid, Hkey. }
    assert (Hsent : sent s0 = sent s) by (unfold sent; now rewrite Htr).
    rewrite Hrq, Htr in Hreq. rewrite Hrq, Hsent in Hres.
    exists k. auto. }
  split; [exact Hmem|]. split; [exact Hdisk|]. split; [exact Hnew|].
  intros Hsame.
  destruct (memory_valid_dec s) as [(t & Hv)|Hm].
  { exists t. split; [apply (Hmem t Hv)|now left]. }
  destruct (disk_valid_dec s) as [[Hc (t & Hv)]|Hd].
  { exists t. split; [apply (Hdisk t Hc Hv)|now right]. }
  destruct (Hnew Hm Hd) as [Hone _]. lia.
Qed.

(** *** A platform that has revoked the token "stale" *)

Definition token_url : string := Api.BASE_URL ++ "/open/v1/access_token".
Definition detail_url : string := Api.BASE_URL ++ "/open/v1/common/file_detail".

Definition answer (c : Z) (m : string) (d : option (gmap string string))
  : Runtime.reply :=
  {| Runtime.latency := (1 # 10)%Q;
     Runtime.outcome :=
       Runtime.Responds
         {| Runtime.status_code := 200;
            Runtime.content :=
              Runtime.Json {| Runtime.code := Some c; Runtime.msg := Some m;
                              Runtime.data := d |} |} |}.

(** The token endpoint issues "fresh"; every other endpoint accepts
    "fresh" only and answers 10401 otherwise. *)
Definition revoking_server : nat -> Runtime.http_request -> Runtime.reply :=
  fun _ rq =>
    if String.eqb (Runtime.rq_url rq) token_url
    then answer 0 "ok" (Some (<["access_token" := "fresh"]> ∅))
    else
      match Runtime.kw_headers (Runtime.rq_kwargs rq) with
      | Some h =>
          if bool_decide (h !! "access_token" = Some "fresh")
          then answer 0 "ok" None
          else answer 10401 "token expired" None
      | None => answer 10401 "token expired" None
      end.

Definition with_header (token : string) : Runtime.kwargs :=
  {| Runtime.kw_headers := Some (<["access_token" := token]> ∅);
     Runtime.kw_json := None; Runtime.kw_params := None;
     Runtime.kw_timeout := None |}.

(** A client holding the token "stale", in memory and in its token file,
    far from expiry and issued for its current credentials. *)
Definition stale_client : Runtime.state :=
  {| Runtime.now := 1000%Q;
     Runtime.token_file :=
       Runtime.FileData (Some "stale") 50000%Q (Some "id:key");
     Runtime.disk_writable := true; Runtime.disk_truncates := false;
     Runtime.trace := [];
     Runtime._timestamps := ∅;
     Runtime._auth :=
       Api.with_token (Some "stale") 50000%Q (Some "id:key")
         (Api.new_auth (fun s => s) "id" "key") |}.

Example get_token_reuses_memory :
  Api.get_token (Api.json_request revoking_server punctual 3) stale_client
  = (Runtime.Returns "stale", stale_client).
Proof. reflexivity. Qed.

Example get_token_refreshes_fresh_client :
  let r := Api.get_token (Api.json_request revoking_server punctual 3)
             fresh_client in
  r.1 = Runtime.Returns "fresh"
  /\ refreshes r.2 = 1%nat
  /\ Runtime.token_file r.2
     = Runtime.FileData (Some "fresh") (1000 + (1 # 10) + 24 * 3600)%Q
         (Some "id:key").
Proof. repeat split; reflexivity. Qed.

Lemma fresh_client_no_memory t : ~ memory_valid fresh_client t.
Proof. intros (H & _). discriminate H. Qed.

Lemma fresh_client_no_disk :
  ~ (disk_consulted fresh_client /\ exists t, disk_valid fresh_client t).
Proof. intros [_ (t & e & H & _)]. discriminate H. Qed.

Lemma stale_client_memory_valid : memory_valid stale_client "stale".
Proof. repeat split; try discriminate. Qed.

Lemma get_token_cache_policy_witness :
  let api := Api.json_request revoking_server punctual 3 in
  let rq := token_request (Runtime._auth fresh_client) in
  ((Api.get_token api stale_client).1 = Runtime.Returns "stale"
   /\ (Api.get_token api stale_client).2 = stale_client)
  /\ refreshes (Api.get_token api fresh_client).2 = 1%nat
  /\ (exists k,
        requests (Runtime.trace (Api.get_token api fresh_client).2)
        = (repeat rq k ++ [])%list
        /\ (0 < k)%nat
        /\ issues revoking_server (sent fresh_client + k - 1)%nat rq "fresh")
  /\ freshly_issued fresh_client (Api.get_token api fresh_client).2 "fresh".
Proof.
  cbv zeta. split; [|split; [|split]].
  - apply (proj1 (get_token_cache_policy revoking_server punctual 3
                    stale_client) "stale" stale_client_memory_valid).
  - apply (proj1 (proj2 (proj2 (get_token_cache_policy revoking_server
                                  punctual 3 fresh_client)))
             fresh_client_no_memory fresh_client_no_disk).
  - destruct (proj1 (proj2 (proj2 (get_token_cache_policy revoking_server
                                     punctual 3 fresh_client)))
                fresh_client_no_memory fresh_client_no_disk)
      as (_ & (k & _ & _ & Hreq & Hres) & _).
    exists k. split; [exact Hreq|]. apply Hres. reflexivity.
  - apply (proj1 (proj2 (proj2 (get_token_cache_policy revoking_server
                                  punctual 3 fresh_client)))
             fresh_client_no_memory fresh_client_no_disk).
    reflexivity.
Defined.

(** ** JSON business layer (api.py) *)

(** The headers of the exchanges of a run, oldest first. *)
Definition tokens_sent (s : Runtime.state) : list (string * option string) :=
  omap (fun e =>
          match e with
          | Runtime.Sent rq =>
              Some (Runtime.rq_url rq,
                    h ← Runtime.kw_headers (Runtime.rq_kwargs rq);
                    h !! "access_token")
          | _ => None
          end) (rev (Runtime.trace s)).

(** The same client without a token file. *)
Definition stale_client_no_file : Runtime.state :=
  Api.set_token_file Runtime.FileAbsent stale_client.

Example retry_with_fresh_token_when_no_file :
  let r := Api.json_request revoking_server punctual 3 "GET" detail_url
             "default" true false (with_header "stale")
             stale_client_no_file in
  r.1 = Runtime.Returns
          {| Runtime.code := Some 0; Runtime.msg := Some "ok";
             Runtime.data := None |}
  /\ refreshes r.2 = 1%nat
  /\ tokens_sent r.2
     = [(detail_url, Some "stale"); (token_url, None);
        (detail_url, Some "fresh")].
Proof. repeat split; vm_compute; reflexivity. Qed.

(** C2 (failing input): the platform answers 10401 to a request carrying a
    token that the client still holds in its token file.  [json_request]
    resets the auth state and calls [get_token], which reloads the same
    token from disk: no token request is made, the retry carries the
    rejected token again and ends in the permission error. *)
Theorem retry_reuses_token_from_disk :
  let r := Api.json_request revoking_server punctual 3 "GET" detail_url
             "default" true false (with_header "stale") stale_client in
  r.1 = Runtime.Raises (Runtime.AuthRejected 10401 "token expired")
  /\ refreshes r.2 = 0%nat
  /\ tokens_sent r.2 = [(detail_url, Some "stale"); (detail_url, Some "stale")]
  /\ Runtime._token (Runtime._auth r.2) = Some "stale".
Proof. repeat split; vm_compute; reflexivity. Qed.

(** ** Polling loops *)

Section Drive.
Import Polling.
Context {D R St : Type}.
Variable step : tick D -> St -> list effect * run R St.

Lemma drive_continue tk script v effs v' :
  step tk v = (effs, Polling v') ->
  drive step (tk :: script) v = after effs (drive step script v').
Proof. intros H. simpl. now rewrite H. Qed.

Lemma drive_raise tk script v effs e :
  step tk v = (effs, Raised e) ->
  drive step (tk :: script) v = (effs, Raised e).
Proof. intros H. simpl. now rewrite H. Qed.

Lemma drive_done tk script v effs r :
  step tk v = (effs, Done r) ->
  drive step (tk :: script) v = (effs, Done r).
Proof. intros H. simpl. now rewrite H. Qed.

Lemma after_after (e1 e2 : list effect) (r : list effect * run R St) :
  after e1 (after e2 r) = after (e1 ++ e2) r.
Proof. unfold after. simpl. now rewrite app_assoc. Qed.

Lemma after_nil (r : list effect * run R St) : after [] r = r.
Proof. now destruct r. Qed.

(** A run that is still polling after [pre] goes on with what follows. *)
Lemma drive_app pre : forall suf v effs v',
  drive step pre v = (effs, Polling v') ->
  drive step (pre ++ suf) v = after effs (drive step suf v').
Proof.
  induction pre as [|tk pre IH]; intros suf v effs v' H.
  - injection H as <- <-. now rewrite after_nil.
  - simpl in *. destruct (step tk v) as [effs1 [r|e|v1]]; try discriminate.
    destruct (drive step pre v1) as [effs2 r2] eqn:E2.
    unfold after in H. simpl in H. injection H as <- ->.
    rewrite (IH suf v1 effs2 v' E2). now rewrite after_after.
Qed.

End Drive.

Section DriveEnds.
Import Polling.
Context {D R St : Type}.
Variable step : tick D -> St -> list effect * run R St.

(** A run that has returned did so in one of its iterations. *)
Lemma drive_done_from : forall script v effs r,
  drive step script v = (effs, Done r) ->
  exists tk v0 effs0, In tk script /\ step tk v0 = (effs0, Done r).
Proof.
  induction script as [|tk script IH]; intros v effs r H; [discriminate|].
  simpl in H. destruct (step tk v) as [effs1 [r1|e|v1]] eqn:E.
  - injection H as <- <-. exists tk, v, effs1. split; [now left|exact E].
  - discriminate.
  - destruct (drive step script v1) as [effs2 r2] eqn:E2.
    unfold after in H. simpl in H. injection H as <- ->.
    destruct (IH v1 effs2 r E2) as (tk' & v0 & effs0 & Hin & Hstep).
    exists tk', v0, effs0. split; [now right|exact Hstep].
Qed.

(** The iteration after a run that is still polling raises: so does the
    run, with the effects made so far and those of that iteration. *)
Lemma drive_app_raise pre tk rest v effs v' effs1 e :
  drive step pre v = (effs, Polling v') ->
  step tk v' = (effs1, Raised e) ->
  drive step (pre ++ tk :: rest)%list v = ((effs ++ effs1)%list, Raised e).
Proof.
  intros Hpre Hstep. rewrite (drive_app step pre _ _ _ _ Hpre).
  now rewrite (drive_raise step tk rest v' effs1 e Hstep).
Qed.

(** A run that has raised did so in one of its iterations. *)
Lemma drive_raised_from : forall script v effs e,
  drive step script v = (effs, Raised e) ->
  exists tk v0 effs0, In tk script /\ step tk v0 = (effs0, Raised e).
Proof.
  induction script as [|tk script IH]; intros v effs e H; [discriminate|].
  simpl in H. destruct (step tk v) as [effs1 [r1|e1|v1]] eqn:E.
  - discriminate.
  - injection H as <- <-. exists tk, v, effs1. split; [now left|exact E].
  - destruct (drive step script v1) as [effs2 r2] eqn:E2.
    unfold after in H. simpl in H. injection H as <- ->.
    destruct (IH v1 effs2 e E2) as (tk' & v0 & effs0 & Hin & Hstep).
    exists tk', v0, effs0. split; [now right|exact Hstep].
Qed.

End DriveEnds.

(** *** Billing keywords *)

Lemma startswith_app p s : Py.startswith p (p ++ s) = true.
Proof.
  induction p as [|c p IH]; [reflexivity|].
  simpl. now rewrite Ascii.eqb_refl.
Qed.

Lemma contains_here kw post : Py.contains kw (kw ++ post) = true.
Proof.
  destruct kw as [|c kw]; [now destruct post|].
  simpl. now rewrite Ascii.eqb_refl, startswith_app.
Qed.

Lemma contains_app kw pre post : Py.contains kw (pre ++ kw ++ post) = true.
Proof.
  induction pre as [|c pre IH].
  - change ("" ++ kw ++ post) with (kw ++ post). apply contains_here.
  - change (String c pre ++ kw ++ post) with (String c (pre ++ kw ++ post)).
    cbn [Py.contains]. rewrite IH. apply orb_true_r.
Qed.

Lemma any_in_spec kws msg :
  (exists kw pre post, In kw kws /\ msg = pre ++ kw ++ post) ->
  Py.any_in kws msg = true.
Proof.
  intros (kw & pre & post & Hin & ->). unfold Py.any_in.
  apply existsb_exists. exists kw. split; [exact Hin|apply contains_app].
Qed.

(** A non-empty message that mentions a billing keyword makes
    [check_billing_error] raise. *)
Lemma check_billing_error_raises msg :
  msg <> "" ->
  (exists kw pre post,
     In kw Polling.BILLING_KEYWORDS /\ msg = pre ++ kw ++ post) ->
  Polling.check_billing_error msg = Some (Runtime.BillingError msg).
Proof.
  intros Hne Hkw. unfold Polling.check_billing_error.
  apply truthy_nonempty in Hne. rewrite Hne. cbn [negb].
  now rewrite (any_in_spec _ _ Hkw).
Qed.

(** C9: when a TTS polling run receives a response with [status == 9]
    and a non-empty [errMsg] in which one of the billing keywords occurs
    anywhere, the run ends with the billing error, not with the generic
    synthesis error. *)
Theorem tts_billing_error
    (start : Q) (max_wait : Z) (on_progress : bool)
    (before : list (Polling.tick (option Polling.TTS.data)))
    (tk : Polling.tick (option Polling.TTS.data))
    (rest : list (Polling.tick (option Polling.TTS.data)))
    (effs : list Polling.effect) (v : Polling.TTS.vars)
    (d : Polling.TTS.data) (m : string) :
  Polling.TTS._poll start max_wait on_progress before
    = (effs, Polling.Polling v) ->
  Polling.overdue start (Polling.clock tk) max_wait = false ->
  Polling.answer tk = Polling.Answers (Some d) ->
  Polling.TTS.status d = Some 9 ->
  Polling.TTS.errMsg d = Some m ->
  m <> "" ->
  (exists kw pre post,
     In kw Polling.BILLING_KEYWORDS /\ m = pre ++ kw ++ post) ->
  Polling.TTS._poll start max_wait on_progress (before ++ tk :: rest)
  = (effs, Polling.Raised (Runtime.BillingError m)).
Proof.
  intros Hrun Hclock Hans Hst Hmsg Hne Hkw.
  unfold Polling.TTS._poll in *.
  destruct (Polling.drive _ before _) as [effs0 r0] eqn:Hd.
  unfold Polling.after in Hrun. simpl in Hrun. injection Hrun as <- ->.
  rewrite (drive_app _ before (tk :: rest) _ effs0 v Hd).
  assert (Hstep : Polling.TTS.step start max_wait on_progress tk v
                  = ([], Polling.Raised (Runtime.BillingError m))).
  { unfold Polling.TTS.step, Polling.TTS.on_answer.
    rewrite Hclock, Hans, Hst, Hmsg.
    change (default "" (Some m)) with m. change (9 =? 9) with true.
    cbv iota beta zeta.
    assert (Ht : Py.truthy m = true) by now apply truthy_nonempty.
    rewrite Ht. now rewrite (check_billing_error_raises m Hne Hkw). }
  rewrite (drive_raise _ tk rest v [] _ Hstep).
  unfold Polling.after. simpl. now rewrite app_nil_r.
Qed.

Definition tts_failed (m reason : string) : Polling.TTS.data :=
  {| Polling.TTS.status := Some 9; Polling.TTS.errMsg := Some m;
     Polling.TTS.errReason := Some reason;
     Polling.TTS.full_url := None; Polling.TTS.full_duration := None |}.

Definition tts_running : Polling.TTS.data :=
  {| Polling.TTS.status := Some 1; Polling.TTS.errMsg := None;
     Polling.TTS.errReason := None;
     Polling.TTS.full_url := None; Polling.TTS.full_duration := None |}.

Definition tts_finished (url : string) : Polling.TTS.data :=
  {| Polling.TTS.status := Some 9; Polling.TTS.errMsg := None;
     Polling.TTS.errReason := None;
     Polling.TTS.full_url := Some url; Polling.TTS.full_duration := Some 3%Q |}.

Definition at_ {D} (t : Q) (a : Polling.query D) : Polling.tick D :=
  {| Polling.clock := t; Polling.answer := a |}.

Example tts_generic_failure :
  (Polling.TTS._poll 0 600 true
     [at_ 1 (Polling.Answers (Some tts_running));
      at_ 4 (Polling.Answers (Some (tts_failed "文本不合规" "审核")))]).2
  = Polling.Raised (Runtime.TTSFailed "文本不合规" "审核").
Proof. reflexivity. Qed.

Lemma tts_billing_error_witness :
  Polling.TTS._poll 0 600 true
    ([at_ 1 (Polling.Answers (Some tts_running))]
       ++ at_ 4 (Polling.Answers
                   (Some (tts_failed "账户余额不足，请充值" "billing")))
       :: [])
  = ([Polling.Log Runtime.INFO "等待语音合成完成...";
      Polling.Progress "语音合成" 15 "语音合成中..."; Polling.Sleep 3],
     Polling.Raised (Runtime.BillingError "账户余额不足，请充值")).
Proof.
  apply (tts_billing_error 0 600 true
           [at_ 1 (Polling.Answers (Some tts_running))]
           (at_ 4 (Polling.Answers
                     (Some (tts_failed "账户余额不足，请充值" "billing"))))
           [] _ {| Polling.TTS.poll_count := 1;
                   Polling.TTS.consecutive_errors := 0 |}
           (tts_failed "账户余额不足，请充值" "billing")
           "账户余额不足，请充值").
  - reflexivity.
  - reflexivity.
  - reflexivity.
  - reflexivity.
  - reflexivity.
  - discriminate.
  - exists "余额不足", "账户", "，请充值". split; [|reflexivity].
    right; left; reflexivity.
Defined.

(** *** Consecutive status-query failures *)

(** An iteration that is not timed out and whose status query raises. *)
Definition query_fails {D} (start : Q) (max_wait : Z) (tk : Polling.tick D)
    (e : Runtime.exn) : Prop :=
  Polling.overdue start (Polling.clock tk) max_wait = false
  /\ Polling.answer tk = Polling.Fails e.

Definition all_fail {D} (start : Q) (max_wait : Z)
    (ticks : list (Polling.tick D)) : Prop :=
  Forall (fun tk => exists e, query_fails start max_wait tk e) ticks.

Definition tts_vars (pc c : Z) : Polling.TTS.vars :=
  {| Polling.TTS.poll_count := pc; Polling.TTS.consecutive_errors := c |}.

Lemma tts_failure_step start max_wait cb tk e pc c :
  query_fails start max_wait tk e ->
  Polling.TTS.step start max_wait cb tk (tts_vars pc c)
  = if 5 <=? c + 1 then ([], Polling.Raised (Runtime.TTSPollFailed e))
    else ([Polling.Sleep 5], Polling.Polling (tts_vars pc (c + 1))).
Proof.
  intros [Hclock Hans]. unfold Polling.TTS.step. now rewrite Hclock, Hans.
Qed.

(** From [c] consecutive failures, [5 - c] more end the TTS loop at the
    last of them, after a 5 s sleep for each of the others. *)
Lemma tts_failures_abort start max_wait cb : forall ticks rest pc c,
  0 <= c < 5 -> length ticks = Z.to_nat (5 - c) ->
  all_fail start max_wait ticks ->
  exists e tk,
    last ticks = Some tk /\ Polling.answer tk = Polling.Fails e
    /\ Polling.drive (Polling.TTS.step start max_wait cb) (ticks ++ rest)
         (tts_vars pc c)
       = (repeat (Polling.Sleep 5) (length ticks - 1),
          Polling.Raised (Runtime.TTSPollFailed e)).
Proof.
  induction ticks as [|tk ticks IH]; intros rest pc c Hc Hlen Hall.
  - simpl in Hlen. lia.
  - inversion Hall as [|? ? (e & Hf) Hall']; subst.
    pose proof (tts_failure_step start max_wait cb tk e pc c Hf) as Hstep.
    destruct (5 <=? c + 1) eqn:H5.
    + apply Z.leb_le in H5. assert (c = 4) by lia. subst c.
      destruct ticks; [|simpl in Hlen; lia].
      exists e, tk. split; [reflexivity|]. split; [apply Hf|].
      simpl. now rewrite Hstep.
    + apply Z.leb_gt in H5.
      destruct (IH rest pc (c + 1)) as (e' & tk' & Hlast & Hans & Hrun);
        [lia|simpl in Hlen; lia|exact Hall'|].
      exists e', tk'. split; [|split; [exact Hans|]].
      * destruct ticks; [discriminate|exact Hlast].
      * cbn [app]. rewrite (drive_continue _ tk _ _ _ _ Hstep), Hrun.
        unfold Polling.after. cbn [fst snd length].
        destruct ticks; [discriminate|]. simpl. now rewrite Nat.sub_0_r.
Qed.

Definition clone_vars (ls lp c : Z) : Polling.Clone.vars :=
  {| Polling.Clone.last_status := ls; Polling.Clone.last_pct := lp;
     Polling.Clone.consecutive_errors := c |}.

Lemma clone_failure_step start max_wait cb tk e ls lp c :
  query_fails start max_wait tk e ->
  Polling.Clone.step start max_wait cb tk (clone_vars ls lp c)
  = if 5 <=? c + 1 then ([], Polling.Raised (Runtime.ClonePollFailed e))
    else ([Polling.Sleep 5], Polling.Polling (clone_vars ls lp (c + 1))).
Proof.
  intros [Hclock Hans]. unfold Polling.Clone.step. now rewrite Hclock, Hans.
Qed.

Lemma clone_failures_abort start max_wait cb : forall ticks rest ls lp c,
  0 <= c < 5 -> length ticks = Z.to_nat (5 - c) ->
  all_fail start max_wait ticks ->
  exists e tk,
    last ticks = Some tk /\ Polling.answer tk = Polling.Fails e
    /\ Polling.drive (Polling.Clone.step start max_wait cb) (ticks ++ rest)
         (clone_vars ls lp c)
       = (repeat (Polling.Sleep 5) (length ticks - 1),
          Polling.Raised (Runtime.ClonePollFailed e)).
Proof.
  induction ticks as [|tk ticks IH]; intros rest ls lp c Hc Hlen Hall.
  - simpl in Hlen. lia.
  - inversion Hall as [|? ? (e & Hf) Hall']; subst.
    pose proof (clone_failure_step start max_wait cb tk e ls lp c Hf) as Hstep.
    destruct (5 <=? c + 1) eqn:H5.
    + apply Z.leb_le in H5. assert (c = 4) by lia. subst c.
      destruct ticks; [|simpl in Hlen; lia].
      exists e, tk. split; [reflexivity|]. split; [apply Hf|].
      simpl. now rewrite Hstep.
    + apply Z.leb_gt in H5.
      destruct (IH rest ls lp (c + 1)) as (e' & tk' & Hlast & Hans & Hrun);
        [lia|simpl in Hlen; lia|exact Hall'|].
      exists e', tk'. split; [|split; [exact Hans|]].
      * destruct ticks; [discriminate|exact Hlast].
      * cbn [app]. rewrite (drive_continue _ tk _ _ _ _ Hstep), Hrun.
        unfold Polling.after. cbn [fst snd length].
        destruct ticks; [discriminate|]. simpl. now rewrite Nat.sub_0_r.
Qed.

Ltac split_cases H :=
  repeat match type of H with
         | context [match ?x with _ => _ end] => destruct x eqn:?
         end.

(** A successful query resets the TTS failure count. *)
Lemma tts_success_resets start max_wait cb tk r v effs v' :
  Polling.answer tk = Polling.Answers r ->
  Polling.TTS.step start max_wait cb tk v = (effs, Polling.Polling v') ->
  Polling.TTS.consecutive_errors v' = 0.
Proof.
  intros Ha H. unfold Polling.TTS.step in H. rewrite Ha in H.
  unfold Polling.TTS.on_answer in H.
  split_cases H; inversion H; reflexivity.
Qed.

Lemma clone_success_resets start max_wait cb tk r v effs v' :
  Polling.answer tk = Polling.Answers r ->
  Polling.Clone.step start max_wait cb tk v = (effs, Polling.Polling v') ->
  Polling.Clone.consecutive_errors v' = 0.
Proof.
  intros Ha H. unfold Polling.Clone.step in H. rewrite Ha in H.
  unfold Polling.Clone.on_answer in H.
  split_cases H; inversion H; reflexivity.
Qed.

(** What the file-status loop does on one swallowed failure. *)
Definition swallowed (poll_interval : Z) : list Polling.effect :=
  [Polling.Sleep poll_interval;
   Polling.Log Runtime.WARNING "查询文件状态失败: %s，继续等待..."].

(** In the file-status loop any number of failures that are neither a
    [RuntimeError] nor a [TimeoutError] is logged and waited out. *)
Lemma file_failures_continue start poll_interval max_wait : forall ticks,
  Forall (fun tk => exists e, query_fails start max_wait tk e
                              /\ Runtime.class_of e = Runtime.IsOtherException)
    ticks ->
  Polling.FileStatus._poll_file_status start poll_interval max_wait ticks
  = (concat (map (fun _ => swallowed poll_interval) ticks), Polling.Polling tt).
Proof.
  unfold Polling.FileStatus._poll_file_status.
  induction ticks as [|tk ticks IH]; intros Hall; [reflexivity|].
  inversion Hall as [|? ? (e & [Hclock Hans] & Hcls) Hall']; subst.
  assert (Hstep : Polling.FileStatus.step start poll_interval max_wait tk tt
                  = (swallowed poll_interval, Polling.Polling tt)).
  { unfold Polling.FileStatus.step. now rewrite Hclock, Hans, Hcls. }
  rewrite (drive_continue _ tk _ _ _ _ Hstep), (IH Hall'). reflexivity.
Qed.

(** One of the statuses on which the file-status loop gives up. *)
Definition file_gone (status : Z) : Prop :=
  status = 98 \/ status = 99 \/ status = 100.

(** How one iteration of the file-status loop can end the loop. *)
Definition file_returns_at (start : Q) (max_wait : Z)
    (tk : Polling.tick Polling.FileStatus.data) : Prop :=
  Polling.overdue start (Polling.clock tk) max_wait = false
  /\ exists d, Polling.answer tk = Polling.Answers d /\ default 0 d = 1.

Definition file_raises_at (start : Q) (max_wait : Z)
    (tk : Polling.tick Polling.FileStatus.data) (e : Runtime.exn) : Prop :=
  (Polling.overdue start (Polling.clock tk) max_wait = true
   /\ e = Runtime.FileSyncTimeout (Polling.clock tk - start)%Q)
  \/ (Polling.overdue start (Polling.clock tk) max_wait = false
      /\ exists d, Polling.answer tk = Polling.Answers d
           /\ file_gone (default 0 d)
           /\ e = Runtime.FileUnavailable (default 0 d))
  \/ (Polling.overdue start (Polling.clock tk) max_wait = false
      /\ Polling.answer tk = Polling.Fails e
      /\ (Runtime.class_of e = Runtime.IsRuntimeError
          \/ Runtime.class_of e = Runtime.IsTimeoutError)).

Lemma file_step_cases start poll_interval max_wait tk :
  let r := Polling.FileStatus.step start poll_interval max_wait tk tt in
  (r.2 = Polling.Done tt /\ file_returns_at start max_wait tk)
  \/ (exists e, r.2 = Polling.Raised e /\ file_raises_at start max_wait tk e)
  \/ (r.2 = Polling.Polling tt
      /\ Polling.overdue start (Polling.clock tk) max_wait = false
      /\ ((exists d, Polling.answer tk = Polling.Answers d
             /\ default 0 d <> 1 /\ ~ file_gone (default 0 d)
             /\ r.1 = [Polling.Sleep poll_interval])
          \/ (exists e, Polling.answer tk = Polling.Fails e
                /\ Runtime.class_of e = Runtime.IsOtherException
                /\ r.1 = swallowed poll_interval))).
Proof.
  cbv zeta. unfold Polling.FileStatus.step, file_returns_at, file_raises_at.
  destruct (Polling.overdue start (Polling.clock tk) max_wait).
  { right. left. eexists. split; [reflexivity|]. left. auto. }
  destruct (Polling.answer tk) as [d|e].
  - destruct (Z.eqb_spec (default 0 d) 1) as [H1|H1].
    { left. cbn. split; [reflexivity|]. split; [reflexivity|]. eauto. }
    destruct (Z.eqb_spec (default 0 d) 98) as [H98|H98];
      [|destruct (Z.eqb_spec (default 0 d) 99) as [H99|H99];
        [|destruct (Z.eqb_spec (default 0 d) 100) as [H100|H100]]];
      cbn.
    + right. left. eexists. split; [reflexivity|]. right. left.
      split; [reflexivity|]. exists d. unfold file_gone. auto.
    + right. left. eexists. split; [reflexivity|]. right. left.
      split; [reflexivity|]. exists d. unfold file_gone. auto.
    + right. left. eexists. split; [reflexivity|]. right. left.
      split; [reflexivity|]. exists d. unfold file_gone. auto.
    + right. right. split; [reflexivity|]. split; [reflexivity|]. left.
      exists d. unfold file_gone. repeat split; auto. lia.
  - destruct (Runtime.class_of e) eqn:Hcls; cbn.
    + right. left. exists e. split; [reflexivity|]. right. right. auto.
    + right. left. exists e. split; [reflexivity|]. right. right. auto.
    + right. right. split; [reflexivity|]. split; [reflexivity|]. right.
      exists e. auto.
Qed.

(** C5 (as amended): in the TTS and voice-clone polling loops a failed
    status query that is not the fifth in a row is waited out (5 s sleep,
    the loop continues), a successful query resets the count, and the loop
    raises as soon as five consecutive queries have failed; in the
    file-status loop a failed query that is neither a [RuntimeError] nor a
    [TimeoutError] is logged and the loop continues, however many fail in
    a row, and so it does (without logging) on an answer whose status is
    none of 1, 98, 99, 100; that loop returns only on an answer with
    status 1, and raises only on its max-wait timeout, on a status 98, 99
    or 100, or on a query that fails with a [RuntimeError] or a
    [TimeoutError]. *)
Theorem polling_failure_policy (start : Q) (max_wait : Z) (cb : bool) :
  (* TTS *)
  (forall tk e pc c, query_fails start max_wait tk e -> c + 1 < 5 ->
     Polling.TTS.step start max_wait cb tk (tts_vars pc c)
     = ([Polling.Sleep 5], Polling.Polling (tts_vars pc (c + 1))))
  /\ (forall tk r v effs v', Polling.answer tk = Polling.Answers r ->
        Polling.TTS.step start max_wait cb tk v = (effs, Polling.Polling v') ->
        Polling.TTS.consecutive_errors v' = 0)
  /\ (forall ticks rest pc, length ticks = 5%nat ->
        all_fail start max_wait ticks ->
        exists e tk,
          last ticks = Some tk /\ Polling.answer tk = Polling.Fails e
          /\ Polling.drive (Polling.TTS.step start max_wait cb)
               (ticks ++ rest) (tts_vars pc 0)
             = (repeat (Polling.Sleep 5) 4,
                Polling.Raised (Runtime.TTSPollFailed e)))
  (* voice clone *)
  /\ (forall tk e ls lp c, query_fails start max_wait tk e -> c + 1 < 5 ->
        Polling.Clone.step start max_wait cb tk (clone_vars ls lp c)
        = ([Polling.Sleep 5], Polling.Polling (clone_vars ls lp (c + 1))))
  /\ (forall tk r v effs v', Polling.answer tk = Polling.Answers r ->
        Polling.Clone.step start max_wait cb tk v = (effs, Polling.Polling v') ->
        Polling.Clone.consecutive_errors v' = 0)
  /\ (forall ticks rest ls lp, length ticks = 5%nat ->
        all_fail start max_wait ticks ->
        exists e tk,
          last ticks = Some tk /\ Polling.answer tk = Polling.Fails e
          /\ Polling.drive (Polling.Clone.step start max_wait cb)
               (ticks ++ rest) (clone_vars ls lp 0)
             = (repeat (Polling.Sleep 5) 4,
                Polling.Raised (Runtime.ClonePollFailed e)))
  (* file status *)
  /\ (forall poll_interval (ticks : list (Polling.tick Polling.FileStatus.data)),
        Forall (fun tk => exists e, query_fails start max_wait tk e
                  /\ Runtime.class_of e = Runtime.IsOtherException) ticks ->
        Polling.FileStatus._poll_file_status start poll_interval max_wait ticks
        = (concat (map (fun _ => swallowed poll_interval) ticks),
           Polling.Polling tt))
  /\ (forall poll_interval (tk : Polling.tick Polling.FileStatus.data) d,
        Polling.overdue start (Polling.clock tk) max_wait = false ->
        Polling.answer tk = Polling.Answers d ->
        default 0 d <> 1 -> ~ file_gone (default 0 d) ->
        Polling.FileStatus.step start poll_interval max_wait tk tt
        = ([Polling.Sleep poll_interval], Polling.Polling tt))
  /\ (forall poll_interval script effs,
        Polling.FileStatus._poll_file_status start poll_interval max_wait
          script = (effs, Polling.Done tt) ->
        exists tk, In tk script /\ file_returns_at start max_wait tk)
  /\ (forall poll_interval script effs e,
        Polling.FileStatus._poll_file_status start poll_interval max_wait
          script = (effs, Polling.Raised e) ->
        exists tk, In tk script /\ file_raises_at start max_wait tk e).
Proof.
  split; [|split; [|split; [|split; [|split; [|split; [|split;
    [|split; [|split]]]]]]]].
  - intros tk e pc c Hf Hc.
    rewrite (tts_failure_step _ _ _ _ _ _ _ Hf).
    destruct (5 <=? c + 1) eqn:E; [apply Z.leb_le in E; lia|reflexivity].
  - apply tts_success_resets.
  - intros ticks rest pc Hlen Hall.
    destruct (tts_failures_abort start max_wait cb ticks rest pc 0)
      as (e & tk & H1 & H2 & H3); [lia|now rewrite Hlen|exact Hall|].
    rewrite Hlen in H3. eauto.
  - intros tk e ls lp c Hf Hc.
    rewrite (clone_failure_step _ _ _ _ _ _ _ _ Hf).
    destruct (5 <=? c + 1) eqn:E; [apply Z.leb_le in E; lia|reflexivity].
  - apply clone_success_resets.
  - intros ticks rest ls lp Hlen Hall.
    destruct (clone_failures_abort start max_wait cb ticks rest ls lp 0)
      as (e & tk & H1 & H2 & H3); [lia|now rewrite Hlen|exact Hall|].
    rewrite Hlen in H3. eauto.
  - intros poll_interval ticks. apply file_failures_continue.
  - intros poll_interval tk d Hclock Hans H1 Hgone.
    unfold Polling.FileStatus.step. rewrite Hclock, Hans. cbv zeta.
    unfold file_gone in Hgone.
    destruct (Z.eqb_spec (default 0 d) 1); [contradiction|].
    destruct (Z.eqb_spec (default 0 d) 98); [tauto|].
    destruct (Z.eqb_spec (default 0 d) 99); [tauto|].
    destruct (Z.eqb_spec (default 0 d) 100); [tauto|]. reflexivity.
  - intros poll_interval script effs H.
    destruct (drive_done_from _ _ _ _ _ H) as (tk & [] & effs0 & Hin & Hstep).
    exists tk. split; [exact Hin|].
    destruct (file_step_cases start poll_interval max_wait tk)
      as [[_ Hret]|[(e & Hr & _)|(Hr & _)]];
      [exact Hret| |]; rewrite Hstep in Hr; discriminate Hr.
  - intros poll_interval script effs e H.
    destruct (drive_raised_from _ _ _ _ _ H) as (tk & [] & effs0 & Hin & Hstep).
    exists tk. split; [exact Hin|].
    destruct (file_step_cases start poll_interval max_wait tk)
      as [[Hr _]|[(e' & Hr & Hraise)|(Hr & _)]];
      rewrite Hstep in Hr; try discriminate Hr.
    injection Hr as ->. exact Hraise.
Qed.

Definition unreachable : Runtime.exn :=
  Runtime.RetriesExhausted 3 (Some (Runtime.ReqTimeout "read timed out")).

(** Five status queries in a row that fail with the connectivity error. *)
Definition five_failures {D} : list (Polling.tick D) :=
  [at_ 0 (Polling.Fails unreachable); at_ 5 (Polling.Fails unreachable);
   at_ 10 (Polling.Fails unreachable); at_ 15 (Polling.Fails unreachable);
   at_ 20 (Polling.Fails unreachable)].

Lemma five_failures_all_fail {D} : all_fail 0 90 (@five_failures D).
Proof.
  unfold all_fail, five_failures.
  repeat constructor; exists unreachable; split; reflexivity.
Qed.

Example tts_aborts_on_fifth_failure :
  Polling.TTS._poll 0 600 true
    (five_failures ++ [at_ 25 (Polling.Answers (Some (tts_finished "u")))])
  = (Polling.Log Runtime.INFO "等待语音合成完成..."
       :: repeat (Polling.Sleep 5) 4,
     Polling.Raised (Runtime.TTSPollFailed unreachable)).
Proof. reflexivity. Qed.

Example tts_survives_four_failures :
  (Polling.TTS._poll 0 600 true
     (take 4 five_failures
        ++ [at_ 25 (Polling.Answers (Some (tts_finished "u")))])).2
  = Polling.Done ("u", 3%Q).
Proof. reflexivity. Qed.

Definition lip_sync_running (p : Z) : Polling.LipSync.data :=
  {| Polling.LipSync.status := Some 10; Polling.LipSync.progress := Some p;
     Polling.LipSync.msg := None; Polling.LipSync.video_url := None;
     Polling.LipSync.duration := None |}.

(** The lip-sync loop has no handler around its status query: the first
    failure ends it. *)
Example lip_sync_aborts_on_first_failure :
  (Polling.LipSync._poll 0 1800 true
     [at_ 0 (Polling.Answers (Some (lip_sync_running 10)));
      at_ 5 (Polling.Fails unreachable);
      at_ 10 (Polling.Answers (Some (lip_sync_running 20)))]).2
  = Polling.Raised unreachable.
Proof. reflexivity. Qed.

(** C5 (counterexample): the file-status loop goes through five status
    queries that fail in a row and then returns normally on the sixth. *)
Lemma file_status_survives_five_failures :
  length (@five_failures Polling.FileStatus.data) = 5%nat
  /\ all_fail 0 90 (@five_failures Polling.FileStatus.data)
  /\ Polling.FileStatus._poll_file_status 0 3 90
       (five_failures ++ [at_ 25 (Polling.Answers (Some 1))])
     = ((concat (map (fun _ => swallowed 3) (@five_failures
                                               Polling.FileStatus.data))
           ++ [Polling.Sleep 3;
               Polling.Log Runtime.INFO "文件同步完成（耗时 %ds）"])%list,
        Polling.Done tt).
Proof.
  split; [reflexivity|]. split; [apply five_failures_all_fail|reflexivity].
Qed.

Lemma polling_failure_policy_witness :
  (exists e tk,
     last (@five_failures (option Polling.TTS.data)) = Some tk
     /\ Polling.answer tk = Polling.Fails e
     /\ Polling.drive (Polling.TTS.step 0 90 true)
          (five_failures ++ [at_ 25 (Polling.Answers (Some (tts_finished "u")))])
          (tts_vars 0 0)
        = (repeat (Polling.Sleep 5) 4,
           Polling.Raised (Runtime.TTSPollFailed e)))
  /\ Polling.Clone.step 0 90 true (at_ 5 (Polling.Fails unreachable))
       (clone_vars (-1) (-1) 3)
     = ([Polling.Sleep 5], Polling.Polling (clone_vars (-1) (-1) (3 + 1))).
Proof.
  split.
  - apply (proj1 (proj2 (proj2 (polling_failure_policy 0 90 true)))
             five_failures
             [at_ 25 (Polling.Answers (Some (tts_finished "u")))] 0);
      [reflexivity|apply five_failures_all_fail].
  - apply (proj1 (proj2 (proj2 (proj2 (polling_failure_policy 0 90 true))))
             (at_ 5 (Polling.Fails unreachable)) unreachable (-1) (-1) 3);
      [split; reflexivity|lia].
Defined.

(** *** Progress reports within a stage *)

Local Open Scope list_scope.

(** The percentages passed to the progress callback for [stage], in order. *)
Definition percents (stage : string) (effs : list Polling.effect) : list Z :=
  omap (fun e =>
          match e with
          | Polling.Progress st p _ => if String.eqb st stage then Some p else None
          | _ => None
          end) effs.

(** [l] never goes down, and starts at or above [prev]. *)
Fixpoint rising (prev : Z) (l : list Z) : Prop :=
  match l with
  | [] => True
  | q :: l' => prev <= q /\ rising q l'
  end.





Lemma percents_app stage e1 e2 :
  percents stage (e1 ++ e2) = percents stage e1 ++ percents stage e2.
Proof. unfold percents. apply omap_app. Qed.

Lemma percents_after {R St} stage effs (r : list Polling.effect * Polling.run R St) :
  percents stage (Polling.after effs r).1
  = percents stage effs ++ percents stage r.1.
Proof. unfold Polling.after. simpl. apply percents_app. Qed.

Lemma percents_callback stage cb p m :
  percents stage (Polling.callback cb stage p m) = if cb then [p] else [].
Proof.
  unfold Polling.callback, percents. destruct cb; [|reflexivity].
  simpl. now rewrite String.eqb_refl.
Qed.

(** **** TTS: the estimate grows with the poll count *)

Lemma estimate_mono n m :
  n <= m -> Polling.TTS.estimate n <= Polling.TTS.estimate m.
Proof.
  unfold Polling.TTS.estimate. intros H.
  destruct (Z.leb_spec n 6), (Z.leb_spec m 6); lia.
Qed.

Lemma estimate_bounds n :
  1 <= n -> 0 <= Polling.TTS.estimate n <= 95.
Proof.
  unfold Polling.TTS.estimate. intros H. destruct (Z.leb_spec n 6); lia.
Qed.

Definition tts_stage : string := "语音合成".

(** One iteration reports nothing or the estimate of the next poll count,
    and the poll count does not go down. *)
Lemma tts_step_percents start max_wait cb tk v effs r :
  Polling.TTS.step start max_wait cb tk v = (effs, r) ->
  (percents tts_stage effs = []
   \/ percents tts_stage effs
      = [Polling.TTS.estimate (Polling.TTS.poll_count v + 1)])
  /\ forall v', r = Polling.Polling v' ->
       Polling.TTS.poll_count v <= Polling.TTS.poll_count v'.
Proof.
  intros H. unfold Polling.TTS.step, Polling.TTS.on_answer in H.
  split_cases H; inversion H; subst; clear H;
    (split; [|intros v' [= <-]; simpl; lia]);
    try (left; reflexivity).
  all: rewrite percents_app, percents_callback.
  all: destruct cb; [right|left]; reflexivity.
Qed.

Lemma tts_drive_rising start max_wait cb : forall script v p,
  0 <= Polling.TTS.poll_count v ->
  p <= Polling.TTS.estimate (Polling.TTS.poll_count v + 1) ->
  let effs := (Polling.drive (Polling.TTS.step start max_wait cb) script v).1 in
  rising p (percents tts_stage effs)
  /\ Forall (fun x => x <= 95) (percents tts_stage effs).
Proof.
  induction script as [|tk script IH]; intros v p Hpc Hp; cbv zeta.
  - simpl. split; [exact I|constructor].
  - simpl.
    destruct (Polling.TTS.step start max_wait cb tk v) as [effs r] eqn:Hstep.
    destruct (tts_step_percents _ _ _ _ _ _ _ Hstep) as [Hper Hmono].
    pose proof (estimate_bounds (Polling.TTS.poll_count v + 1) ltac:(lia))
      as Hb.
    destruct r as [res|e|v'].
    + simpl. destruct Hper as [-> | ->]; simpl;
        repeat split; auto; repeat constructor; lia.
    + simpl. destruct Hper as [-> | ->]; simpl;
        repeat split; auto; repeat constructor; lia.
    + specialize (Hmono v' eq_refl).
      rewrite percents_after.
      assert (Hle : Polling.TTS.estimate (Polling.TTS.poll_count v + 1)
                    <= Polling.TTS.estimate (Polling.TTS.poll_count v' + 1)).
      { apply estimate_mono. lia. }
      destruct Hper as [-> | ->]; simpl.
      * apply IH; lia.
      * destruct (IH v' (Polling.TTS.estimate (Polling.TTS.poll_count v + 1)))
          as [H1 H2]; [lia|lia|].
        repeat split; auto. constructor; [lia|exact H2].
Qed.


(** **** Lip-sync: the server's figure is passed on as it is *)






(** **** Voice clone *)







(** **** Whole operations: each stage keeps to itself *)






Lemma percents_sleep stage n effs :
  percents stage (Polling.Sleep n :: effs) = percents stage effs.
Proof. reflexivity. Qed.

















(** **** Uploads *)







Section UploadStage.
Variable percent : Z -> Z -> Z.
Hypothesis percent_le_100 :
  forall pos total, 0 < total -> pos <= total -> percent pos total <= 100.




End UploadStage.

(** **** The polling loops report to their own stage only *)








(** **** Lip-sync: the whole of [create] *)


(** **** Voice clone: the whole of [clone] *)




(** **** TTS: the whole of [synthesize] *)


(** **** The loops pass the server's figure on *)





(** An upload that cannot get its address. *)
Definition no_upload : Upload.world :=
  {| Upload.file_exists := true;
     Upload.address := Polling.Fails unreachable;
     Upload.file_data := inr [];
     Upload.body_reads := [];
     Upload.put := inl unreachable;
     Upload.sync_start := 0;
     Upload.sync := [] |}.

(** An upload of ten bytes that goes through: the body is read in one
    piece, and the file is in sync at the first look. *)
Definition smooth_upload (id url : string) : Upload.world :=
  {| Upload.file_exists := true;
     Upload.address :=
       Polling.Answers
         {| Upload.sign_url := Some "https://oss.example.com/put"%string;
            Upload.file_id := Some id;
            Upload.full_path := Some url;
            Upload.mime_type := None |};
     Upload.file_data := inr ten_bytes;
     Upload.body_reads := [Some 8192; Some 8192];
     Upload.put := inr 200;
     Upload.sync_start := 0;
     Upload.sync := [at_ 0 (Polling.Answers (Some 1))] |}.

(** The upload and the task creation succeed and the platform reports
    the clone as done at the first poll. *)
Definition cloning : VoiceClone.env :=
  {| VoiceClone.path_exists := fun _ => true;
     VoiceClone.get_audio_duration := fun _ => Some 20%Q;
     VoiceClone.trim_audio := fun _ => None;
     VoiceClone.file_content_hash := fun _ => "9e107d9d"%string;
     VoiceClone.validate := fun _ => Polling.Answers (Some (Some 2));
     VoiceClone.percent := UploadProgress.exact_percent;
     VoiceClone.upload :=
       fun _ => smooth_upload "file-1" "https://cdn.example.com/ref.mp3";
     VoiceClone.create := fun _ _ => Polling.Answers (Some "voice-9"%string);
     VoiceClone.start := 0;
     VoiceClone.script :=
       [at_ 1 (Polling.Answers
                 (Some {| Polling.Clone.status := Some 2;
                          Polling.Clone.progress := Some 100;
                          Polling.Clone.err_msg := None |}))];
     VoiceClone.put_time := 7 |}.

Definition lip_sync_finished (url : string) : Polling.LipSync.data :=
  {| Polling.LipSync.status := Some 20; Polling.LipSync.progress := Some 100;
     Polling.LipSync.msg := None; Polling.LipSync.video_url := Some url;
     Polling.LipSync.duration := Some 4200 |}.

(** Both files are there and upload smoothly, the task is created, and
    the status queries are answered as [script] says. *)
Definition studio (script : list (Polling.tick (option Polling.LipSync.data)))
  : LipSyncService.env :=
  {| LipSyncService.path_exists := fun _ => true;
     LipSyncService.get_video_dimensions := fun _ => (Some 720, Some 1280);
     LipSyncService.percent := UploadProgress.exact_percent;
     LipSyncService.upload :=
       fun path _ => smooth_upload path "https://cdn.example.com/in";
     LipSyncService.create_task :=
       fun _ => Polling.Answers (Some "task-7"%string);
     LipSyncService.start := 0;
     LipSyncService.script := script |}.

Definition steady : list (Polling.tick (option Polling.LipSync.data)) :=
  [at_ 0 (Polling.Answers (Some (lip_sync_running 30)));
   at_ 5 (Polling.Answers (Some (lip_sync_running 50)));
   at_ 10 (Polling.Answers
             (Some (lip_sync_finished "https://cdn.example.com/out.mp4")))].

Example lip_sync_progress_trace :
  let effs := (LipSyncService.create (studio steady) "in.mp4" "in.mp3" "pro"
                 "forward" "normal" true).1 in
  percents "准备" effs = [0]
  /\ percents "上传视频" effs = [0; 100]
  /\ percents "上传音频" effs = [0; 100]
  /\ percents "视频合成" effs = [0; 30; 50; 100]
  /\ percents "完成" effs = [100].
Proof. repeat split; reflexivity. Qed.

(** The whole operation around the two answers of the counterexample. *)
Example lip_sync_create_goes_down :
  percents "视频合成"
    (LipSyncService.create
       (studio [at_ 0 (Polling.Answers (Some (lip_sync_running 50)));
                at_ 5 (Polling.Answers (Some (lip_sync_running 30)))])
       "in.mp4" "in.mp3" "pro" "forward" "normal" true).1
  = [0; 50; 30].
Proof. reflexivity. Qed.

(** A negative figure falls below the 0 the stage opens with. *)
Example lip_sync_create_negative_figure :
  percents "视频合成"
    (LipSyncService.create
       (studio [at_ 0 (Polling.Answers (Some (lip_sync_running (-5))))])
       "in.mp4" "in.mp3" "pro" "forward" "normal" true).1
  = [0; -5].
Proof. reflexivity. Qed.

Example lip_sync_create_result :
  (LipSyncService.create (studio steady) "in.mp4" "in.mp3" "pro" "forward"
     "normal" true).2
  = Polling.Done
      {| LipSyncService.video_url := "https://cdn.example.com/out.mp4";
         LipSyncService.task_id := Some "task-7"%string;
         LipSyncService.duration_ms := 4200 |}.
Proof. reflexivity. Qed.


Example tts_progress_trace :
  percents tts_stage
    (Polling.TTS.synthesize "你好" true
       (Polling.Answers (Some (Some "task-1"))) 0
       [at_ 0 (Polling.Answers (Some tts_running));
        at_ 3 (Polling.Fails unreachable);
        at_ 8 (Polling.Answers (Some tts_running));
        at_ 11 (Polling.Answers (Some (tts_finished "u")))]).1
  = [0; 15; 30; 100].
Proof. reflexivity. Qed.

(** ** Depth of the recursion in [json_request] *)

(** With [_retried_auth=True] one frame is enough. *)
Lemma json_request_retried_depth server oversleep d method url category
    silent kw s :
  Api.json_request server oversleep (S d) method url category silent true kw s
  = Api.json_request server oversleep 1 method url category silent true kw s.
Proof.
  simpl. unfold Runtime.bind.
  destruct (Api.request _ _ _ _ _ _ _ _ _ s) as [[resp|e] s1]; [|reflexivity].
  destruct (Api.response_json resp s1) as [[result|e] s2]; [|reflexivity].
  destruct (bool_decide _); [reflexivity|].
  now rewrite andb_false_r.
Qed.

(** [get_token] uses its [api] argument only with [_retried_auth=True]. *)
Lemma refresh_ext api1 api2 :
  (forall method url category silent kw s,
     api1 method url category silent true kw s
     = api2 method url category silent true kw s) ->
  forall s, Api._refresh_token api1 s = Api._refresh_token api2 s.
Proof.
  intros H s.
  cbv beta iota zeta delta
    [Runtime.bind Api._refresh_token Api.log Runtime.modify Runtime.gets].
  now rewrite H.
Qed.

Lemma get_token_ext api1 api2 :
  (forall method url category silent kw s,
     api1 method url category silent true kw s
     = api2 method url category silent true kw s) ->
  forall s, Api.get_token api1 s = Api.get_token api2 s.
Proof.
  intros H s.
  assert (Hr : forall k s0,
            Runtime.bind (Api._refresh_token api1) k s0
            = Runtime.bind (Api._refresh_token api2) k s0
              :> Runtime.result string * Runtime.state).
  { intros k s0. unfold Runtime.bind. now rewrite (refresh_ext api1 api2 H). }
  unfold Api.get_token, Api.time_time, Api._config_changed. step.
  destruct (Api.config_changed (Runtime._auth s));
    [unfold Api.update_auth; step|step]; proj;
    (destruct (Api.usable _ _); [reflexivity|]);
    (destruct (Runtime._token _); [apply Hr|]);
    unfold Api._load_token_cache; step; proj;
    destruct (Runtime.token_file s); unfold Api.update_auth; step; proj;
    (destruct (Api.usable _ _ && negb _); [reflexivity|]);
    destruct (Api.config_changed _); step; apply Hr.
Qed.

Lemma bind_ext {A B} (c : Runtime.M A) (k1 k2 : A -> Runtime.M B) s :
  (forall a s', k1 a s' = k2 a s') ->
  Runtime.bind c k1 s = Runtime.bind c k2 s.
Proof.
  intros H. unfold Runtime.bind. destruct (c s) as [[a|e] s']; auto.
Qed.

Lemma json_request_unfold server oversleep depth method url category silent
    retried kw :
  Api.json_request server oversleep (S depth) method url category silent
    retried kw
  = Runtime.bind
      (Api.request server oversleep method url 3 3 category silent kw)
      (fun response =>
         Runtime.bind (Api.response_json response)
           (fun result =>
              if bool_decide (Runtime.code result = Some 0)
              then Runtime.ret result
              else if Api.auth_expired (Runtime.code result) && negb retried
              then
                Runtime.bind
                  (Api.log Runtime.WARNING
                     "AccessToken 已失效 (code=%d)，正在自动刷新...")
                  (fun _ =>
                     Runtime.bind Api.reset
                       (fun _ =>
                          Runtime.bind
                            (Api.get_token
                               (Api.json_request server oversleep depth))
                            (fun new_token =>
                               Api.json_request server oversleep depth method
                                 url category silent true
                                 (Api.with_new_token new_token kw))))
              else if Api.auth_expired (Runtime.code result)
              then Runtime.raise
                     (Runtime.AuthRejected
                        (default 0 (Runtime.code result))
                        (default "未知错误" (Runtime.msg result)))
              else Runtime.raise
                     (Runtime.ApiFailed (Runtime.code result)
                        (default "未知错误" (Runtime.msg result))))).
Proof. reflexivity. Qed.

(** Two frames are enough for any call: the result does not depend on
    how many more are available. *)
Lemma json_request_depth server oversleep d method url category silent
    retried kw s :
  Api.json_request server oversleep (S (S d)) method url category silent
    retried kw s
  = Api.json_request server oversleep 2 method url category silent
      retried kw s.
Proof.
  destruct retried.
  { rewrite (json_request_retried_depth _ _ (S d)).
    now rewrite (json_request_retried_depth _ _ 1%nat). }
  rewrite (json_request_unfold _ _ (S d)), (json_request_unfold _ _ 1%nat).
  apply bind_ext. intros resp s1. apply bind_ext. intros result s2.
  destruct (bool_decide _); [reflexivity|].
  destruct (Api.auth_expired _ && negb false); [|reflexivity].
  apply bind_ext. intros _ s3. apply bind_ext. intros _ s4.
  unfold Runtime.bind.
  rewrite (get_token_ext (Api.json_request server oversleep (S d))
             (Api.json_request server oversleep 1)).
  2:{ intros. apply json_request_retried_depth. }
  destruct (Api.get_token _ s4) as [[tok|e] s5]; [|reflexivity].
  apply json_request_retried_depth.
Qed.

(** ** The fingerprint held by [AuthManager] *)

(** [__init__] stores the hash of the resolved credentials, and no method
    changes it or the credentials afterwards. *)
Lemma new_auth_fingerprint md5_hex app_id secret_key :
  Runtime._config_hash (Api.new_auth md5_hex app_id secret_key)
  = Api._compute_hash md5_hex app_id secret_key
  /\ Runtime._token (Api.new_auth md5_hex app_id secret_key) = None
  /\ Runtime._token_config_hash (Api.new_auth md5_hex app_id secret_key) = None.
Proof. repeat split. Qed.

Lemma with_token_keeps_credentials t e h a :
  Runtime._app_id (Api.with_token t e h a) = Runtime._app_id a
  /\ Runtime._secret_key (Api.with_token t e h a) = Runtime._secret_key a
  /\ Runtime._config_hash (Api.with_token t e h a) = Runtime._config_hash a.
Proof. repeat split. Qed.

(** A client restarted with the same credentials finds its token on disk. *)
Definition restarted_client : Runtime.state :=
  Api.set_auth (Api.new_auth (fun s => s) "id" "key") stale_client.

Example get_token_loads_from_disk :
  let r := Api.get_token (Api.json_request revoking_server punctual 3)
             restarted_client in
  r.1 = Runtime.Returns "stale" /\ refreshes r.2 = 0%nat
  /\ tokens_sent r.2 = [].
Proof. repeat split; reflexivity. Qed.

(** A client restarted with other credentials does not reuse it. *)
Definition other_client : Runtime.state :=
  Api.set_auth (Api.new_auth (fun s => s) "id2" "key2") stale_client.

Example get_token_ignores_foreign_token :
  let r := Api.get_token (Api.json_request revoking_server punctual 3)
             other_client in
  r.1 = Runtime.Returns "fresh" /\ refreshes r.2 = 1%nat
  /\ tokens_sent r.2 = [(token_url, None)].
Proof. repeat split; vm_compute; reflexivity. Qed.

(** Within 300 s of the expiry the in-memory token is replaced. *)
Example get_token_refreshes_near_expiry :
  let r := Api.get_token (Api.json_request revoking_server punctual 3)
             (Api.set_now 49800%Q stale_client) in
  r.1 = Runtime.Returns "fresh" /\ refreshes r.2 = 1%nat.
Proof. repeat split; vm_compute; reflexivity. Qed.

(* ===================================================================== *)
(** * Further properties of the code around the claims *)
(* ===================================================================== *)

(** ** Voice clone cache (cache.py) *)

Section VoiceCache.
Import VoiceCloneCache.

(** The instance has its dictionary, or can get one from the file. *)
Definition cache_usable (c : t) : Prop :=
  _cache c <> None \/ on_disk c <> HoldsNull.

(** The dictionary [_load] leaves in memory. *)
Definition loaded (c : t) : gmap string entry :=
  match _cache c with
  | Some m => m
  | None => match on_disk c with Holds m => m | _ => ∅ end
  end.

Lemma load_usable c :
  cache_usable c -> _load c = set_cache (Some (loaded c)) c.
Proof.
  unfold cache_usable, _load, loaded. intros [H|H].
  - destruct c as [f w tr [m|] l]; [reflexivity|contradiction].
  - destruct (_cache c) eqn:E; [destruct c; simpl in *; now subst|].
    destruct (on_disk c); try reflexivity. contradiction.
Qed.

Lemma load_loaded c m : _cache c = Some m -> _load c = c.
Proof. unfold _load. now intros ->. Qed.

Lemma save_cache c : _cache (_save c) = _cache c.
Proof. unfold _save. now destruct (writable c), (truncates c). Qed.

Lemma new_entry_truthy m v now : truthy_entry (new_entry m v now) = true.
Proof.
  unfold truthy_entry, new_entry. apply negb_true_iff, bool_decide_eq_false.
  apply insert_non_empty.
Qed.

(** What [put] leaves behind. *)
Lemma put_spec h m v now c :
  cache_usable c ->
  put h m v now c
  = (inr tt,
     _save (set_cache (Some (<[_make_key h m := new_entry m v now]> (loaded c)))
              c)).
Proof.
  intros Hu. unfold put. rewrite (load_usable c Hu). reflexivity.
Qed.

(** What [get] returns when the dictionary is in memory. *)
Lemma get_loaded h m c d :
  _cache c = Some d ->
  get h m c
  = (match d !! _make_key h m with
     | None => inr Null
     | Some e =>
         if truthy_entry e then
           match e with
           | Obj members => inr (default Null (members !! "voice_id"))
           | NotObj _ => inl AttributeError
           end
         else inr Null
     end, c).
Proof.
  intros Hc. unfold get. rewrite (load_loaded c d Hc), Hc.
  destruct (d !! _make_key h m) as [e|]; [|reflexivity].
  destruct (truthy_entry e); [|reflexivity]. now destruct e.
Qed.

Lemma get_new_entry h m v now c d :
  _cache c = Some (<[_make_key h m := new_entry m v now]> d) ->
  get h m c = (inr (Str v), c).
Proof.
  intros Hc. rewrite (get_loaded h m c _ Hc), lookup_insert_eq.
  now rewrite new_entry_truthy.
Qed.

End VoiceCache.

(** X1: an identifier stored with [put] is what [get] returns for the same
    file hash and model in the same instance, whatever the cache held
    before and whether or not the file could be written. *)
Theorem voice_cache_put_get
    (h m v : string) (now : Q) (c : VoiceCloneCache.t) :
  cache_usable c ->
  let c' := (VoiceCloneCache.put h m v now c).2 in
  (VoiceCloneCache.put h m v now c).1 = inr tt
  /\ VoiceCloneCache.get h m c' = (inr (VoiceCloneCache.Str v), c').
Proof.
  intros Hu. cbv zeta. rewrite (put_spec h m v now c Hu). cbn [fst snd].
  split; [reflexivity|].
  eapply get_new_entry. rewrite save_cache. reflexivity.
Qed.

Definition empty_voice_cache : VoiceCloneCache.t :=
  VoiceCloneCache.init VoiceCloneCache.Absent true false.

Lemma empty_voice_cache_usable : cache_usable empty_voice_cache.
Proof. right. discriminate. Qed.

Lemma voice_cache_put_get_witness :
  let c' := (VoiceCloneCache.put "9e107d9d" "cicada3.0-turbo" "voice-1" 1000%Q
               empty_voice_cache).2 in
  (VoiceCloneCache.put "9e107d9d" "cicada3.0-turbo" "voice-1" 1000%Q
     empty_voice_cache).1 = inr tt
  /\ VoiceCloneCache.get "9e107d9d" "cicada3.0-turbo" c'
     = (inr (VoiceCloneCache.Str "voice-1"), c').
Proof.
  exact (voice_cache_put_get "9e107d9d" "cicada3.0-turbo" "voice-1" 1000%Q
           empty_voice_cache empty_voice_cache_usable).
Defined.

(** What [get] makes of the entry found under the key. *)
Definition found (o : option VoiceCloneCache.entry)
  : VoiceCloneCache.error + VoiceCloneCache.value :=
  match o with
  | None => inr VoiceCloneCache.Null
  | Some e =>
      if VoiceCloneCache.truthy_entry e then
        match e with
        | VoiceCloneCache.Obj members =>
            inr (default VoiceCloneCache.Null (members !! "voice_id"))
        | VoiceCloneCache.NotObj _ => inl VoiceCloneCache.AttributeError
        end
      else inr VoiceCloneCache.Null
  end.

Lemma get_usable h m c :
  cache_usable c ->
  VoiceCloneCache.get h m c
  = (found (loaded c !! VoiceCloneCache._make_key h m),
     VoiceCloneCache.set_cache (Some (loaded c)) c).
Proof.
  intros Hu. unfold VoiceCloneCache.get. rewrite (load_usable c Hu).
  cbn [VoiceCloneCache._cache VoiceCloneCache.set_cache]. unfold found.
  destruct (loaded c !! VoiceCloneCache._make_key h m) as [e|]; [|reflexivity].
  destruct (VoiceCloneCache.truthy_entry e); [|reflexivity]. now destruct e.
Qed.

Lemma saved_usable c d :
  cache_usable (VoiceCloneCache._save (VoiceCloneCache.set_cache (Some d) c))
  /\ loaded (VoiceCloneCache._save (VoiceCloneCache.set_cache (Some d) c)) = d.
Proof.
  unfold cache_usable, loaded. rewrite save_cache. cbn. split; [now left|reflexivity].
Qed.

(** No underscore occurs in [s], as in a hexadecimal digest. *)
Fixpoint no_underscore (s : string) : bool :=
  match s with
  | EmptyString => true
  | String c s' => negb (Ascii.eqb c "_") && no_underscore s'
  end.

(** On file hashes without underscore the cache key determines the pair
    it was made from. *)
Lemma make_key_injective h1 m1 h2 m2 :
  no_underscore h1 = true -> no_underscore h2 = true ->
  VoiceCloneCache._make_key h1 m1 = VoiceCloneCache._make_key h2 m2 ->
  h1 = h2 /\ m1 = m2.
Proof.
  unfold VoiceCloneCache._make_key. revert h2.
  induction h1 as [|a h1 IH]; intros [|b h2] H1 H2 E;
    rewrite ?append_cons, ?append_nil_l in E; cbn [no_underscore] in *.
  - injection E as ->. auto.
  - injection E as <- _. now rewrite Ascii.eqb_refl in H2.
  - injection E as -> _. now rewrite Ascii.eqb_refl in H1.
  - injection E as -> E.
    apply andb_true_iff in H1 as [_ H1]. apply andb_true_iff in H2 as [_ H2].
    destruct (IH h2 H1 H2 E) as [-> ->]. auto.
Qed.

(** Without that restriction two different pairs can share a key. *)
Lemma make_key_collision h x m :
  VoiceCloneCache._make_key (h ++ "_" ++ x)%string m
  = VoiceCloneCache._make_key h (x ++ "_" ++ m)%string.
Proof.
  unfold VoiceCloneCache._make_key. now rewrite !append_assoc.
Qed.

(** X2: [put] for one (file hash, model) pair leaves the answer of [get]
    for every other pair as it was, provided the two file hashes contain
    no underscore (they are hexadecimal digests in the SDK). *)
Theorem voice_cache_put_other_key
    (h1 m1 v : string) (now : Q) (h2 m2 : string) (c : VoiceCloneCache.t) :
  cache_usable c ->
  no_underscore h1 = true -> no_underscore h2 = true ->
  (h1, m1) <> (h2, m2) ->
  (VoiceCloneCache.get h2 m2 (VoiceCloneCache.put h1 m1 v now c).2).1
  = (VoiceCloneCache.get h2 m2 c).1.
Proof.
  intros Hu H1 H2 Hne. rewrite (put_spec h1 m1 v now c Hu). cbn [snd].
  destruct (saved_usable c
              (<[VoiceCloneCache._make_key h1 m1
                 := VoiceCloneCache.new_entry m1 v now]> (loaded c)))
    as [Hu' Hl'].
  rewrite (get_usable h2 m2 _ Hu'), (get_usable h2 m2 c Hu), Hl'. cbn [fst].
  rewrite lookup_insert_ne; [reflexivity|].
  intros E. destruct (make_key_injective h1 m1 h2 m2 H1 H2 E) as [-> ->].
  now apply Hne.
Qed.

Lemma voice_cache_put_other_key_witness :
  (VoiceCloneCache.get "9e107d9d" "cicada3.0"
     (VoiceCloneCache.put "9e107d9d" "cicada3.0-turbo" "voice-1" 1000%Q
        empty_voice_cache).2).1
  = (VoiceCloneCache.get "9e107d9d" "cicada3.0" empty_voice_cache).1.
Proof.
  apply (voice_cache_put_other_key "9e107d9d" "cicada3.0-turbo" "voice-1"
           1000%Q "9e107d9d" "cicada3.0" empty_voice_cache
           empty_voice_cache_usable);
    [reflexivity|reflexivity|discriminate].
Defined.

(** X3: when the cache file can be written, an identifier stored with
    [put] is found by a new instance opened on the file [put] left. *)
Theorem voice_cache_persists
    (h m v : string) (now : Q) (c : VoiceCloneCache.t) (w tr : bool) :
  cache_usable c -> VoiceCloneCache.writable c = true ->
  let c' := (VoiceCloneCache.put h m v now c).2 in
  VoiceCloneCache.on_disk c'
  = VoiceCloneCache.Holds
      (<[VoiceCloneCache._make_key h m := VoiceCloneCache.new_entry m v now]>
         (loaded c))
  /\ (VoiceCloneCache.get h m
        (VoiceCloneCache.init (VoiceCloneCache.on_disk c') w tr)).1
     = inr (VoiceCloneCache.Str v).
Proof.
  intros Hu Hw. cbv zeta. rewrite (put_spec h m v now c Hu). cbn [snd].
  assert (Hd : VoiceCloneCache.on_disk
                 (VoiceCloneCache._save
                    (VoiceCloneCache.set_cache
                       (Some (<[VoiceCloneCache._make_key h m
                                := VoiceCloneCache.new_entry m v now]>
                                (loaded c))) c))
               = VoiceCloneCache.Holds
                   (<[VoiceCloneCache._make_key h m
                      := VoiceCloneCache.new_entry m v now]> (loaded c))).
  { unfold VoiceCloneCache._save. cbn. now rewrite Hw. }
  rewrite Hd. split; [reflexivity|].
  rewrite get_usable by (right; discriminate). cbn [fst].
  unfold loaded. cbn. rewrite lookup_insert_eq. unfold found.
  now rewrite new_entry_truthy.
Qed.

Lemma voice_cache_persists_witness :
  (VoiceCloneCache.get "9e107d9d" "cicada3.0-turbo"
     (VoiceCloneCache.init
        (VoiceCloneCache.on_disk
           (VoiceCloneCache.put "9e107d9d" "cicada3.0-turbo" "voice-1" 1000%Q
              empty_voice_cache).2) false false)).1
  = inr (VoiceCloneCache.Str "voice-1").
Proof.
  exact (proj2 (voice_cache_persists "9e107d9d" "cicada3.0-turbo" "voice-1"
                  1000%Q empty_voice_cache false false
                  empty_voice_cache_usable eq_refl)).
Defined.

Lemma remove_spec h m c :
  cache_usable c ->
  VoiceCloneCache.remove h m c
  = if bool_decide (is_Some (loaded c !! VoiceCloneCache._make_key h m))
    then (inr tt,
          VoiceCloneCache._save
            (VoiceCloneCache.set_cache
               (Some (delete (VoiceCloneCache._make_key h m) (loaded c))) c))
    else (inr tt, VoiceCloneCache.set_cache (Some (loaded c)) c).
Proof.
  intros Hu. unfold VoiceCloneCache.remove. rewrite (load_usable c Hu).
  reflexivity.
Qed.

(** X4: after [remove] the instance answers [None] for the pair; when the
    pair was not in the dictionary nothing is written, and when it was and
    the file can be written, a new instance opened on the file answers
    [None] too. *)
Theorem voice_cache_remove (h m : string) (c : VoiceCloneCache.t) :
  cache_usable c ->
  let key := VoiceCloneCache._make_key h m in
  let r := VoiceCloneCache.remove h m c in
  r.1 = inr tt
  /\ (VoiceCloneCache.get h m r.2).1 = inr VoiceCloneCache.Null
  /\ (loaded c !! key = None ->
      r.2 = VoiceCloneCache.set_cache (Some (loaded c)) c)
  /\ (is_Some (loaded c !! key) -> VoiceCloneCache.writable c = true ->
      forall w tr,
        (VoiceCloneCache.get h m
           (VoiceCloneCache.init (VoiceCloneCache.on_disk r.2) w tr)).1
        = inr VoiceCloneCache.Null).
Proof.
  intros Hu. cbv zeta. rewrite (remove_spec h m c Hu).
  destruct (bool_decide (is_Some (loaded c !! VoiceCloneCache._make_key h m)))
    eqn:Hin; cbn [fst snd].
  - apply bool_decide_eq_true in Hin.
    destruct (saved_usable c
                (delete (VoiceCloneCache._make_key h m) (loaded c)))
      as [Hu' Hl'].
    split; [reflexivity|]. split; [|split].
    + rewrite (get_usable h m _ Hu'), Hl'. cbn [fst].
      now rewrite lookup_delete_eq.
    + intros Hnone. rewrite Hnone in Hin. now destruct Hin.
    + intros _ Hw w tr.
      assert (Hd : VoiceCloneCache.on_disk
                     (VoiceCloneCache._save
                        (VoiceCloneCache.set_cache
                           (Some (delete (VoiceCloneCache._make_key h m)
                                    (loaded c))) c))
                   = VoiceCloneCache.Holds
                       (delete (VoiceCloneCache._make_key h m) (loaded c))).
      { unfold VoiceCloneCache._save. cbn. now rewrite Hw. }
      rewrite Hd, get_usable by (right; discriminate). cbn [fst].
      unfold loaded. cbn. now rewrite lookup_delete_eq.
  - apply bool_decide_eq_false in Hin.
    split; [reflexivity|]. split; [|split].
    + rewrite get_usable by (now left). cbn [fst].
      unfold loaded at 1. cbn.
      destruct (loaded c !! VoiceCloneCache._make_key h m) eqn:E;
        [|reflexivity].
      exfalso. apply Hin. eauto.
    + reflexivity.
    + intros Hsome. contradiction.
Qed.

Definition one_voice_cache : VoiceCloneCache.t :=
  (VoiceCloneCache.put "9e107d9d" "cicada3.0-turbo" "voice-1" 1000%Q
     empty_voice_cache).2.

Lemma one_voice_cache_usable : cache_usable one_voice_cache.
Proof. left. discriminate. Qed.

Lemma voice_cache_remove_witness :
  (VoiceCloneCache.get "9e107d9d" "cicada3.0-turbo" one_voice_cache).1
  = inr (VoiceCloneCache.Str "voice-1")
  /\ (VoiceCloneCache.get "9e107d9d" "cicada3.0-turbo"
        (VoiceCloneCache.remove "9e107d9d" "cicada3.0-turbo"
           one_voice_cache).2).1
     = inr VoiceCloneCache.Null.
Proof.
  split; [reflexivity|].
  exact (proj1 (proj2 (voice_cache_remove "9e107d9d" "cicada3.0-turbo"
                         one_voice_cache one_voice_cache_usable))).
Defined.




(** ** Token life cycle, continued (auth.py) *)

(** X6: a token returned by [get_token] is left in memory as a valid
    token, so that calling [get_token] again at once returns the same
    token and changes nothing: no request, no disk access, no log line. *)
Theorem get_token_twice
    (server : nat -> Runtime.http_request -> Runtime.reply)
    (oversleep : nat -> Q) (depth : nat) (s s' : Runtime.state) (t : string) :
  Api.get_token (Api.json_request server oversleep depth) s
  = (Runtime.Returns t, s') ->
  memory_valid s' t
  /\ forall api, Api.get_token api s' = (Runtime.Returns t, s').
Proof.
  intros E.
  assert (Hv : memory_valid s' t).
  { pose proof (json_request_quiet_api server oversleep depth) as Hq.
    destruct (get_token_cases _ s Hq)
      as [(t0 & Hv & E0)|[(t0 & s0 & _ & _ & E0 & Hv & _)|(s0 & _ & _ & _ & E0)]].
    - rewrite E0 in E. now injection E as <- <-.
    - rewrite E0 in E. now injection E as <- <-.
    - destruct (refresh_outcome _ s0 Hq) as [Hret _].
      rewrite <- E0, E in Hret. now apply Hret. }
  split; [exact Hv|]. intros api. now apply get_token_memory.
Qed.

Lemma get_token_twice_witness :
  let api := Api.json_request revoking_server punctual 3 in
  memory_valid (Api.get_token api fresh_client).2 "fresh"
  /\ Api.get_token api (Api.get_token api fresh_client).2
     = (Runtime.Returns "fresh", (Api.get_token api fresh_client).2).
Proof.
  cbv zeta.
  destruct (get_token_twice revoking_server punctual 3 fresh_client
              (Api.get_token (Api.json_request revoking_server punctual 3)
                 fresh_client).2 "fresh") as [Hv Hagain].
  - reflexivity.
  - split; [exact Hv|apply Hagain].
Defined.

(** X7: [get_token] leaves the token file as it was whenever it raises
    and whenever it returns a cached token; the file is rewritten only by
    a refresh that returns. *)
Theorem get_token_keeps_token_file
    (server : nat -> Runtime.http_request -> Runtime.reply)
    (oversleep : nat -> Q) (depth : nat) (s : Runtime.state) :
  let r := Api.get_token (Api.json_request server oversleep depth) s in
  (forall e, r.1 = Runtime.Raises e ->
     Runtime.token_file r.2 = Runtime.token_file s)
  /\ (refreshes r.2 = refreshes s ->
      Runtime.token_file r.2 = Runtime.token_file s).
Proof.
  cbv zeta.
  pose proof (json_request_quiet_api server oversleep depth) as Hq.
  destruct (get_token_cases _ s Hq)
    as [(t0 & Hv & E0)|[(t0 & s0 & _ & _ & E0 & _ & Hf & _)
                       |(s0 & Hm & Hd & Hs & E0)]];
    rewrite E0; cbn [fst snd].
  - split; reflexivity.
  - split; intros; exact Hf.
  - destruct Hs as (_ & Hfile & Hw & Htr & _ & Hh & _).
    destruct (refresh_outcome _ s0 Hq) as [_ Hraise].
    destruct (refresh_then_return _ s0 Hq) as [Hone _].
    cbv zeta in Hraise, Hone. split.
    + intros e He. rewrite (Hraise e He). exact Hfile.
    + intros Hsame. exfalso. rewrite Hone in Hsame.
      unfold refreshes in Hsame. rewrite Htr in Hsame. lia.
Qed.

(** X8: a token issued by [get_token] and written to the token file is
    returned, without any request to the platform, to an [AuthManager]
    constructed later for the same credentials on that file, as long as
    its clock is more than 300 s before the expiry "issuance + 24 h". *)
Theorem token_survives_restart
    (server : nat -> Runtime.http_request -> Runtime.reply)
    (oversleep : nat -> Q) (depth : nat) (s s' : Runtime.state) (t : string)
    (api2 : Api.json_request_t) (s2 : Runtime.state) :
  Api.get_token (Api.json_request server oversleep depth) s
  = (Runtime.Returns t, s') ->
  refreshes s' = S (refreshes s) ->
  Runtime.disk_writable s = true ->
  Runtime.token_file s2 = Runtime.token_file s' ->
  Runtime._token (Runtime._auth s2) = None ->
  Runtime._config_hash (Runtime._auth s2)
  = Runtime._config_hash (Runtime._auth s) ->
  (Runtime.now s2 < Runtime.now s' + 24 * 3600 - 300)%Q ->
  exists s3,
    Api.get_token api2 s2 = (Runtime.Returns t, s3)
    /\ refreshes s3 = refreshes s2
    /\ sent s3 = sent s2.
Proof.
  intros E Hone Hw Hfile2 Htok2 Hh2 Hnow2.
  pose proof (json_request_quiet_api server oversleep depth) as Hq.
  assert (Hdisk : disk_valid s2 t).
  { destruct (get_token_cases _ s Hq)
      as [(t0 & Hv & E0)|[(t0 & s0 & _ & _ & E0 & _ & _ & Hr)
                         |(s0 & _ & _ & Hs & E0)]].
    - rewrite E0 in E. injection E as <- <-. lia.
    - rewrite E0 in E. injection E as <- <-. lia.
    - destruct Hs as (_ & _ & Hw0 & _ & _ & Hh0 & _).
      destruct (refresh_then_return _ s0 Hq) as [_ Hfresh].
      cbv zeta in Hfresh. rewrite <- E0, E in Hfresh.
      destruct (Hfresh t eq_refl) as (Hne & _ & _ & _ & Hsaved).
      cbn [snd] in Hsaved. rewrite Hw0, Hh0 in Hsaved.
      exists (Runtime.now s' + 24 * 3600)%Q.
      rewrite Hfile2, Hh2. split; [now apply Hsaved|]. split; [exact Hne|].
      exact Hnow2. }
  destruct (get_token_disk_state api2 s2 t (or_introl Htok2) Hdisk)
    as (s3 & E3 & _ & _ & Hr3 & Htr3).
  exists s3. split; [exact E3|]. split; [exact Hr3|].
  unfold sent. now rewrite Htr3.
Qed.

Lemma token_survives_restart_witness :
  let api := Api.json_request revoking_server punctual 3 in
  let s' := (Api.get_token api fresh_client).2 in
  let s2 := Api.set_now 50000%Q (Api.set_token_file (Runtime.token_file s')
                                   fresh_client) in
  exists s3,
    Api.get_token (Api.json_request dead_server punctual 3) s2
    = (Runtime.Returns "fresh", s3)
    /\ sent s3 = sent s2.
Proof.
  cbv zeta.
  destruct (token_survives_restart revoking_server punctual 3 fresh_client
              (Api.get_token (Api.json_request revoking_server punctual 3)
                 fresh_client).2 "fresh"
              (Api.json_request dead_server punctual 3)
              (Api.set_now 50000%Q
                 (Api.set_token_file
                    (Runtime.token_file
                       (Api.get_token
                          (Api.json_request revoking_server punctual 3)
                          fresh_client).2) fresh_client)))
    as (s3 & E3 & _ & Hs3);
    [reflexivity|reflexivity|reflexivity|reflexivity|reflexivity|reflexivity
    |vm_compute; reflexivity|].
  exists s3. split; [exact E3|exact Hs3].
Defined.

(** X9: [reset()] followed by [get_token()] returns the token of the
    token file, without entering [_refresh_token] and without any HTTP
    exchange, whenever that file holds a token that is locally valid; it
    enters [_refresh_token] (once) exactly when the file holds no such
    token. *)
Theorem reset_then_get_token
    (server : nat -> Runtime.http_request -> Runtime.reply)
    (oversleep : nat -> Q) (depth : nat) (s : Runtime.state) :
  let r := Runtime.bind Api.reset
             (fun _ => Api.get_token (Api.json_request server oversleep depth))
             s in
  (forall t, disk_valid s t ->
     r.1 = Runtime.Returns t /\ refreshes r.2 = refreshes s
     /\ sent r.2 = sent s)
  /\ ((forall t, ~ disk_valid s t) -> refreshes r.2 = S (refreshes s)).
Proof.
  cbv zeta.
  pose proof (json_request_quiet_api server oversleep depth) as Hq.
  unfold Api.reset, Api.update_auth. rewrite bind_modify.
  set (s1 := Api.set_auth (Api.with_token None 0 None (Runtime._auth s)) s).
  assert (Hd : forall t, disk_valid s1 t <-> disk_valid s t) by reflexivity.
  split.
  - intros t Hv. apply Hd in Hv.
    destruct (get_token_disk_state (Api.json_request server oversleep depth)
                s1 t (or_introl eq_refl) Hv)
      as (s' & -> & _ & _ & Hr & Htr).
    cbn [fst snd]. split; [reflexivity|]. split; [exact Hr|].
    unfold sent. now rewrite Htr.
  - intros Hnone.
    destruct (get_token_refresh_from (Api.json_request server oversleep depth)
                s1) as (s0 & -> & Hs).
    + intros t (Ht & _). discriminate Ht.
    + intros [_ (t & Hv)]. apply (Hnone t), Hd, Hv.
    + destruct Hs as (_ & _ & _ & Htr & _).
      destruct (refresh_then_return _ s0 Hq) as [Hone _].
      cbv zeta in Hone. rewrite Hone. unfold refreshes. now rewrite Htr.
Qed.

(** ** Rate limiter and request layer, continued (api.py) *)

(** X10: [wait] always returns; it records the clock under its own
    category and leaves the timestamps of all other categories alone; and
    when the category's interval has already elapsed since its last
    timestamp (0 for a category never used) it neither sleeps nor logs. *)
Theorem rate_limiter_categories_independent
    (oversleep : nat -> Q) (category : string) (silent : bool)
    (s : Runtime.state) :
  let r := Api.wait oversleep category silent s in
  r.1 = Runtime.Returns tt
  /\ Runtime._timestamps r.2 !! category = Some (Runtime.now r.2)
  /\ (forall c, c <> category ->
      Runtime._timestamps r.2 !! c = Runtime._timestamps s !! c)
  /\ ((Api.interval_of category
       <= Runtime.now s - default 0%Q (Runtime._timestamps s !! category))%Q ->
      Runtime.trace r.2 = Runtime.trace s /\ Runtime.now r.2 = Runtime.now s).
Proof.
  cbv zeta.
  set (last_time := default 0%Q (Runtime._timestamps s !! category)).
  set (interval := Api.interval_of category).
  destruct (Api.Qltb (Runtime.now s - last_time) interval) eqn:Hb.
  - assert (Hpos : Api.Qltb (interval - (Runtime.now s - last_time)) 0 = false).
    { apply Qltb_ge. apply Qltb_lt in Hb. lra. }
    apply Qltb_lt in Hb as Hlt.
    destruct silent;
      unfold Api.wait, Runtime.bind, Runtime.gets, Api.time_time,
        Runtime.modify, Api.time_sleep, Api.log, Runtime.modify;
      fold last_time; fold interval; cbn; rewrite Hb; cbn; rewrite Hpos; cbn;
      (split; [reflexivity|]); (split; [apply lookup_insert_eq|]);
      (split; [intros c Hc; now apply lookup_insert_ne|]);
      intros Hge; lra.
  - unfold Api.wait, Runtime.bind, Runtime.gets, Api.time_time, Runtime.modify.
    fold last_time; fold interval; cbn; rewrite Hb; cbn.
    split; [reflexivity|]. split; [apply lookup_insert_eq|].
    split; [intros c Hc; now apply lookup_insert_ne|].
    intros _. split; reflexivity.
Qed.

(** *** Counting the HTTP exchanges of a call *)

(** [c] makes at most [k] HTTP exchanges, whatever the state. *)
Definition sends_at_most {A} (k : nat) (c : Runtime.M A) : Prop :=
  forall s, (sent (c s).2 <= sent s + k)%nat.

Lemma sends_weaken {A} k k' (c : Runtime.M A) :
  (k <= k')%nat -> sends_at_most k c -> sends_at_most k' c.
Proof. intros Hk H s. specialize (H s). lia. Qed.

Lemma sends_ret {A} (a : A) : sends_at_most 0 (Runtime.ret a).
Proof. intros s. simpl. lia. Qed.

Lemma sends_raise {A} e : sends_at_most 0 (@Runtime.raise A e).
Proof. intros s. simpl. lia. Qed.

Lemma sends_gets {A} (f : Runtime.state -> A) : sends_at_most 0 (Runtime.gets f).
Proof. intros s. simpl. lia. Qed.

Lemma sends_bind {A B} a b (c : Runtime.M A) (k : A -> Runtime.M B) :
  sends_at_most a c -> (forall x, sends_at_most b (k x)) ->
  sends_at_most (a + b) (Runtime.bind c k).
Proof.
  intros Hc Hk s. unfold Runtime.bind.
  specialize (Hc s). destruct (c s) as [[x|e] s1]; simpl in *.
  - specialize (Hk x s1). lia.
  - lia.
Qed.

Lemma sends_try_except {A} a b (c : Runtime.M A)
    (h : Runtime.exn -> Runtime.M A) :
  sends_at_most a c -> (forall e, sends_at_most b (h e)) ->
  sends_at_most (a + b) (Runtime.try_except c h).
Proof.
  intros Hc Hh s. unfold Runtime.try_except.
  specialize (Hc s). destruct (c s) as [[x|e] s1]; simpl in *.
  - lia.
  - specialize (Hh e s1). lia.
Qed.

Lemma sends_log lvl fmt : sends_at_most 0 (Api.log lvl fmt).
Proof. intros s. unfold Api.log, Runtime.modify, sent. simpl. lia. Qed.

Lemma sends_update_auth f : sends_at_most 0 (Api.update_auth f).
Proof. intros s. unfold Api.update_auth, Runtime.modify, sent. simpl. lia. Qed.

Lemma sends_sleep oversleep d : sends_at_most 0 (Api.time_sleep oversleep d).
Proof.
  intros s. unfold Api.time_sleep, sent.
  destruct (Api.Qltb d 0); simpl; lia.
Qed.

Lemma sends_requests_request server rq :
  sends_at_most 1 (Api.requests_request server rq).
Proof.
  intros s. unfold Api.requests_request, sent.
  destruct (Runtime.outcome _); simpl; lia.
Qed.

Lemma sends_wait oversleep category silent :
  sends_at_most 0 (Api.wait oversleep category silent).
Proof.
  unfold Api.wait.
  apply (sends_bind 0 0); [apply sends_gets|intros last_time].
  apply (sends_bind 0 0); [apply sends_gets|intros t].
  apply (sends_bind 0 0).
  - destruct (Api.Qltb _ _); [|apply sends_ret].
    apply (sends_bind 0 0); [|intros _; apply sends_sleep].
    destruct silent; [apply sends_ret|apply sends_log].
  - intros _. apply (sends_bind 0 0); [apply sends_gets|intros t'].
    intros s. unfold Runtime.modify, sent. simpl. lia.
Qed.

Lemma sends_attempt_once server method url kw :
  sends_at_most 1 (Api.attempt_once server method url kw).
Proof.
  unfold Api.attempt_once.
  apply (sends_bind 1 0); [apply sends_requests_request|intros resp].
  apply (sends_bind 0 0); [|intros _; apply sends_ret].
  unfold Api.raise_for_status.
  destruct (_ && _); [apply sends_raise|apply sends_ret].
Qed.

Lemma sends_request_loop server oversleep n : forall a method url max_retries
    retry_delay kw last,
  sends_at_most n (Api.request_loop server oversleep n a method url
                     max_retries retry_delay kw last).
Proof.
  induction n as [|n IH]; intros; simpl; [apply sends_raise|].
  apply (sends_try_except 1 n); [apply sends_attempt_once|].
  intros e.
  destruct e; try (apply (sends_weaken 0); [lia|apply sends_raise]);
    (apply (sends_bind 0 n); [|intros _; apply IH]);
    (destruct (a <? max_retries); [|apply sends_ret]);
    (apply (sends_bind 0 0); [apply sends_log|intros _; apply sends_sleep]).
Qed.

(** X11: one call of [request] makes at most [max_retries] HTTP
    exchanges, whatever the platform does. *)
Theorem request_sends_at_most_max_retries
    (server : nat -> Runtime.http_request -> Runtime.reply)
    (oversleep : nat -> Q) (method url : string)
    (max_retries retry_delay : Z) (category : string) (silent : bool)
    (kw : Runtime.kwargs) (s : Runtime.state) :
  (sent (Api.request server oversleep method url max_retries retry_delay
           category silent kw s).2
   <= sent s + Z.to_nat max_retries)%nat.
Proof.
  revert s. change (sends_at_most (Z.to_nat max_retries)
                      (Api.request server oversleep method url max_retries
                         retry_delay category silent kw)).
  unfold Api.request.
  apply (sends_bind 0 (Z.to_nat max_retries));
    [apply sends_wait|intros _; apply sends_request_loop].
Qed.

(** X12: with [max_retries <= 0] the loop body never runs: [request]
    waits for the rate limiter, makes no HTTP exchange and raises the
    connectivity error, which then wraps no exception. *)
Theorem request_without_attempts
    (server : nat -> Runtime.http_request -> Runtime.reply)
    (oversleep : nat -> Q) (method url : string)
    (max_retries retry_delay : Z) (category : string) (silent : bool)
    (kw : Runtime.kwargs) (s : Runtime.state) :
  max_retries <= 0 ->
  Api.request server oversleep method url max_retries retry_delay category
    silent kw s
  = (Runtime.Raises (Runtime.RetriesExhausted max_retries None),
     (Api.wait oversleep category silent s).2).
Proof.
  intros Hm. unfold Api.request, Runtime.bind.
  destruct (wait_returns oversleep category silent s) as (s0 & ->).
  cbn [snd]. now replace (Z.to_nat max_retries) with 0%nat by lia.
Qed.

Lemma request_without_attempts_witness :
  (Api.request flaky_server punctual "GET" "u" 0 3 "default" true no_kwargs
     fresh_client).1
  = Runtime.Raises (Runtime.RetriesExhausted 0 None).
Proof.
  now rewrite (request_without_attempts flaky_server punctual "GET" "u" 0 3
                 "default" true no_kwargs fresh_client ltac:(lia)).
Defined.

(** X13: with a negative [retry_delay], a connection error or timeout on
    an attempt that is not the last makes [request] raise the [ValueError]
    of [time.sleep] instead of retrying: only one exchange is made. *)
Theorem request_negative_delay
    (server : nat -> Runtime.http_request -> Runtime.reply)
    (oversleep : nat -> Q) (method url : string)
    (max_retries retry_delay : Z) (category : string) (silent : bool)
    (kw : Runtime.kwargs) (s : Runtime.state) (e : Runtime.exn) :
  retry_delay < 0 -> 1 < max_retries ->
  let kw' := with_default_timeout kw in
  let s0 := (Api.wait oversleep category silent s).2 in
  let r := Api.request server oversleep method url max_retries retry_delay
             category silent kw s in
  attempt_at server method url kw' (sent s0) = Runtime.Raises e ->
  is_transient e = true ->
  r.1 = Runtime.Raises Runtime.SleepValueError
  /\ sent r.2 = S (sent s0).
Proof.
  intros Hd Hm. cbv zeta. intros He Ht.
  unfold Api.request, Runtime.bind.
  destruct (wait_returns oversleep category silent s) as (s0 & E0).
  rewrite E0 in *. cbn [snd] in *.
  destruct (Z.to_nat max_retries) as [|n] eqn:En; [lia|].
  cbn [Api.request_loop]. fold (with_default_timeout kw).
  unfold Runtime.try_except.
  destruct (attempt_once_spec server method url (with_default_timeout kw) s0)
    as (s1 & -> & Htr1).
  rewrite He.
  assert (Hlt : (1 <? max_retries) = true) by now apply Z.ltb_lt.
  assert (Hneg : Api.Qltb (inject_Z retry_delay) 0 = true).
  { apply Qltb_lt. change 0%Q with (inject_Z 0). now rewrite <- Zlt_Qlt. }
  destruct e; try discriminate Ht; rewrite Hlt;
    unfold Runtime.bind, Api.log, Runtime.modify, Api.time_sleep;
    cbn; rewrite Hneg; cbn;
    (split; [reflexivity|]); unfold sent; cbn; now rewrite Htr1.
Qed.

Lemma request_negative_delay_witness :
  (Api.request dead_server punctual "GET" "u" 3 (-1) "default" true no_kwargs
     fresh_client).1
  = Runtime.Raises Runtime.SleepValueError.
Proof.
  refine (proj1 (request_negative_delay dead_server punctual "GET" "u" 3 (-1)
                   "default" true no_kwargs fresh_client
                   (Runtime.ReqTimeout "read timed out") _ _ _ _));
    [lia|lia|reflexivity|reflexivity].
Defined.

(** ** JSON business layer, continued (api.py) *)

(** X14: what [json_request] makes of the answer to its first [request]
    in the cases that involve no token refresh: an exception of [request]
    (HTTP status error, exhausted retries, ...) propagates; a body that is
    not JSON raises the decoding error; [code == 0] returns the parsed
    body; an auth-expiry code with [_retried_auth] set raises the
    permission error; any other code, or no code at all, raises the API
    error with the message of the body or the default one.  In each case
    the call ends in the state [request] left. *)
Theorem json_request_single_exchange
    (server : nat -> Runtime.http_request -> Runtime.reply)
    (oversleep : nat -> Q) (depth : nat) (method url category : string)
    (silent retried : bool) (kw : Runtime.kwargs) (s : Runtime.state) :
  let q := Api.request server oversleep method url 3 3 category silent kw s in
  let r := Api.json_request server oversleep (S depth) method url category
             silent retried kw s in
  (forall e, q.1 = Runtime.Raises e -> r = (Runtime.Raises e, q.2))
  /\ (forall resp, q.1 = Runtime.Returns resp ->
      match Runtime.content resp with
      | Runtime.NotJson =>
          r = (Runtime.Raises
                 (Runtime.ReqOther Runtime.IsOtherException "JSONDecodeError"),
               q.2)
      | Runtime.Json result =>
          let msg := default "未知错误" (Runtime.msg result) in
          (Runtime.code result = Some 0 -> r = (Runtime.Returns result, q.2))
          /\ (forall c, Runtime.code result = Some c ->
                c = 10400 \/ c = 10401 -> retried = true ->
                r = (Runtime.Raises (Runtime.AuthRejected c msg), q.2))
          /\ (forall c, Runtime.code result = Some c ->
                c <> 0 -> c <> 10400 -> c <> 10401 ->
                r = (Runtime.Raises (Runtime.ApiFailed (Some c) msg), q.2))
          /\ (Runtime.code result = None ->
              r = (Runtime.Raises (Runtime.ApiFailed None msg), q.2))
      end).
Proof.
  cbv zeta. rewrite json_request_unfold.
  unfold Runtime.bind, Api.response_json.
  destruct (Api.request server oversleep method url 3 3 category silent kw s)
    as [[resp|e] s1]; cbn [fst snd].
  - split; [discriminate|]. intros resp' [= <-].
    destruct (Runtime.content resp) as [|result];
      cbn [Runtime.ret Runtime.raise]; [reflexivity|].
    repeat split.
    + intros Hc. now rewrite bool_decide_eq_true_2.
    + intros c Hc Hauth ->.
      rewrite Hc, bool_decide_eq_false_2 by (intros [= ->]; lia).
      rewrite andb_false_r.
      destruct Hauth as [-> | ->]; reflexivity.
    + intros c Hc H0 H1 H2.
      rewrite Hc, bool_decide_eq_false_2 by congruence.
      assert (Ha : Api.auth_expired (Some c) = false).
      { unfold Api.auth_expired. apply orb_false_iff. split; now apply Z.eqb_neq. }
      now rewrite Ha.
    + intros Hc. rewrite Hc. reflexivity.
  - split; [|discriminate]. now intros e' [= <-].
Qed.

(** *** At most nine exchanges per business call *)

Lemma sends_response_json resp : sends_at_most 0 (Api.response_json resp).
Proof.
  unfold Api.response_json.
  destruct (Runtime.content resp); [apply sends_raise|apply sends_ret].
Qed.

Lemma sends_request server oversleep method url category silent kw :
  sends_at_most 3 (Api.request server oversleep method url 3 3 category
                     silent kw).
Proof.
  unfold Api.request.
  apply (sends_bind 0 3); [apply sends_wait|intros _].
  apply (sends_request_loop server oversleep 3).
Qed.

Lemma sends_json_request_retried server oversleep depth method url category
    silent kw :
  sends_at_most 3 (Api.json_request server oversleep depth method url category
                     silent true kw).
Proof.
  destruct depth as [|depth];
    [apply (sends_weaken 0); [lia|apply sends_raise]|].
  rewrite json_request_unfold.
  apply (sends_bind 3 0); [apply sends_request|intros resp].
  apply (sends_bind 0 0); [apply sends_response_json|intros result].
  destruct (bool_decide _); [apply sends_ret|].
  rewrite andb_false_r.
  destruct (Api.auth_expired _); apply sends_raise.
Qed.

Lemma sends_return_token : sends_at_most 0 Api.return_token.
Proof. apply sends_gets. Qed.

Lemma sends_load_token_cache : sends_at_most 0 Api._load_token_cache.
Proof.
  unfold Api._load_token_cache.
  apply (sends_bind 0 0); [apply sends_gets|intros f].
  destruct f; [apply sends_ret|apply sends_update_auth|apply sends_update_auth].
Qed.

Lemma sends_save_token_cache : sends_at_most 0 Api._save_token_cache.
Proof.
  unfold Api._save_token_cache.
  apply (sends_bind 0 0); [apply sends_gets|intros w].
  destruct w; [intros s; unfold Runtime.modify, sent; simpl; lia|].
  apply (sends_bind 0 0); [apply sends_gets|intros emptied].
  apply (sends_bind 0 0); [|intros _; apply sends_log].
  destruct emptied; [|apply sends_ret].
  intros s. unfold Runtime.modify, sent. simpl. lia.
Qed.

Lemma sends_refresh_token api k :
  (forall method url category silent kw,
     sends_at_most k (api method url category silent true kw)) ->
  sends_at_most k (Api._refresh_token api).
Proof.
  intros Hapi. unfold Api._refresh_token.
  apply (sends_bind 0 k); [apply sends_log|intros _].
  apply (sends_bind 0 k); [apply sends_gets|intros a].
  replace k with (k + 0)%nat by lia.
  apply sends_bind; [apply Hapi|intros result].
  apply (sends_bind 0 0); [apply sends_gets|intros t].
  apply (sends_bind 0 0); [apply sends_update_auth|intros _].
  apply (sends_bind 0 0); [apply sends_gets|intros tok].
  destruct (negb _); [apply sends_raise|].
  apply (sends_bind 0 0); [apply sends_save_token_cache|intros _].
  apply sends_log.
Qed.

Lemma sends_get_token api k :
  (forall method url category silent kw,
     sends_at_most k (api method url category silent true kw)) ->
  sends_at_most k (Api.get_token api).
Proof.
  intros Hapi.
  assert (Hrefresh : sends_at_most k
            (Runtime.bind (Api._refresh_token api) (fun _ => Api.return_token))).
  { replace k with (k + 0)%nat by lia.
    apply sends_bind; [now apply sends_refresh_token|intros _].
    apply sends_return_token. }
  assert (Hret : sends_at_most k Api.return_token).
  { apply (sends_weaken 0); [lia|apply sends_return_token]. }
  assert (Hclear : forall b : bool,
            sends_at_most 0
              (if b then Api.update_auth (Api.with_token None 0 None)
               else Runtime.ret tt)).
  { intros [|]; [apply sends_update_auth|apply sends_ret]. }
  unfold Api.get_token.
  apply (sends_bind 0 k); [apply sends_gets|intros nw].
  apply (sends_bind 0 k); [apply sends_gets|intros changed].
  apply (sends_bind 0 k); [apply Hclear|intros _].
  apply (sends_bind 0 k); [apply sends_gets|intros a].
  destruct (Api.usable nw a); [exact Hret|].
  destruct (Runtime._token a); [exact Hrefresh|].
  apply (sends_bind 0 k); [apply sends_load_token_cache|intros _].
  apply (sends_bind 0 k); [apply sends_gets|intros a'].
  destruct (Api.usable nw a' && negb _).
  - apply (sends_bind 0 k); [apply sends_log|intros _; exact Hret].
  - apply (sends_bind 0 k); [apply Hclear|intros _; exact Hrefresh].
Qed.

(** X15: one call of [json_request] makes at most nine HTTP exchanges
    (three attempts each for the request, the token request and the one
    retry), and at most three when [_retried_auth] is set, whatever the
    platform answers. *)
Theorem json_request_sends_at_most
    (server : nat -> Runtime.http_request -> Runtime.reply)
    (oversleep : nat -> Q) (depth : nat) (method url category : string)
    (silent retried : bool) (kw : Runtime.kwargs) (s : Runtime.state) :
  (sent (Api.json_request server oversleep depth method url category silent
           retried kw s).2
   <= sent s + (if retried then 3 else 9))%nat.
Proof.
  revert s.
  change (sends_at_most (if retried then 3 else 9)%nat
            (Api.json_request server oversleep depth method url category
               silent retried kw)).
  destruct retried; [apply sends_json_request_retried|].
  destruct depth as [|depth];
    [apply (sends_weaken 0); [lia|apply sends_raise]|].
  rewrite json_request_unfold.
  apply (sends_bind 3 6); [apply sends_request|intros resp].
  apply (sends_bind 0 6); [apply sends_response_json|intros result].
  destruct (bool_decide _);
    [apply (sends_weaken 0); [lia|apply sends_ret]|].
  destruct (Api.auth_expired _); cbn [andb negb];
    [|apply (sends_weaken 0); [lia|apply sends_raise]].
  apply (sends_bind 0 6); [apply sends_log|intros _].
  apply (sends_bind 0 6); [apply sends_update_auth|intros _].
  apply (sends_bind 3 3).
  - apply sends_get_token. intros. apply sends_json_request_retried.
  - intros new_token. apply sends_json_request_retried.
Qed.

(** The header rewrite touches the [access_token] header only, and only
    when the caller had set one. *)
Lemma with_new_token_spec tok kw :
  Runtime.kw_json (Api.with_new_token tok kw) = Runtime.kw_json kw
  /\ Runtime.kw_params (Api.with_new_token tok kw) = Runtime.kw_params kw
  /\ Runtime.kw_timeout (Api.with_new_token tok kw) = Runtime.kw_timeout kw
  /\ (Runtime.kw_headers kw = None -> Api.with_new_token tok kw = kw)
  /\ (forall h, Runtime.kw_headers kw = Some h ->
      h !! "access_token" = None -> Api.with_new_token tok kw = kw)
  /\ (forall h, Runtime.kw_headers kw = Some h ->
      is_Some (h !! "access_token") ->
      exists h',
        Runtime.kw_headers (Api.with_new_token tok kw) = Some h'
        /\ h' !! "access_token" = Some tok
        /\ forall k, k <> "access_token" -> h' !! k = h !! k).
Proof.
  unfold Api.with_new_token.
  destruct (Runtime.kw_headers kw) as [h|] eqn:Hh.
  - destruct (h !! "access_token") as [old|] eqn:Hold.
    + split; [reflexivity|]. split; [reflexivity|]. split; [reflexivity|].
      split; [discriminate|]. split.
      * intros h0 [= <-] Hnone. congruence.
      * intros h0 [= <-] _. eexists. split; [reflexivity|].
        split; [apply lookup_insert_eq|].
        intros k Hk. now apply lookup_insert_ne.
    + split; [reflexivity|]. split; [reflexivity|]. split; [reflexivity|].
      split; [reflexivity|]. split; [reflexivity|].
      intros h0 [= <-] [x Hx]. congruence.
  - split; [reflexivity|]. split; [reflexivity|]. split; [reflexivity|].
    split; [reflexivity|]. split; [reflexivity|]. intros h0 [=].
Qed.

(** X16: when the first answer carries an auth-expiry code and
    [_retried_auth] is not set, [json_request] logs a warning, clears the
    in-memory token and calls [get_token]; a failure of [get_token]
    propagates as it is; with the token [get_token] returns, the request
    is made again with [_retried_auth] set and with keyword arguments
    that differ from the original ones at most in the [access_token]
    header, which is replaced only if the caller had set it. *)
Theorem json_request_auth_retry
    (server : nat -> Runtime.http_request -> Runtime.reply)
    (oversleep : nat -> Q) (depth : nat) (method url category : string)
    (silent : bool) (kw : Runtime.kwargs) (s s1 : Runtime.state)
    (resp : Runtime.response) (result : Runtime.api_result) :
  Api.request server oversleep method url 3 3 category silent kw s
  = (Runtime.Returns resp, s1) ->
  Runtime.content resp = Runtime.Json result ->
  Api.auth_expired (Runtime.code result) = true ->
  let s2 := Api.set_auth (Api.with_token None 0 None (Runtime._auth s1))
              (Api.set_trace
                 (Runtime.Logged Runtime.WARNING
                    "AccessToken 已失效 (code=%d)，正在自动刷新..."
                    :: Runtime.trace s1) s1) in
  let g := Api.get_token (Api.json_request server oversleep depth) s2 in
  let r := Api.json_request server oversleep (S depth) method url category
             silent false kw s in
  (forall e, g.1 = Runtime.Raises e -> r = (Runtime.Raises e, g.2))
  /\ (forall tok, g.1 = Runtime.Returns tok ->
      r = Api.json_request server oversleep depth method url category silent
            true (Api.with_new_token tok kw) g.2
      /\ Runtime.kw_json (Api.with_new_token tok kw) = Runtime.kw_json kw
      /\ Runtime.kw_params (Api.with_new_token tok kw) = Runtime.kw_params kw
      /\ Runtime.kw_timeout (Api.with_new_token tok kw) = Runtime.kw_timeout kw
      /\ (Runtime.kw_headers kw = None -> Api.with_new_token tok kw = kw)
      /\ (forall h, Runtime.kw_headers kw = Some h ->
          h !! "access_token" = None -> Api.with_new_token tok kw = kw)
      /\ (forall h, Runtime.kw_headers kw = Some h ->
          is_Some (h !! "access_token") ->
          exists h',
            Runtime.kw_headers (Api.with_new_token tok kw) = Some h'
            /\ h' !! "access_token" = Some tok
            /\ forall k, k <> "access_token" -> h' !! k = h !! k)).
Proof.
  intros Hq Hc Ha. cbv zeta.
  assert (Hne : bool_decide (Runtime.code result = Some 0) = false).
  { apply bool_decide_eq_false. intros E. rewrite E in Ha. discriminate Ha. }
  set (s2 := Api.set_auth (Api.with_token None 0 None (Runtime._auth s1))
               (Api.set_trace
                  (Runtime.Logged Runtime.WARNING
                     "AccessToken 已失效 (code=%d)，正在自动刷新..."
                     :: Runtime.trace s1) s1)).
  assert (Hr : Api.json_request server oversleep (S depth) method url category
                 silent false kw s
               = match Api.get_token (Api.json_request server oversleep depth)
                         s2 with
                 | (Runtime.Returns tok, s3) =>
                     Api.json_request server oversleep depth method url
                       category silent true (Api.with_new_token tok kw) s3
                 | (Runtime.Raises e, s3) => (Runtime.Raises e, s3)
                 end).
  { rewrite json_request_unfold.
    unfold Runtime.bind at 1. rewrite Hq.
    unfold Runtime.bind at 1. unfold Api.response_json. rewrite Hc.
    cbn [Runtime.ret]. rewrite Hne, Ha. cbn [andb negb].
    unfold Api.log, Api.reset, Api.update_auth.
    rewrite bind_modify, bind_modify. reflexivity. }
  rewrite Hr.
  destruct (Api.get_token (Api.json_request server oversleep depth) s2)
    as [[tok|e] s3]; cbn [fst snd].
  - split; [discriminate|]. intros tok' [= <-].
    split; [reflexivity|]. apply with_new_token_spec.
  - split; [|discriminate]. now intros e' [= <-].
Qed.

Definition rejected_response : Runtime.response :=
  {| Runtime.status_code := 200;
     Runtime.content :=
       Runtime.Json {| Runtime.code := Some 10401;
                       Runtime.msg := Some "token expired";
                       Runtime.data := None |} |}.

Lemma json_request_auth_retry_witness :
  let s1 := (Api.request revoking_server punctual "GET" detail_url 3 3
               "default" true (with_header "stale") stale_client_no_file).2 in
  let s2 := Api.set_auth (Api.with_token None 0 None (Runtime._auth s1))
              (Api.set_trace
                 (Runtime.Logged Runtime.WARNING
                    "AccessToken 已失效 (code=%d)，正在自动刷新..."
                    :: Runtime.trace s1) s1) in
  Api.json_request revoking_server punctual 3 "GET" detail_url "default" true
    false (with_header "stale") stale_client_no_file
  = Api.json_request revoking_server punctual 2 "GET" detail_url "default" true
      true (Api.with_new_token "fresh" (with_header "stale"))
      (Api.get_token (Api.json_request revoking_server punctual 2) s2).2.
Proof.
  cbv zeta.
  refine (proj1 (proj2 (json_request_auth_retry revoking_server punctual 2
                          "GET" detail_url "default" true (with_header "stale")
                          stale_client_no_file _ rejected_response _ _ _ _)
                   "fresh" _));
    [vm_compute; reflexivity|reflexivity|reflexivity|vm_compute; reflexivity].
Defined.

(** ** Upload stream, continued (api.py) *)

(** The bytes a sequence of [read] calls returns, in order, and the
    object they leave. *)
Fixpoint read_bytes (percent : Z -> Z -> Z) (sizes : list (option Z))
    (u : UploadProgress.t) : list Byte.byte * UploadProgress.t :=
  match sizes with
  | [] => ([], u)
  | size :: sizes' =>
      let '(chunk, u', _) := UploadProgress.read percent size u in
      let '(more, u'') := read_bytes percent sizes' u' in
      (chunk ++ more, u'')
  end.

(** [read()], [read(None)], [read(-1)] or [read(n)] with [n >= 0]. *)
Definition plain_size (size : option Z) : Prop :=
  match size with
  | None => True
  | Some n => n = -1 \/ 0 <= n
  end.

(** [read()], [read(None)] or [read(-1)]: everything that is left. *)
Definition whole_size (size : option Z) : Prop :=
  size = None \/ size = Some (-1).

(** The position is inside the buffer the object was built on. *)
Definition in_buffer (data : list Byte.byte) (u : UploadProgress.t) : Prop :=
  UploadProgress._data u = data
  /\ UploadProgress._total u = Z.of_nat (length data)
  /\ 0 <= UploadProgress._pos u <= UploadProgress._total u.

Lemma clamp_index_inside len i : 0 <= i <= len -> UploadProgress.clamp_index len i = i.
Proof.
  intros H. unfold UploadProgress.clamp_index.
  destruct (i <? 0) eqn:E; [apply Z.ltb_lt in E; lia|lia].
Qed.

Lemma slice_from_inside (data : list Byte.byte) pos :
  0 <= pos <= Z.of_nat (length data) ->
  UploadProgress.slice_from data pos = drop (Z.to_nat pos) data.
Proof.
  intros H. unfold UploadProgress.slice_from. now rewrite clamp_index_inside.
Qed.

Lemma slice_inside (data : list Byte.byte) lo hi :
  0 <= lo <= hi -> hi <= Z.of_nat (length data) ->
  UploadProgress.slice data lo hi
  = take (Z.to_nat hi - Z.to_nat lo) (drop (Z.to_nat lo) data).
Proof.
  intros H1 H2. unfold UploadProgress.slice.
  rewrite !clamp_index_inside by lia. f_equal. lia.
Qed.

(** One [read]: the chunk continues the prefix returned so far. *)
Lemma read_extends percent data size u :
  in_buffer data u -> plain_size size ->
  let r := UploadProgress.read percent size u in
  in_buffer data r.1.2
  /\ UploadProgress._pos u <= UploadProgress._pos r.1.2
  /\ take (Z.to_nat (UploadProgress._pos u)) data ++ r.1.1
     = take (Z.to_nat (UploadProgress._pos r.1.2)) data
  /\ (whole_size size ->
      UploadProgress._pos r.1.2 = UploadProgress._total r.1.2).
Proof.
  intros (Hd & Ht & Hp) Hs. cbv zeta.
  assert (Hwhole :
    let u1 := UploadProgress.moved_to (UploadProgress._total u) u in
    in_buffer data u1
    /\ UploadProgress._pos u <= UploadProgress._pos u1
    /\ take (Z.to_nat (UploadProgress._pos u)) data
         ++ UploadProgress.slice_from (UploadProgress._data u)
              (UploadProgress._pos u)
       = take (Z.to_nat (UploadProgress._pos u1)) data
    /\ UploadProgress._pos u1 = UploadProgress._total u1).
  { cbn. unfold in_buffer. cbn. rewrite Hd, slice_from_inside by lia.
    rewrite take_drop, Ht, Nat2Z.id, firstn_all. repeat split; auto; lia. }
  unfold UploadProgress.read.
  destruct (UploadProgress._total u <=? UploadProgress._pos u) eqn:Hend.
  { apply Z.leb_le in Hend. cbn [fst snd].
    split; [repeat split; auto; lia|]. split; [lia|].
    split; [apply app_nil_r|]. intros _. lia. }
  assert (Hpart : forall sz, 0 <= sz ->
    let end_ := Z.min (UploadProgress._pos u + sz) (UploadProgress._total u) in
    let u1 := UploadProgress.moved_to end_ u in
    in_buffer data u1
    /\ UploadProgress._pos u <= UploadProgress._pos u1
    /\ take (Z.to_nat (UploadProgress._pos u)) data
         ++ UploadProgress.slice (UploadProgress._data u)
              (UploadProgress._pos u) end_
       = take (Z.to_nat (UploadProgress._pos u1)) data).
  { intros sz Hsz. cbn. unfold in_buffer. cbn.
    rewrite Hd, slice_inside by lia.
    rewrite take_take_drop. repeat split; auto; try lia. f_equal. lia. }
  set (finish := fun (cu : list Byte.byte * UploadProgress.t) =>
                   let '(chunk, u1) := cu in
                   if 0 <? UploadProgress._total u1 then
                     let pct := percent (UploadProgress._pos u1)
                                  (UploadProgress._total u1) in
                     if (UploadProgress._last_pct u1 + 20 <=? pct)
                        || (100 <=? pct)
                     then (chunk, UploadProgress.reported pct u1,
                           if UploadProgress._on_progress u1 then Some pct
                           else None)
                     else (chunk, u1, None)
                   else (chunk, u1, None)).
  assert (Hfin : forall chunk u1,
            (finish (chunk, u1)).1.1 = chunk
            /\ UploadProgress._pos (finish (chunk, u1)).1.2
               = UploadProgress._pos u1
            /\ UploadProgress._total (finish (chunk, u1)).1.2
               = UploadProgress._total u1
            /\ UploadProgress._data (finish (chunk, u1)).1.2
               = UploadProgress._data u1).
  { intros chunk u1. unfold finish.
    destruct (0 <? _); [|auto].
    destruct (_ || _); auto. }
  assert (Hstep : forall chunk u1,
            in_buffer data u1 ->
            UploadProgress._pos u <= UploadProgress._pos u1 ->
            take (Z.to_nat (UploadProgress._pos u)) data ++ chunk
            = take (Z.to_nat (UploadProgress._pos u1)) data ->
            in_buffer data (finish (chunk, u1)).1.2
            /\ UploadProgress._pos u
               <= UploadProgress._pos (finish (chunk, u1)).1.2
            /\ take (Z.to_nat (UploadProgress._pos u)) data
                 ++ (finish (chunk, u1)).1.1
               = take (Z.to_nat (UploadProgress._pos (finish (chunk, u1)).1.2))
                   data).
  { intros chunk u1 (Hd1 & Ht1 & Hp1) Hle Hcat.
    unfold in_buffer.
    destruct (Hfin chunk u1) as (-> & -> & -> & ->).
    repeat split; auto; lia. }
  destruct size as [sz|].
  - destruct (sz =? -1) eqn:Hm1.
    + destruct Hwhole as (H1 & H2 & H3 & H4).
      destruct (Hstep _ _ H1 H2 H3) as (G1 & G2 & G3).
      fold (finish (UploadProgress.slice_from (UploadProgress._data u)
                      (UploadProgress._pos u),
                    UploadProgress.moved_to (UploadProgress._total u) u)).
      split; [exact G1|]. split; [exact G2|]. split; [exact G3|].
      intros _. destruct (Hfin (UploadProgress.slice_from
                                  (UploadProgress._data u)
                                  (UploadProgress._pos u))
                               (UploadProgress.moved_to
                                  (UploadProgress._total u) u))
        as (_ & -> & -> & _). exact H4.
    + apply Z.eqb_neq in Hm1. destruct Hs as [Hs|Hs]; [contradiction|].
      destruct (Hpart sz Hs) as (H1 & H2 & H3).
      destruct (Hstep _ _ H1 H2 H3) as (G1 & G2 & G3).
      fold (finish (UploadProgress.slice (UploadProgress._data u)
                      (UploadProgress._pos u)
                      (Z.min (UploadProgress._pos u + sz)
                         (UploadProgress._total u)),
                    UploadProgress.moved_to
                      (Z.min (UploadProgress._pos u + sz)
                         (UploadProgress._total u)) u)).
      split; [exact G1|]. split; [exact G2|]. split; [exact G3|].
      intros [Hw|Hw]; [discriminate|]. injection Hw as ->. contradiction.
  - destruct Hwhole as (H1 & H2 & H3 & H4).
    destruct (Hstep _ _ H1 H2 H3) as (G1 & G2 & G3).
    fold (finish (UploadProgress.slice_from (UploadProgress._data u)
                    (UploadProgress._pos u),
                  UploadProgress.moved_to (UploadProgress._total u) u)).
    split; [exact G1|]. split; [exact G2|]. split; [exact G3|].
    intros _. destruct (Hfin (UploadProgress.slice_from
                                (UploadProgress._data u)
                                (UploadProgress._pos u))
                             (UploadProgress.moved_to
                                (UploadProgress._total u) u))
      as (_ & -> & -> & _). exact H4.
Qed.

Lemma read_bytes_extends percent data sizes : forall u,
  in_buffer data u -> Forall plain_size sizes ->
  let r := read_bytes percent sizes u in
  in_buffer data r.2
  /\ UploadProgress._pos u <= UploadProgress._pos r.2
  /\ take (Z.to_nat (UploadProgress._pos u)) data ++ r.1
     = take (Z.to_nat (UploadProgress._pos r.2)) data
  /\ (Exists whole_size sizes ->
      UploadProgress._pos r.2 = UploadProgress._total r.2).
Proof.
  induction sizes as [|size sizes IH]; intros u Hu Hall; cbv zeta.
  - cbn. split; [exact Hu|]. split; [lia|]. split; [apply app_nil_r|].
    intros H. inversion H.
  - inversion Hall as [|? ? Hsize Hall']; subst.
    pose proof (read_extends percent data size u Hu Hsize) as Hread.
    cbv zeta in Hread. cbn [read_bytes].
    destruct (UploadProgress.read percent size u) as [[chunk u'] call].
    cbn [fst snd] in Hread. destruct Hread as (Hu' & Hle & Hcat & Hwhole).
    specialize (IH u' Hu' Hall'). cbv zeta in IH.
    destruct (read_bytes percent sizes u') as [more u''].
    cbn [fst snd] in *. destruct IH as (Hu'' & Hle' & Hcat' & Hwhole').
    split; [exact Hu''|]. split; [lia|]. split.
    + now rewrite app_assoc, Hcat.
    + intros Hex. inversion Hex as [? ? Hw|? ? Hw]; subst; [|auto].
      destruct Hu' as (_ & Ht' & _). destruct Hu'' as (_ & Ht'' & Hp'').
      specialize (Hwhole Hw). lia.
Qed.

(** X17: on a stream built over [data], calls of [read] with sizes that
    are [None], [-1] or non-negative return, one after the other, the
    bytes of [data] in order without gap or repetition: their
    concatenation is the prefix of [data] up to the final position; and
    once a [read()] / [read(-1)] has been made it is all of [data]. *)
Theorem upload_reads_return_the_data
    (percent : Z -> Z -> Z) (data : list Byte.byte) (on_progress : bool)
    (sizes : list (option Z)) :
  Forall plain_size sizes ->
  let r := read_bytes percent sizes (UploadProgress.init data on_progress) in
  r.1 = take (Z.to_nat (UploadProgress._pos r.2)) data
  /\ 0 <= UploadProgress._pos r.2 <= Z.of_nat (length data)
  /\ (Exists whole_size sizes -> r.1 = data).
Proof.
  intros Hall. cbv zeta.
  assert (Hinit : in_buffer data (UploadProgress.init data on_progress)).
  { unfold in_buffer. cbn. repeat split; lia. }
  destruct (read_bytes_extends percent data sizes _ Hinit Hall)
    as ((_ & Ht & Hp) & _ & Hcat & Hwhole).
  assert (Hc : (read_bytes percent sizes
                  (UploadProgress.init data on_progress)).1
               = take (Z.to_nat
                         (UploadProgress._pos
                            (read_bytes percent sizes
                               (UploadProgress.init data on_progress)).2))
                   data) by exact Hcat.
  split; [exact Hc|]. split; [lia|].
  intros Hex. rewrite Hc, (Hwhole Hex), Ht, Nat2Z.id. apply firstn_all.
Qed.

Definition abc_bytes : list Byte.byte :=
  [Byte.x61; Byte.x62; Byte.x63; Byte.x64; Byte.x65].

Lemma upload_reads_return_the_data_witness :
  (read_bytes UploadProgress.exact_percent [Some 2; Some 0; None; Some 4]
     (UploadProgress.init abc_bytes true)).1 = abc_bytes.
Proof.
  refine (proj2 (proj2 (upload_reads_return_the_data
                          UploadProgress.exact_percent abc_bytes true
                          [Some 2; Some 0; None; Some 4] _)) _).
  - repeat constructor; cbn; lia.
  - right. right. left. now left.
Defined.

(** A negative size other than [-1] moves the position backwards from the
    end: the bytes returned are then no prefix of the data. *)
Example read_negative_size :
  let r := read_bytes UploadProgress.exact_percent [Some (-2); Some 4]
             (UploadProgress.init abc_bytes true) in
  r.1 = [Byte.x61; Byte.x62; Byte.x63] /\ UploadProgress._pos r.2 = 2.
Proof. split; reflexivity. Qed.

(** ** Billing keywords, continued (api.py) *)

Lemma startswith_inv p : forall s,
  Py.startswith p s = true -> exists post, s = (p ++ post)%string.
Proof.
  induction p as [|a p IH]; intros s H.
  - exists s. reflexivity.
  - destruct s as [|b s]; [discriminate|]. simpl in H.
    destruct (Ascii.eqb_spec a b) as [->|]; [|discriminate].
    destruct (IH s H) as (post & ->). exists post. reflexivity.
Qed.

Lemma contains_inv kw : forall msg,
  Py.contains kw msg = true ->
  exists pre post, msg = (pre ++ kw ++ post)%string.
Proof.
  induction msg as [|c msg IH]; intros H; cbn [Py.contains] in H;
    apply orb_true_iff in H as [H|H].
  - destruct (startswith_inv _ _ H) as (post & E). exists ""%string, post.
    exact E.
  - discriminate.
  - destruct (startswith_inv _ _ H) as (post & E). exists ""%string, post.
    exact E.
  - destruct (IH H) as (pre & post & ->). exists (String c pre), post.
    reflexivity.
Qed.

Lemma append_empty_inv (a b : string) :
  (a ++ b)%string = ""%string -> a = ""%string /\ b = ""%string.
Proof.
  destruct a as [|c a]; intros H.
  - split; [reflexivity|exact H].
  - rewrite append_cons in H. discriminate H.
Qed.

(** X18: [check_billing_error(msg)] raises exactly when one of the five
    billing keywords occurs somewhere in [msg], and what it raises is the
    billing error carrying [msg]; in particular it never raises on an
    empty message. *)
Theorem check_billing_error_iff (msg : string) :
  (Polling.check_billing_error msg = Some (Runtime.BillingError msg)
   <-> exists kw pre post,
         In kw Polling.BILLING_KEYWORDS /\ msg = (pre ++ kw ++ post)%string)
  /\ (Polling.check_billing_error msg = None
      <-> ~ exists kw pre post,
              In kw Polling.BILLING_KEYWORDS
              /\ msg = (pre ++ kw ++ post)%string)
  /\ (forall e, Polling.check_billing_error msg = Some e ->
      e = Runtime.BillingError msg).
Proof.
  assert (Hfound : Py.any_in Polling.BILLING_KEYWORDS msg = true
                   <-> exists kw pre post,
                         In kw Polling.BILLING_KEYWORDS
                         /\ msg = (pre ++ kw ++ post)%string).
  { split; [|apply any_in_spec].
    unfold Py.any_in. intros H. apply existsb_exists in H as (kw & Hin & Hc).
    destruct (contains_inv kw msg Hc) as (pre & post & E). eauto. }
  assert (Hnonempty : (exists kw pre post,
                         In kw Polling.BILLING_KEYWORDS
                         /\ msg = (pre ++ kw ++ post)%string) ->
                      Py.truthy msg = true).
  { intros (kw & pre & post & Hin & ->). apply truthy_nonempty. intros E.
    apply append_empty_inv in E as [_ E].
    apply append_empty_inv in E as [E _]. subst kw.
    repeat (destruct Hin as [Hin|Hin]; [discriminate Hin|]). exact Hin. }
  unfold Polling.check_billing_error.
  destruct (Py.truthy msg) eqn:Ht; cbn [negb].
  - destruct (Py.any_in Polling.BILLING_KEYWORDS msg) eqn:Ha.
    + pose proof (proj1 Hfound eq_refl) as Hex.
      split; [tauto|]. split; [|now intros e [= <-]].
      split; [discriminate|]. intros Hn. contradiction.
    + split; [|split; [|discriminate]].
      * split; [discriminate|]. intros H. apply Hfound in H. discriminate H.
      * split; [|reflexivity]. intros _ H. apply Hfound in H. discriminate H.
  - split; [|split; [|discriminate]].
    + split; [discriminate|]. intros H. apply Hnonempty in H. congruence.
    + split; [|reflexivity]. intros _ H. apply Hnonempty in H. congruence.
Qed.

(** ** Polling loops, continued *)

(** X19: the two polling loops that hand back a result return only what
    the platform reported.  A TTS poll that returns [(url, duration)] has
    received, before its deadline, a task state with status 9, no error
    message, the non-empty audio URL [url] and that duration (0 when
    absent); a lip-sync poll that returns [(url, duration)] has received
    a task detail with status 20, the non-empty video URL [url] and that
    duration. *)
Theorem poll_results_come_from_platform
    (start : Q) (max_wait : Z) (cb : bool) :
  (forall script effs url dur,
     Polling.TTS._poll start max_wait cb script
     = (effs, Polling.Done (url, dur)) ->
     exists tk d,
       In tk script
       /\ Polling.overdue start (Polling.clock tk) max_wait = false
       /\ Polling.answer tk = Polling.Answers (Some d)
       /\ Polling.TTS.status d = Some 9
       /\ default ""%string (Polling.TTS.errMsg d) = ""%string
       /\ Polling.TTS.full_url d = Some url /\ url <> ""%string
       /\ dur = default 0%Q (Polling.TTS.full_duration d))
  /\ (forall script effs url dur,
        Polling.LipSync._poll start max_wait cb script
        = (effs, Polling.Done (url, dur)) ->
        exists tk d,
          In tk script
          /\ Polling.overdue start (Polling.clock tk) max_wait = false
          /\ Polling.answer tk = Polling.Answers (Some d)
          /\ Polling.LipSync.status d = Some 20
          /\ Polling.LipSync.video_url d = Some url /\ url <> ""%string
          /\ dur = default 0 (Polling.LipSync.duration d)).
Proof.
  split.
  - intros script effs url dur H. unfold Polling.TTS._poll in H.
    destruct (Polling.drive _ script _) as [effs0 r0] eqn:Hd.
    unfold Polling.after in H. cbn [fst snd] in H. injection H as _ ->.
    destruct (drive_done_from _ _ _ _ _ Hd) as (tk & v0 & effs1 & Hin & Hstep).
    unfold Polling.TTS.step in Hstep.
    destruct (Polling.overdue start (Polling.clock tk) max_wait) eqn:Ho;
      [discriminate|].
    destruct (Polling.answer tk) as [[d|]|e] eqn:Ha;
      [|discriminate|destruct (5 <=? _); discriminate].
    exists tk, d. split; [exact Hin|]. split; [exact Ho|].
    split; [exact Ha|].
    unfold Polling.TTS.on_answer in Hstep.
    destruct (Polling.TTS.status d) as [st|]; [|discriminate].
    destruct (st =? 9) eqn:H9.
    2:{ destruct (st =? 1); discriminate. }
    apply Z.eqb_eq in H9. subst st. split; [reflexivity|].
    destruct (Py.truthy (default "" (Polling.TTS.errMsg d))) eqn:Ht.
    { destruct (Polling.check_billing_error _); discriminate. }
    apply truthy_false_empty in Ht. split; [exact Ht|].
    destruct (Polling.TTS.full_url d) as [u|]; [|cbn in Hstep; discriminate].
    cbn in Hstep.
    destruct (Py.truthy u) eqn:Hu; cbn in Hstep; [|discriminate].
    injection Hstep as _ <- <-.
    split; [reflexivity|]. split; [now apply truthy_nonempty|reflexivity].
  - intros script effs url dur H. unfold Polling.LipSync._poll in H.
    destruct (Polling.drive _ script _) as [effs0 r0] eqn:Hd.
    unfold Polling.after in H. cbn [fst snd] in H. injection H as _ ->.
    destruct (drive_done_from _ _ _ _ _ Hd) as (tk & v0 & effs1 & Hin & Hstep).
    unfold Polling.LipSync.step in Hstep.
    destruct (Polling.overdue start (Polling.clock tk) max_wait) eqn:Ho;
      [discriminate|].
    destruct (Polling.answer tk) as [result|e] eqn:Ha; [|discriminate].
    cbv zeta in Hstep.
    destruct (bool_decide
                (Polling.LipSync.status (default Polling.LipSync.no_data result)
                 = Some 20)) eqn:H20.
    2:{ destruct (bool_decide (_ = Some 30)); [|discriminate].
        destruct (Polling.check_billing_error _); discriminate. }
    apply bool_decide_eq_true in H20.
    destruct result as [d|]; [|discriminate H20].
    cbn in Hstep, H20.
    exists tk, d. split; [exact Hin|]. split; [exact Ho|].
    split; [exact Ha|]. split; [exact H20|].
    destruct (Polling.LipSync.video_url d) as [u|];
      [|cbn in Hstep; discriminate].
    cbn in Hstep.
    destruct (Py.truthy u) eqn:Hu; cbn in Hstep; [|discriminate].
    injection Hstep as _ <- <-.
    split; [reflexivity|]. split; [now apply truthy_nonempty|reflexivity].
Qed.

(** X20: the two polling loops that only wait return normally only on the
    platform's word: a voice-clone poll that returns has received, before
    its deadline, a status answer with status 2, and a file-status poll
    that returns has received one with status 1. *)
Theorem poll_completion_is_reported
    (start : Q) (max_wait poll_interval : Z) (cb : bool) :
  (forall script effs,
     Polling.Clone._poll_clone start max_wait cb script
     = (effs, Polling.Done tt) ->
     exists tk d,
       In tk script
       /\ Polling.overdue start (Polling.clock tk) max_wait = false
       /\ Polling.answer tk = Polling.Answers (Some d)
       /\ Polling.Clone.status d = Some 2)
  /\ (forall script effs,
        Polling.FileStatus._poll_file_status start poll_interval max_wait
          script = (effs, Polling.Done tt) ->
        exists tk,
          In tk script
          /\ Polling.overdue start (Polling.clock tk) max_wait = false
          /\ Polling.answer tk = Polling.Answers (Some 1)).
Proof.
  split.
  - intros script effs H. unfold Polling.Clone._poll_clone in H.
    destruct (Polling.drive _ script _) as [effs0 r0] eqn:Hd.
    unfold Polling.after in H. cbn [fst snd] in H. injection H as _ ->.
    destruct (drive_done_from _ _ _ _ _ Hd) as (tk & v0 & effs1 & Hin & Hstep).
    unfold Polling.Clone.step in Hstep.
    destruct (Polling.overdue start (Polling.clock tk) max_wait) eqn:Ho;
      [discriminate|].
    destruct (Polling.answer tk) as [[d|]|e] eqn:Ha;
      [|discriminate|destruct (5 <=? _); discriminate].
    exists tk, d. split; [exact Hin|]. split; [exact Ho|]. split; [exact Ha|].
    unfold Polling.Clone.on_answer in Hstep.
    destruct (Polling.Clone.status d) as [st|]; [|discriminate].
    destruct (st =? 2) eqn:H2; [apply Z.eqb_eq in H2; now subst|].
    destruct (st =? 4);
      [destruct (Polling.check_billing_error _); discriminate|].
    destruct (st =? 3); [discriminate|].
    destruct (st =? 99); [discriminate|].
    destruct (_ || _); discriminate.
  - intros script effs H. unfold Polling.FileStatus._poll_file_status in H.
    destruct (drive_done_from _ _ _ _ _ H) as (tk & v0 & effs1 & Hin & Hstep).
    unfold Polling.FileStatus.step in Hstep.
    destruct (Polling.overdue start (Polling.clock tk) max_wait) eqn:Ho;
      [discriminate|].
    exists tk. split; [exact Hin|]. split; [exact Ho|].
    destruct (Polling.answer tk) as [d|e] eqn:Ha.
    + unfold Polling.after in Hstep. cbn [fst snd] in Hstep.
      destruct (default 0 d =? 1) eqn:H1.
      * apply Z.eqb_eq in H1. destruct d as [st|]; [|discriminate H1].
        cbn in H1. now subst.
      * destruct (_ || _); discriminate.
    + unfold Polling.after in Hstep. cbn [fst snd] in Hstep.
      destruct (Runtime.class_of e); discriminate.
Qed.

(** X21: in each of the four polling loops the deadline is checked at the
    top of every iteration, before the status query: when a run is still
    polling and the next iteration starts more than [max_wait] seconds
    after [start], the loop raises its timeout error at once, with no
    further effect and whatever the status query would have answered. *)
Theorem polling_deadline
    (start : Q) (max_wait poll_interval : Z) (cb : bool) :
  (forall before tk rest effs v,
     Polling.TTS._poll start max_wait cb before = (effs, Polling.Polling v) ->
     Polling.overdue start (Polling.clock tk) max_wait = true ->
     Polling.TTS._poll start max_wait cb (before ++ tk :: rest)
     = (effs, Polling.Raised
                (Runtime.TTSTimeout (Polling.clock tk - start)%Q)))
  /\ (forall before tk rest effs v,
        Polling.Clone._poll_clone start max_wait cb before
        = (effs, Polling.Polling v) ->
        Polling.overdue start (Polling.clock tk) max_wait = true ->
        Polling.Clone._poll_clone start max_wait cb (before ++ tk :: rest)
        = (effs, Polling.Raised
                   (Runtime.CloneTimeout (Polling.clock tk - start)%Q)))
  /\ (forall before tk rest effs v,
        Polling.LipSync._poll start max_wait cb before
        = (effs, Polling.Polling v) ->
        Polling.overdue start (Polling.clock tk) max_wait = true ->
        Polling.LipSync._poll start max_wait cb (before ++ tk :: rest)
        = (effs, Polling.Raised Runtime.LipSyncTimeout))
  /\ (forall before tk rest effs v,
        Polling.FileStatus._poll_file_status start poll_interval max_wait
          before = (effs, Polling.Polling v) ->
        Polling.overdue start (Polling.clock tk) max_wait = true ->
        Polling.FileStatus._poll_file_status start poll_interval max_wait
          (before ++ tk :: rest)
        = (effs, Polling.Raised
                   (Runtime.FileSyncTimeout (Polling.clock tk - start)%Q))).
Proof.
  repeat split.
  - intros before tk rest effs v H Ho. unfold Polling.TTS._poll in *.
    destruct (Polling.drive _ before _) as [effs0 r0] eqn:Hd.
    unfold Polling.after in H. cbn [fst snd] in H. injection H as <- ->.
    rewrite (drive_app_raise _ before tk rest _ effs0 v []
               (Runtime.TTSTimeout (Polling.clock tk - start)%Q) Hd).
    + unfold Polling.after. cbn [fst snd]. now rewrite app_nil_r.
    + unfold Polling.TTS.step. now rewrite Ho.
  - intros before tk rest effs v H Ho. unfold Polling.Clone._poll_clone in *.
    destruct (Polling.drive _ before _) as [effs0 r0] eqn:Hd.
    unfold Polling.after in H. cbn [fst snd] in H. injection H as <- ->.
    rewrite (drive_app_raise _ before tk rest _ effs0 v []
               (Runtime.CloneTimeout (Polling.clock tk - start)%Q) Hd).
    + unfold Polling.after. cbn [fst snd]. now rewrite app_nil_r.
    + unfold Polling.Clone.step. now rewrite Ho.
  - intros before tk rest effs v H Ho. unfold Polling.LipSync._poll in *.
    destruct (Polling.drive _ before _) as [effs0 r0] eqn:Hd.
    unfold Polling.after in H. cbn [fst snd] in H. injection H as <- ->.
    rewrite (drive_app_raise _ before tk rest _ effs0 v []
               Runtime.LipSyncTimeout Hd).
    + unfold Polling.after. cbn [fst snd]. now rewrite app_nil_r.
    + unfold Polling.LipSync.step. now rewrite Ho.
  - intros before tk rest effs v H Ho.
    unfold Polling.FileStatus._poll_file_status in *.
    rewrite (drive_app_raise _ before tk rest _ effs v []
               (Runtime.FileSyncTimeout (Polling.clock tk - start)%Q) H).
    + now rewrite app_nil_r.
    + unfold Polling.FileStatus.step. now rewrite Ho.
Qed.

Definition mentions_billing (msg : string) : Prop :=
  exists kw pre post,
    In kw Polling.BILLING_KEYWORDS /\ msg = (pre ++ kw ++ post)%string.

Lemma check_billing_error_quiet msg :
  ~ mentions_billing msg -> Polling.check_billing_error msg = None.
Proof.
  intros Hno. unfold Polling.check_billing_error.
  destruct (negb (Py.truthy msg)); [reflexivity|].
  destruct (Py.any_in Polling.BILLING_KEYWORDS msg) eqn:Ha; [|reflexivity].
  exfalso. apply Hno. unfold Py.any_in in Ha.
  apply existsb_exists in Ha as (kw & Hin & Hc).
  destruct (contains_inv kw msg Hc) as (pre & post & E).
  exists kw, pre, post. auto.
Qed.

Lemma check_billing_error_loud msg :
  mentions_billing msg ->
  Polling.check_billing_error msg = Some (Runtime.BillingError msg).
Proof.
  intros Hm. apply check_billing_error_raises; [|exact Hm].
  destruct Hm as (kw & pre & post & Hin & ->). intros E.
  apply append_empty_inv in E as [_ E].
  apply append_empty_inv in E as [E _]. subst kw.
  repeat (destruct Hin as [Hin|Hin]; [discriminate Hin|]). exact Hin.
Qed.

(** X22: a failed job ends the voice-clone and lip-sync polls the way it
    ends the TTS poll.  On a status answer with status 4 the voice-clone
    poll raises the billing error when the error message (the text
    "未知错误" when the answer has none) mentions a billing keyword and the
    clone failure carrying that message otherwise; on a task detail with
    status 30 the lip-sync poll raises the billing error when the message
    mentions a billing keyword and the lip-sync failure carrying the
    message (empty when absent) otherwise. *)
Theorem failed_job_errors (start : Q) (max_wait : Z) (cb : bool) :
  (forall before tk rest effs v d,
     Polling.Clone._poll_clone start max_wait cb before
     = (effs, Polling.Polling v) ->
     Polling.overdue start (Polling.clock tk) max_wait = false ->
     Polling.answer tk = Polling.Answers (Some d) ->
     Polling.Clone.status d = Some 4 ->
     let m := default "未知错误"%string (Polling.Clone.err_msg d) in
     let r := Polling.Clone._poll_clone start max_wait cb
                (before ++ tk :: rest) in
     (mentions_billing m ->
      r = (effs, Polling.Raised (Runtime.BillingError m)))
     /\ (~ mentions_billing m ->
         r = (effs, Polling.Raised (Runtime.CloneFailed m))))
  /\ (forall before tk rest effs v d,
        Polling.LipSync._poll start max_wait cb before
        = (effs, Polling.Polling v) ->
        Polling.overdue start (Polling.clock tk) max_wait = false ->
        Polling.answer tk = Polling.Answers (Some d) ->
        Polling.LipSync.status d = Some 30 ->
        let m := default ""%string (Polling.LipSync.msg d) in
        let r := Polling.LipSync._poll start max_wait cb
                   (before ++ tk :: rest) in
        (mentions_billing m ->
         r.2 = Polling.Raised (Runtime.BillingError m))
        /\ (~ mentions_billing m ->
            r.2 = Polling.Raised (Runtime.LipSyncFailed m))).
Proof.
  split.
  - intros before tk rest effs v d H Ho Ha Hst. cbv zeta.
    unfold Polling.Clone._poll_clone in *.
    destruct (Polling.drive _ before _) as [effs0 r0] eqn:Hd.
    unfold Polling.after in H. cbn [fst snd] in H. injection H as <- ->.
    assert (Hstep : forall e,
              Polling.check_billing_error
                (default "未知错误"%string (Polling.Clone.err_msg d)) = e ->
              Polling.Clone.step start max_wait cb tk v
              = ([], Polling.Raised
                       (default
                          (Runtime.CloneFailed
                             (default "未知错误"%string
                                (Polling.Clone.err_msg d))) e))).
    { intros e He. unfold Polling.Clone.step, Polling.Clone.on_answer.
      rewrite Ho, Ha, Hst. change (4 =? 2) with false.
      change (4 =? 4) with true. cbv iota beta zeta. rewrite He.
      now destruct e. }
    split; intros Hm.
    + rewrite (drive_app_raise _ before tk rest _ effs0 v [] _ Hd
                 (Hstep _ (check_billing_error_loud _ Hm))).
      unfold Polling.after. cbn [fst snd default]. now rewrite app_nil_r.
    + rewrite (drive_app_raise _ before tk rest _ effs0 v [] _ Hd
                 (Hstep _ (check_billing_error_quiet _ Hm))).
      unfold Polling.after. cbn [fst snd default]. now rewrite app_nil_r.
  - intros before tk rest effs v d H Ho Ha Hst. cbv zeta.
    unfold Polling.LipSync._poll in *.
    destruct (Polling.drive _ before _) as [effs0 r0] eqn:Hd.
    unfold Polling.after in H. cbn [fst snd] in H. injection H as <- ->.
    assert (Hstep : forall e,
              Polling.check_billing_error
                (default ""%string (Polling.LipSync.msg d)) = e ->
              exists effs1,
                Polling.LipSync.step start max_wait cb tk v
                = (effs1, Polling.Raised
                            (default
                               (Runtime.LipSyncFailed
                                  (default ""%string (Polling.LipSync.msg d)))
                               e))).
    { intros e He. unfold Polling.LipSync.step.
      rewrite Ho, Ha.
      change (default Polling.LipSync.no_data (Some d)) with d. rewrite Hst.
      rewrite (bool_decide_eq_false_2 (Some 30 = Some 20)) by discriminate.
      rewrite (bool_decide_eq_true_2 (Some 30 = Some 30)) by reflexivity.
      cbv zeta. rewrite He. destruct e; eexists; reflexivity. }
    split; intros Hm.
    + destruct (Hstep _ (check_billing_error_loud _ Hm)) as (effs1 & E).
      now rewrite (drive_app_raise _ before tk rest _ effs0 v effs1 _ Hd E).
    + destruct (Hstep _ (check_billing_error_quiet _ Hm)) as (effs1 & E).
      now rewrite (drive_app_raise _ before tk rest _ effs0 v effs1 _ Hd E).
Qed.

(** ** TTS service, continued (services/tts.py) *)

(** X23: [synthesize] validates the text before anything else.  A text
    that is empty or consists of whitespace characters only is refused
    with the [ValueError] for an empty text; any other text of more than
    4000 characters is refused with the [ValueError] for the length; both
    before any callback is invoked and whatever the platform would answer.
    Every other text is accepted: the call goes on to the first progress
    callback. *)
Theorem synthesize_validates_text
    (text : string) (cb : bool)
    (create : Polling.query (option (option string))) (start : Q)
    (script : list (Polling.tick (option Polling.TTS.data))) :
  let r := Polling.TTS.synthesize text cb create start script in
  (whitespace_only text ->
   r = ([], Polling.Raised (Runtime.TTSBadText "合成文案不能为空")))
  /\ (~ whitespace_only text -> 4000 < Py.len text ->
      r = ([], Polling.Raised
                 (Runtime.TTSBadText "文案长度超过限制: %d/4000字")))
  /\ (~ whitespace_only text -> Py.len text <= 4000 ->
      exists rest,
        r.1 = (Polling.callback cb "语音合成" 0 "创建合成任务..." ++ rest)%list).
Proof.
  cbv zeta. unfold Polling.TTS.synthesize.
  destruct (Py.truthy (Py.strip text)) eqn:Hstrip.
  - assert (Hne : ~ whitespace_only text).
    { intros H%strip_empty_iff. rewrite H in Hstrip. discriminate Hstrip. }
    assert (Ht : Py.truthy text = true).
    { apply truthy_nonempty. intros ->. apply Hne. now exists []. }
    rewrite Ht. cbn [negb orb].
    split; [intros H; contradiction|]. split.
    + intros _ Hlen. apply Z.ltb_lt in Hlen. now rewrite Hlen.
    + intros _ Hlen. apply Z.ltb_ge in Hlen. rewrite Hlen.
      unfold Polling.after. cbn [fst]. eexists. reflexivity.
  - rewrite orb_true_r.
    apply truthy_false_empty, strip_empty_iff in Hstrip.
    split; [reflexivity|]. split; intros H; contradiction.
Qed.

Lemma rising_lower_bound p l : rising p l -> Forall (fun x => p <= x) l.
Proof.
  revert p. induction l as [|q l IH]; intros p H; [constructor|].
  destruct H as [Hpq Hr]. constructor; [exact Hpq|].
  eapply Forall_impl; [apply (IH q Hr)|]. intros x Hx. simpl in Hx. lia.
Qed.

(** X24: the percentages [synthesize] passes to the callback lie between
    0 and 100, and 100 is among them exactly when the call returns a
    result: while polling, the estimate stays at or below 95. *)
Theorem synthesize_percent_range
    (text : string)
    (create : Polling.query (option (option string))) (start : Q)
    (script : list (Polling.tick (option Polling.TTS.data))) :
  let r := Polling.TTS.synthesize text true create start script in
  Forall (fun p => 0 <= p <= 100) (percents tts_stage r.1)
  /\ (In 100 (percents tts_stage r.1) <-> exists res, r.2 = Polling.Done res).
Proof.
  cbv zeta. unfold Polling.TTS.synthesize.
  destruct (_ || _).
  { split; [constructor|]. split; [intros []|intros [res [=]]]. }
  destruct (4000 <? Py.len text).
  { split; [constructor|]. split; [intros []|intros [res [=]]]. }
  rewrite percents_after, percents_callback.
  destruct create as [[[id|]|]|e];
    try (cbn; split; [repeat constructor; lia|];
         split; [intros [H|[]]; discriminate H|intros [res [=]]]).
  rewrite percents_after. unfold Polling.TTS._poll.
  destruct (tts_drive_rising start 600 true script
              {| Polling.TTS.poll_count := 0;
                 Polling.TTS.consecutive_errors := 0 |} 0)
    as [Hr Hall]; [simpl; lia|vm_compute; discriminate|].
  cbv zeta in Hr, Hall. apply rising_lower_bound in Hr.
  destruct (Polling.drive _ script _) as [effs r0].
  unfold Polling.after. cbn [fst snd] in *.
  assert (Hmid : Forall (fun p => 0 <= p <= 95) (percents tts_stage effs)).
  { apply Forall_forall. intros x Hx.
    rewrite Forall_forall in Hr, Hall. specialize (Hr x Hx).
    specialize (Hall x Hx). simpl in *. lia. }
  assert (Hno : ~ In 100 (percents tts_stage effs)).
  { intros Hin. apply list_elem_of_In in Hin. rewrite Forall_forall in Hmid.
    specialize (Hmid 100 Hin). lia. }
  assert (Hmid' : Forall (fun p => 0 <= p <= 100) (percents tts_stage effs)).
  { eapply Forall_impl; [exact Hmid|]. intros x Hx. simpl in Hx. lia. }
  destruct r0 as [[url dur]|e|v]; cbn [fst snd];
    rewrite ?percents_app, ?percents_callback;
    change (percents tts_stage
              [Polling.Log Runtime.INFO "语音合成任务创建成功，task_id=%s"])
      with (@nil Z);
    change (percents tts_stage
              [Polling.Log Runtime.INFO "等待语音合成完成..."])
      with (@nil Z);
    cbn [app].
  - split.
    + constructor; [lia|]. apply Forall_app. split; [exact Hmid'|].
      repeat constructor; lia.
    + split; [eauto|]. intros _. right. apply in_or_app. right. now left.
  - split; [constructor; [lia|exact Hmid']|].
    split; [|intros [res [=]]].
    intros [H|H]; [discriminate H|contradiction].
  - split; [constructor; [lia|exact Hmid']|].
    split; [|intros [res [=]]].
    intros [H|H]; [discriminate H|contradiction].
Qed.

(** ** Credential resolution, continued (auth.py) *)

(** X25: the credentials [_resolve_credentials] returns are trimmed,
    whichever source they come from: neither of them starts or ends with
    a whitespace character, ASCII or not.  When they do not come from the
    explicit arguments, both are non-empty as well. *)
Theorem resolved_credentials_are_trimmed
    (app_id secret_key : option string) (environ : gmap string string)
    (cfg : Credentials.config_file) (a k : string) :
  Credentials._resolve_credentials app_id secret_key environ cfg = inr (a, k) ->
  (trimmed a /\ trimmed k)
  /\ (Credentials.from_args app_id secret_key = None ->
      a <> ""%string /\ k <> ""%string).
Proof.
  unfold Credentials._resolve_credentials.
  destruct (Credentials.from_args app_id secret_key) as [[a0 k0]|] eqn:Hargs.
  - intros [= <- <-]. split; [|discriminate].
    unfold Credentials.from_args in Hargs.
    destruct app_id as [x|]; [|discriminate].
    destruct secret_key as [y|]; [|discriminate].
    destruct (_ && _); [|discriminate]. injection Hargs as <- <-.
    split; apply strip_trimmed.
  - destruct (Credentials.from_env environ) as [[a0 k0]|] eqn:Henv.
    + intros [= <- <-]. unfold Credentials.from_env in Henv.
      destruct (_ && _) eqn:Ht; [|discriminate]. injection Henv as <- <-.
      apply andb_true_iff in Ht as [Ha Hk].
      split; [split; apply strip_trimmed|].
      intros _. split; now apply truthy_nonempty.
    + destruct (Credentials.from_config cfg) as [[a0 k0]|] eqn:Hcfg;
        [|discriminate].
      intros [= <- <-]. unfold Credentials.from_config in Hcfg.
      destruct cfg as [| |o]; try discriminate.
      unfold Credentials.cfg_get in Hcfg.
      destruct (default (Credentials.JStr "") (o !! "app_id"%string))
        as [x|]; [|discriminate].
      destruct (default (Credentials.JStr "") (o !! "secret_key"%string))
        as [y|]; [|discriminate].
      destruct (_ && _) eqn:Ht; [|discriminate]. injection Hcfg as <- <-.
      apply andb_true_iff in Ht as [Ha Hk].
      split; [split; apply strip_trimmed|].
      intros _. split; now apply truthy_nonempty.
Qed.

Lemma resolved_credentials_are_trimmed_witness :
  Credentials._resolve_credentials (Some ("　my-app" ++ narrow_blank)%string)
    (Some " s3cret  "%string) ∅ Credentials.CfgAbsent
  = inr ("my-app"%string, "s3cret"%string)
  /\ trimmed "my-app" /\ trimmed "s3cret".
Proof.
  split; [vm_compute; reflexivity|].
  refine (proj1 (resolved_credentials_are_trimmed
                   (Some ("　my-app" ++ narrow_blank)%string)
                   (Some " s3cret  "%string)
                   ∅ Credentials.CfgAbsent "my-app" "s3cret" _)).
  vm_compute. reflexivity.
Defined.

(** ** File extension of a URL (utils.py) *)

Lemma endswith_length a : forall s,
  Utils.endswith a s = true -> (String.length a <= String.length s)%nat.
Proof.
  induction s as [|c s IH]; cbn [Utils.endswith]; intros H;
    apply orb_true_iff in H as [H|H].
  - apply String.eqb_eq in H. now subst.
  - discriminate.
  - apply String.eqb_eq in H. now subst.
  - specialize (IH H). cbn [String.length]. lia.
Qed.

(** Of two suffixes of one string the shorter is a suffix of the longer. *)
Lemma endswith_nested a b : forall s,
  Utils.endswith a s = true -> Utils.endswith b s = true ->
  (String.length a <= String.length b)%nat ->
  Utils.endswith a b = true.
Proof.
  induction s as [|c s IH]; cbn [Utils.endswith]; intros Ha Hb Hlen;
    apply orb_true_iff in Ha as [Ha|Ha]; apply orb_true_iff in Hb as [Hb|Hb];
    try discriminate.
  - apply String.eqb_eq in Ha, Hb. now subst.
  - apply String.eqb_eq in Ha, Hb. subst. cbn [Utils.endswith].
    now rewrite String.eqb_refl.
  - apply String.eqb_eq in Ha. subst a.
    apply endswith_length in Hb. cbn [String.length] in Hlen. lia.
  - apply String.eqb_eq in Hb. subst b. cbn [Utils.endswith].
    rewrite Ha. apply orb_true_r.
  - now apply IH.
Qed.

(** No string ends with two different extensions of the list. *)
Lemma extension_unique e1 e2 s :
  In e1 Utils.EXTENSIONS -> In e2 Utils.EXTENSIONS ->
  Utils.endswith e1 s = true -> Utils.endswith e2 s = true -> e1 = e2.
Proof.
  intros H1 H2 Hs1 Hs2.
  assert (Hn12 : (String.length e1 <= String.length e2)%nat ->
                 Utils.endswith e1 e2 = true)
    by (intros; eapply endswith_nested; eauto).
  assert (Hn21 : (String.length e2 <= String.length e1)%nat ->
                 Utils.endswith e2 e1 = true)
    by (intros; eapply endswith_nested; eauto).
  clear Hs1 Hs2. unfold Utils.EXTENSIONS in H1, H2.
  repeat (destruct H1 as [<-|H1]); try contradiction;
    repeat (destruct H2 as [<-|H2]); try contradiction;
    try reflexivity; exfalso;
    first [ specialize (Hn12 ltac:(cbn; lia)); vm_compute in Hn12;
            discriminate Hn12
          | specialize (Hn21 ltac:(cbn; lia)); vm_compute in Hn21;
            discriminate Hn21 ].
Qed.

Lemma first_match_some path : forall exts e,
  Utils.first_match path exts = Some e ->
  In e exts /\ Utils.endswith e (Utils.lower path) = true.
Proof.
  induction exts as [|x exts IH]; intros e H; [discriminate|].
  cbn [Utils.first_match] in H.
  destruct (Utils.endswith x (Utils.lower path)) eqn:Hx.
  - injection H as <-. split; [now left|exact Hx].
  - destruct (IH e H) as [Hin He]. split; [now right|exact He].
Qed.

Lemma first_match_none path : forall exts,
  Utils.first_match path exts = None ->
  forall e, In e exts -> Utils.endswith e (Utils.lower path) = false.
Proof.
  induction exts as [|x exts IH]; intros H e Hin; [destruct Hin|].
  cbn [Utils.first_match] in H.
  destruct (Utils.endswith x (Utils.lower path)) eqn:Hx; [discriminate|].
  destruct Hin as [<-|Hin]; [exact Hx|now apply IH].
Qed.

(** No question mark occurs in [s]. *)
Fixpoint no_question (s : string) : bool :=
  match s with
  | EmptyString => true
  | String c s' => negb (Ascii.eqb c "?") && no_question s'
  end.

Lemma before_query_app p q :
  no_question p = true ->
  Utils.before_query (p ++ "?" ++ q)%string = p
  /\ Utils.before_query p = p.
Proof.
  induction p as [|c p IH]; intros H.
  - split; reflexivity.
  - cbn [no_question] in H. apply andb_true_iff in H as [Hc Hp].
    apply negb_true_iff in Hc. rewrite append_cons.
    cbn [Utils.before_query]. rewrite Hc.
    destruct (IH Hp) as [-> ->]. split; reflexivity.
Qed.

Lemma lower_char_question c :
  Ascii.eqb (Utils.lower_char c) "?" = Ascii.eqb c "?".
Proof.
  destruct c as [[] [] [] [] [] [] [] []]; reflexivity.
Qed.

Lemma lower_before_query url :
  Utils.lower (Utils.before_query url)
  = Utils.before_query (Utils.lower url).
Proof.
  induction url as [|c url IH]; [reflexivity|].
  cbn [Utils.before_query Utils.lower]. rewrite lower_char_question.
  destruct (Ascii.eqb c "?"); [reflexivity|].
  cbn [Utils.lower]. now rewrite IH.
Qed.

Lemma lower_char_idempotent c :
  Utils.lower_char (Utils.lower_char c) = Utils.lower_char c.
Proof.
  destruct c as [[] [] [] [] [] [] [] []]; reflexivity.
Qed.

Lemma lower_idempotent s : Utils.lower (Utils.lower s) = Utils.lower s.
Proof.
  induction s as [|c s IH]; [reflexivity|].
  cbn [Utils.lower]. now rewrite lower_char_idempotent, IH.
Qed.

Lemma first_match_lower path exts :
  Utils.first_match (Utils.lower path) exts = Utils.first_match path exts.
Proof.
  induction exts as [|x exts IH]; [reflexivity|].
  cbn [Utils.first_match]. now rewrite lower_idempotent, IH.
Qed.

(** X26: [infer_extension_from_url] returns the extension of the list
    with which the part of the URL before the first question mark ends,
    letter case ignored, and the default when it ends with none; so a
    query string never changes the answer, and neither does the case of
    the letters of the URL. *)
Theorem infer_extension_spec (url default_ext : string) :
  let path := Utils.lower (Utils.before_query url) in
  (forall ext, In ext Utils.EXTENSIONS -> Utils.endswith ext path = true ->
     Utils.infer_extension_from_url url default_ext = ext)
  /\ ((forall ext, In ext Utils.EXTENSIONS ->
         Utils.endswith ext path = false) ->
      Utils.infer_extension_from_url url default_ext = default_ext)
  /\ (forall p q, url = (p ++ "?" ++ q)%string -> no_question p = true ->
      Utils.infer_extension_from_url url default_ext
      = Utils.infer_extension_from_url p default_ext)
  /\ Utils.infer_extension_from_url (Utils.lower url) default_ext
     = Utils.infer_extension_from_url url default_ext.
Proof.
  cbv zeta. unfold Utils.infer_extension_from_url. repeat split.
  - intros ext Hin Hend.
    destruct (Utils.first_match (Utils.before_query url) Utils.EXTENSIONS)
      as [e|] eqn:Hm.
    + destruct (first_match_some _ _ _ Hm) as [Hin' Hend'].
      eapply extension_unique; eauto.
    + rewrite (first_match_none _ _ Hm ext Hin) in Hend. discriminate Hend.
  - intros Hnone.
    destruct (Utils.first_match (Utils.before_query url) Utils.EXTENSIONS)
      as [e|] eqn:Hm; [|reflexivity].
    destruct (first_match_some _ _ _ Hm) as [Hin' Hend'].
    rewrite (Hnone e Hin') in Hend'. discriminate Hend'.
  - intros p q -> Hp. destruct (before_query_app p q Hp) as [-> ->].
    reflexivity.
  - now rewrite <- lower_before_query, first_match_lower.
Qed.

Example infer_extension_examples :
  Utils.infer_extension_from_url
    "https://cdn.example.com/a/Voice.WAV?sign=1.mp3&t=2" ".mp3" = ".wav"%string
  /\ Utils.infer_extension_from_url "https://cdn.example.com/a/clip" ".bin"
     = ".bin"%string
  /\ Utils.infer_extension_from_url "https://cdn.example.com/a.mp4#t=3" ".mp3"
     = ".mp3"%string.
Proof. repeat split; reflexivity. Qed.

(** ** The properties above at concrete inputs *)

(** The token endpoint answers without a token. *)
Definition tokenless_server : nat -> Runtime.http_request -> Runtime.reply :=
  fun _ _ => answer 0 "ok" None.

Lemma get_token_keeps_token_file_witness :
  let r := Api.get_token (Api.json_request tokenless_server punctual 3)
             (Api.set_now 49900%Q stale_client_no_file) in
  r.1 = Runtime.Raises Runtime.EmptyAccessToken
  /\ Runtime.token_file r.2 = Runtime.FileAbsent.
Proof.
  cbv zeta. split; [reflexivity|].
  exact (proj1 (get_token_keeps_token_file tokenless_server punctual 3
                  (Api.set_now 49900%Q stale_client_no_file))
           Runtime.EmptyAccessToken eq_refl).
Defined.

Lemma stale_client_disk_valid : disk_valid stale_client "stale".
Proof.
  exists 50000%Q. split; [reflexivity|]. split; [discriminate|reflexivity].
Qed.

Lemma reset_then_get_token_witness :
  let r := Runtime.bind Api.reset
             (fun _ => Api.get_token
                         (Api.json_request revoking_server punctual 3))
             stale_client in
  r.1 = Runtime.Returns "stale"%string /\ refreshes r.2 = refreshes stale_client.
Proof.
  cbv zeta.
  destruct (proj1 (reset_then_get_token revoking_server punctual 3
                     stale_client) "stale"%string stale_client_disk_valid)
    as (H1 & H2 & _).
  split; [exact H1|exact H2].
Defined.

(** Every endpoint answers with the business code 500. *)
Definition failing_platform : nat -> Runtime.http_request -> Runtime.reply :=
  fun _ _ => answer 500 "boom" None.

Lemma json_request_single_exchange_witness :
  (Api.json_request failing_platform punctual 3 "GET" detail_url "default"
     true false no_kwargs fresh_client).1
  = Runtime.Raises (Runtime.ApiFailed (Some 500) "boom").
Proof.
  pose proof (proj2 (json_request_single_exchange failing_platform punctual 2
                       "GET" detail_url "default" true false no_kwargs
                       fresh_client)
                {| Runtime.status_code := 200;
                   Runtime.content :=
                     Runtime.Json {| Runtime.code := Some 500;
                                     Runtime.msg := Some "boom"%string;
                                     Runtime.data := None |} |}
                eq_refl) as H.
  cbn [Runtime.content] in H. destruct H as (_ & _ & H & _).
  rewrite (H 500 eq_refl ltac:(lia) ltac:(lia) ltac:(lia)). reflexivity.
Defined.

Lemma poll_results_come_from_platform_witness :
  exists tk d,
    In tk [at_ 1 (Polling.Answers (Some tts_running));
           at_ 4 (Polling.Answers (Some (tts_finished "u")))]
    /\ Polling.answer tk = Polling.Answers (Some d)
    /\ Polling.TTS.status d = Some 9
    /\ Polling.TTS.full_url d = Some "u"%string.
Proof.
  destruct (proj1 (poll_results_come_from_platform 0 600 true)
              [at_ 1 (Polling.Answers (Some tts_running));
               at_ 4 (Polling.Answers (Some (tts_finished "u")))]
              _ "u"%string 3%Q eq_refl)
    as (tk & d & H1 & _ & H3 & H4 & _ & H6 & _).
  exists tk, d. auto.
Defined.

Lemma poll_completion_is_reported_witness :
  exists tk,
    In tk (five_failures ++ [at_ 25 (Polling.Answers (Some 1))])
    /\ Polling.answer tk = Polling.Answers (Some 1).
Proof.
  destruct (proj2 (poll_completion_is_reported 0 90 3 true)
              (five_failures ++ [at_ 25 (Polling.Answers (Some 1))])
              _ eq_refl)
    as (tk & H1 & _ & H3).
  exists tk. auto.
Defined.

Lemma polling_deadline_witness :
  (Polling.TTS._poll 0 600 true
     ([at_ 1 (Polling.Answers (Some tts_running))]
        ++ at_ 601 (Polling.Answers (Some (tts_finished "u"))) :: [])).2
  = Polling.Raised (Runtime.TTSTimeout (601 - 0)%Q).
Proof.
  now rewrite (proj1 (polling_deadline 0 600 3 true)
                 [at_ 1 (Polling.Answers (Some tts_running))]
                 (at_ 601 (Polling.Answers (Some (tts_finished "u")))) []
                 _ _ eq_refl eq_refl).
Defined.

Definition clone_failed (m : string) : Polling.Clone.data :=
  {| Polling.Clone.status := Some 4; Polling.Clone.progress := None;
     Polling.Clone.err_msg := Some m |}.

Lemma failed_job_errors_witness :
  Polling.Clone._poll_clone 0 600 true
    ([] ++ at_ 1 (Polling.Answers (Some (clone_failed "蝉豆不足"))) :: [])
  = ([Polling.Log Runtime.INFO "等待声音克隆完成..."],
     Polling.Raised (Runtime.BillingError "蝉豆不足")).
Proof.
  refine (proj1 (proj1 (failed_job_errors 0 600 true) []
                   (at_ 1 (Polling.Answers (Some (clone_failed "蝉豆不足"))))
                   [] _ _ (clone_failed "蝉豆不足") eq_refl eq_refl eq_refl
                   eq_refl) _).
  exists "蝉豆不足"%string, ""%string, ""%string.
  split; [right; right; left; reflexivity|reflexivity].
Defined.

Lemma synthesize_validates_text_witness :
  Polling.TTS.synthesize (Py.text [0x3000; 0x3000]) true
    (Polling.Answers (Some (Some "task-1"))) 0 []
  = ([], Polling.Raised (Runtime.TTSBadText "合成文案不能为空")).
Proof.
  apply (proj1 (synthesize_validates_text (Py.text [0x3000; 0x3000]) true
                  (Polling.Answers (Some (Some "task-1"%string))) 0 [])).
  exists [0x3000; 0x3000]. split; [repeat constructor|reflexivity].
Defined.

(** ** Voice clone service (services/voice_clone.py) *)

(** X27: [clone] checks its input before it touches the cache or the
    platform.  A missing file raises the not-found error with no effect
    at all; a known duration below 15 s, and one above 300 s that
    [trim_audio] cannot shorten, raise a [ValueError] after log lines
    only; in each case the cache instance is left as it was.  A known
    duration from 15 s to 300 s, both included, passes with the file as
    it is. *)
Theorem clone_rejects_bad_input
    (E : VoiceClone.env) (audio_path model : string)
    (use_cache on_progress : bool) (cache : VoiceCloneCache.t) :
  let r := VoiceClone.clone E audio_path model use_cache on_progress cache in
  (VoiceClone.path_exists E audio_path = false ->
   r = ([], VoiceClone.Failed VoiceClone.FileNotFound, cache))
  /\ (forall d, VoiceClone.path_exists E audio_path = true ->
        VoiceClone.get_audio_duration E audio_path = Some d ->
        (d < 15)%Q ->
        r = ([Polling.Log Runtime.INFO "参考音频时长: %s"],
             VoiceClone.Failed (VoiceClone.TooShort d), cache))
  /\ (forall d, VoiceClone.path_exists E audio_path = true ->
        VoiceClone.get_audio_duration E audio_path = Some d ->
        (300 < d)%Q ->
        VoiceClone.trim_audio E audio_path = None ->
        r = ([Polling.Log Runtime.INFO "参考音频时长: %s";
              Polling.Log Runtime.INFO "音频时长超过5分钟，尝试自动裁剪..."],
             VoiceClone.Failed (VoiceClone.TooLong d), cache))
  /\ (forall d, VoiceClone.get_audio_duration E audio_path = Some d ->
        (15 <= d)%Q -> (d <= 300)%Q ->
        VoiceClone.check_duration E audio_path
        = ([Polling.Log Runtime.INFO "参考音频时长: %s"], inr audio_path)).
Proof.
  cbv zeta. unfold VoiceClone.clone. repeat split.
  - now intros ->.
  - intros d -> Hd Hlt. unfold VoiceClone.check_duration. rewrite Hd.
    apply Qltb_lt in Hlt. cbv zeta. now rewrite Hlt.
  - intros d -> Hd Hgt Htrim. unfold VoiceClone.check_duration.
    rewrite Hd, Htrim. cbv zeta.
    assert (H15 : Api.Qltb d 15 = false) by (apply Qltb_ge; lra).
    apply Qltb_lt in Hgt. now rewrite H15, Hgt.
  - intros d Hd Hlo Hhi. unfold VoiceClone.check_duration. rewrite Hd.
    cbv zeta.
    assert (H15 : Api.Qltb d 15 = false) by now apply Qltb_ge.
    assert (H300 : Api.Qltb 300 d = false) by now apply Qltb_ge.
    now rewrite H15, H300.
Qed.

(** An environment in which every file exists, lasts [d] seconds and
    cannot be trimmed, and every call on the platform fails. *)
Definition offline (d : Q) : VoiceClone.env :=
  {| VoiceClone.path_exists := fun _ => true;
     VoiceClone.get_audio_duration := fun _ => Some d;
     VoiceClone.trim_audio := fun _ => None;
     VoiceClone.file_content_hash := fun _ => "9e107d9d"%string;
     VoiceClone.validate := fun _ => Polling.Fails unreachable;
     VoiceClone.percent := UploadProgress.exact_percent;
     VoiceClone.upload := fun _ => no_upload;
     VoiceClone.create := fun _ _ => Polling.Fails unreachable;
     VoiceClone.start := 0; VoiceClone.script := [];
     VoiceClone.put_time := 0 |}.

Lemma clone_rejects_bad_input_witness :
  VoiceClone.clone (offline 10) "ref.mp3" "cicada3.0-turbo" true true
    empty_voice_cache
  = ([Polling.Log Runtime.INFO "参考音频时长: %s"],
     VoiceClone.Failed (VoiceClone.TooShort 10), empty_voice_cache).
Proof.
  apply (proj1 (proj2 (clone_rejects_bad_input (offline 10) "ref.mp3"
                         "cicada3.0-turbo" true true empty_voice_cache))
           10%Q); reflexivity.
Defined.

(** The file [clone] goes on with: the trimmed one when it was trimmed. *)
Definition effective_path (E : VoiceClone.env) (audio_path : string)
  : string :=
  match VoiceClone.check_duration E audio_path with
  | (_, inr p) => p
  | (_, inl _) => audio_path
  end.

(** What the part of [clone] from the upload on does to the cache: it
    writes the new identifier when it returns one and the cache is in
    use, and nothing otherwise. *)
Lemma clone_fresh_cache E p h m uc cb c :
  cache_usable c ->
  let r := VoiceClone.clone_fresh E p h m uc cb c in
  match r.1.2 with
  | VoiceClone.Returned v =>
      exists id,
        v = VoiceCloneCache.Str id
        /\ r.2 = if uc
                 then (VoiceCloneCache.put h m id (VoiceClone.put_time E) c).2
                 else c
  | _ => r.2 = c
  end.
Proof.
  intros Hu. cbv zeta. unfold VoiceClone.clone_fresh.
  destruct (VoiceClone.upload_file E p cb) as [ups [up|e|[]]];
    try reflexivity.
  destruct (negb (Py.truthy (Upload.url up))); [reflexivity|].
  destruct (VoiceClone.create E (Upload.url up) m) as [[id|]|e];
    try reflexivity.
  destruct (Polling.Clone._poll_clone _ _ _ _) as [effs [[]|e|v]];
    try reflexivity.
  destruct uc.
  - rewrite (put_spec h m id (VoiceClone.put_time E) c Hu). cbn.
    exists id. split; [reflexivity|].
    now rewrite (put_spec h m id (VoiceClone.put_time E) c Hu).
  - cbn. exists id. split; reflexivity.
Qed.

Lemma get_returns h m c x c1 :
  VoiceCloneCache.get h m c = (inr x, c1) ->
  cache_usable c
  /\ x = match found (loaded c !! VoiceCloneCache._make_key h m) with
         | inr v => v
         | inl _ => VoiceCloneCache.Null
         end
  /\ found (loaded c !! VoiceCloneCache._make_key h m) = inr x
  /\ c1 = VoiceCloneCache.set_cache (Some (loaded c)) c.
Proof.
  intros H.
  assert (Hu : cache_usable c).
  { unfold cache_usable.
    destruct (VoiceCloneCache._cache c) as [d|] eqn:Hc; [left; discriminate|].
    right. intros Hd. unfold VoiceCloneCache.get, VoiceCloneCache._load in H.
    rewrite Hc, Hd in H. cbn in H. rewrite ?Hc in H. discriminate H. }
  rewrite (get_usable h m c Hu) in H. injection H as H1 H2.
  rewrite H1. auto.
Qed.

Lemma loaded_set_cache d c :
  cache_usable (VoiceCloneCache.set_cache (Some d) c)
  /\ loaded (VoiceCloneCache.set_cache (Some d) c) = d.
Proof. split; [left; discriminate|reflexivity]. Qed.

Lemma found_truthy_some o v :
  found o = inr v -> VoiceCloneCache.truthy_value v = true -> is_Some o.
Proof.
  destruct o as [e|]; [eauto|]. cbn. intros [= <-]. discriminate.
Qed.

Lemma get_after_put h m id t c :
  cache_usable c ->
  (VoiceCloneCache.get h m (VoiceCloneCache.put h m id t c).2).1
  = inr (VoiceCloneCache.Str id).
Proof.
  intros Hu. rewrite (put_spec h m id t c Hu). cbn [snd].
  erewrite get_new_entry; [reflexivity|]. rewrite save_cache. reflexivity.
Qed.

(** X28: with the cache in use, when the cache holds an identifier for
    the audio's hash and the model and the platform confirms it (status
    2), [clone] returns that identifier after the log lines and the one
    callback "声音克隆 100": nothing is uploaded, no task is created, and
    the cache is only read. *)
Theorem clone_cache_hit
    (E : VoiceClone.env) (audio_path model : string) (on_progress : bool)
    (cache : VoiceCloneCache.t) (l : list Polling.effect) (p : string)
    (v : VoiceCloneCache.value) :
  VoiceClone.path_exists E audio_path = true ->
  VoiceClone.check_duration E audio_path = (l, inr p) ->
  cache_usable cache ->
  found (loaded cache
           !! VoiceCloneCache._make_key (VoiceClone.file_content_hash E p)
                model) = inr v ->
  VoiceCloneCache.truthy_value v = true ->
  VoiceClone._validate_voice E v = true ->
  VoiceClone.clone E audio_path model true on_progress cache
  = ((l ++ [Polling.Log Runtime.INFO "命中声音克隆缓存，voice_id=%s"])
       ++ Polling.callback on_progress "声音克隆" 100 "缓存命中",
     VoiceClone.Returned v,
     VoiceCloneCache.set_cache (Some (loaded cache)) cache).
Proof.
  intros Hex Hdur Hu Hfound Htruthy Hvalid.
  unfold VoiceClone.clone. rewrite Hex, Hdur. cbn [negb].
  rewrite (get_usable _ _ cache Hu), Hfound, Htruthy, Hvalid. reflexivity.
Qed.

(** An environment in which the file lasts 20 s, the platform confirms
    every identifier, and uploads fail. *)
Definition confirming : VoiceClone.env :=
  {| VoiceClone.path_exists := fun _ => true;
     VoiceClone.get_audio_duration := fun _ => Some 20%Q;
     VoiceClone.trim_audio := fun _ => None;
     VoiceClone.file_content_hash := fun _ => "9e107d9d"%string;
     VoiceClone.validate := fun _ => Polling.Answers (Some (Some 2));
     VoiceClone.percent := UploadProgress.exact_percent;
     VoiceClone.upload := fun _ => no_upload;
     VoiceClone.create := fun _ _ => Polling.Fails unreachable;
     VoiceClone.start := 0; VoiceClone.script := [];
     VoiceClone.put_time := 0 |}.

Lemma clone_cache_hit_witness :
  (VoiceClone.clone confirming "ref.mp3" "cicada3.0-turbo" true true
     one_voice_cache).1
  = ([Polling.Log Runtime.INFO "参考音频时长: %s";
      Polling.Log Runtime.INFO "命中声音克隆缓存，voice_id=%s";
      Polling.Progress "声音克隆" 100 "缓存命中"],
     VoiceClone.Returned (VoiceCloneCache.Str "voice-1")).
Proof.
  now rewrite (clone_cache_hit confirming "ref.mp3" "cicada3.0-turbo" true
                 one_voice_cache
                 [Polling.Log Runtime.INFO "参考音频时长: %s"] "ref.mp3"
                 (VoiceCloneCache.Str "voice-1") eq_refl eq_refl
                 one_voice_cache_usable eq_refl eq_refl eq_refl).
Defined.




(** The platform confirms no identifier, and issues "voice-9" for a new
    task. *)
Definition reissuing : VoiceClone.env :=
  {| VoiceClone.path_exists := fun _ => true;
     VoiceClone.get_audio_duration := fun _ => None;
     VoiceClone.trim_audio := fun _ => None;
     VoiceClone.file_content_hash := fun _ => "9e107d9d"%string;
     VoiceClone.validate := fun _ => Polling.Answers (Some (Some 3));
     VoiceClone.percent := UploadProgress.exact_percent;
     VoiceClone.upload :=
       fun _ => smooth_upload "file-1" "https://cdn.example.com/ref.mp3";
     VoiceClone.create := fun _ _ => Polling.Answers (Some "voice-9"%string);
     VoiceClone.start := 0;
     VoiceClone.script :=
       [at_ 1 (Polling.Answers
                 (Some {| Polling.Clone.status := Some 2;
                          Polling.Clone.progress := Some 100;
                          Polling.Clone.err_msg := None |}))];
     VoiceClone.put_time := 7 |}.

Example clone_replaces_stale_entry :
  let r := VoiceClone.clone reissuing "ref.mp3" "cicada3.0-turbo" true true
             one_voice_cache in
  (VoiceCloneCache.get "9e107d9d" "cicada3.0-turbo" one_voice_cache).1
  = inr (VoiceCloneCache.Str "voice-1")
  /\ r.1.2 = VoiceClone.Returned (VoiceCloneCache.Str "voice-9")
  /\ (VoiceCloneCache.get "9e107d9d" "cicada3.0-turbo" r.2).1
     = inr (VoiceCloneCache.Str "voice-9").
Proof. repeat split; reflexivity. Qed.


Lemma clone_fresh_without_cache E p h m cb c :
  (VoiceClone.clone_fresh E p h m false cb c).2 = c.
Proof.
  unfold VoiceClone.clone_fresh.
  destruct (VoiceClone.upload_file E p cb) as [ups [up|e|[]]];
    try reflexivity.
  destruct (negb (Py.truthy (Upload.url up))); [reflexivity|].
  destruct (VoiceClone.create E (Upload.url up) m) as [[id|]|e];
    try reflexivity.
  now destruct (Polling.Clone._poll_clone _ _ _ _) as [effs [[]|e|v]].
Qed.

(** X30: with [use_cache=False] [clone] neither reads nor writes the
    cache: the instance is left exactly as it was, however the call ends.
    With [use_cache=True], whenever [clone] returns an identifier, the
    cache afterwards answers with that identifier for the hash of the
    audio that was used (the trimmed file, if it was trimmed) and the
    model. *)
Theorem clone_and_cache
    (E : VoiceClone.env) (audio_path model : string) (on_progress : bool)
    (cache : VoiceCloneCache.t) :
  (VoiceClone.clone E audio_path model false on_progress cache).2 = cache
  /\ (forall v,
        let r := VoiceClone.clone E audio_path model true on_progress cache in
        r.1.2 = VoiceClone.Returned v ->
        (VoiceCloneCache.get
           (VoiceClone.file_content_hash E (effective_path E audio_path))
           model r.2).1 = inr v).
Proof.
  split.
  - unfold VoiceClone.clone.
    destruct (negb (VoiceClone.path_exists E audio_path)); [reflexivity|].
    destruct (VoiceClone.check_duration E audio_path) as [l [err|p]];
      [reflexivity|].
    pose proof (clone_fresh_without_cache E p
                  (VoiceClone.file_content_hash E p) model on_progress cache)
      as Hf.
    now destruct (VoiceClone.clone_fresh _ _ _ _ _ _ _) as [[effs r] c'].
  - intros v. cbv zeta. unfold VoiceClone.clone, effective_path.
    destruct (negb (VoiceClone.path_exists E audio_path)); [discriminate|].
    destruct (VoiceClone.check_duration E audio_path) as [l [err|p]];
      [discriminate|].
    set (h := VoiceClone.file_content_hash E p).
    destruct (VoiceCloneCache.get h model cache) as [[e|x] c1] eqn:Hget;
      [discriminate|].
    destruct (get_returns h model cache x c1 Hget) as (Hu & _ & Hfound & ->).
    destruct (loaded_set_cache (loaded cache) cache) as [Hu1 Hl1].
    destruct (VoiceCloneCache.truthy_value x) eqn:Htruthy.
    + destruct (VoiceClone._validate_voice E x).
      * cbn [fst snd]. intros [= <-].
        now rewrite (get_usable h model _ Hu1), Hl1, Hfound.
      * rewrite (remove_spec h model _ Hu1), Hl1.
        rewrite bool_decide_eq_true_2 by (eapply found_truthy_some; eauto).
        set (c2 := VoiceCloneCache._save _).
        assert (Hu2 : cache_usable c2) by apply saved_usable.
        pose proof (clone_fresh_cache E p h model true on_progress c2 Hu2)
          as Hf.
        cbv zeta in Hf.
        destruct (VoiceClone.clone_fresh E p h model true on_progress c2)
          as [[effs r] c']. cbn [fst snd] in *.
        intros ->. destruct Hf as (id & -> & ->). now apply get_after_put.
    + pose proof (clone_fresh_cache E p h model true on_progress _ Hu1) as Hf.
      cbv zeta in Hf.
      destruct (VoiceClone.clone_fresh E p h model true on_progress _)
        as [[effs r] c']. cbn [fst snd] in *.
      intros ->. destruct Hf as (id & -> & ->). now apply get_after_put.
Qed.

Lemma clone_and_cache_witness :
  let r := VoiceClone.clone cloning "ref.mp3" "cicada3.0-turbo" true true
             empty_voice_cache in
  r.1.2 = VoiceClone.Returned (VoiceCloneCache.Str "voice-9")
  /\ (VoiceCloneCache.get "9e107d9d" "cicada3.0-turbo" r.2).1
     = inr (VoiceCloneCache.Str "voice-9").
Proof.
  cbv zeta. split; [reflexivity|].
  exact (proj2 (clone_and_cache cloning "ref.mp3" "cicada3.0-turbo" true
                  empty_voice_cache)
           (VoiceCloneCache.Str "voice-9") eq_refl).
Defined.

Example clone_progress_trace :
  percents "上传音频" (VoiceClone.clone cloning "ref.mp3" "cicada3.0-turbo"
                        true true empty_voice_cache).1.1 = [0; 100]
  /\ percents "声音克隆" (VoiceClone.clone cloning "ref.mp3" "cicada3.0-turbo"
                           true true empty_voice_cache).1.1 = [0; 100].
Proof. split; reflexivity. Qed.
